(** * Fire VFX rig add-on ([blender_fire_vfx.py]): a shallow embedding

    The add-on is glue between a settings record and the host's data
    (objects, collections, modifiers, materials, node trees).  The
    embedding follows the source function by function.  Python floats are
    represented by the exact rational their literal denotes; the host's
    single-precision storage of float properties is not modelled. *)

From Stdlib Require Import ZArith QArith Lia.
From stdpp Require Import base option list strings gmap.

Set Default Proof Using "Type".

Local Open Scope Z_scope.

(** ** Python values that flow through the settings and the host's RNA *)

Inductive value :=
| VInt (z : Z)
| VFloat (q : Q)
| VBool (b : bool)
| VStr (s : string)
| VTuple (xs : list Q).

(** A Python [dict] literal: its items in insertion order. *)
Definition dict := list (string * value).

(** [d.get(k)]: the value stored under [k], if any. *)
Fixpoint dict_get (k : string) (d : dict) : option value :=
  match d with
  | [] => None
  | (k', v) :: d' => if decide (k = k') then Some v else dict_get k d'
  end.

Definition dict_keys (d : dict) : list string := d.*1.

(** ** Property declarations ([bpy.props]) *)

Inductive prop :=
| EnumProperty (items : list string) (dflt : string)
| StringProperty (dflt : string)
| BoolProperty (dflt : bool)
| IntProperty (lo hi dflt : Z)
| FloatProperty (lo hi dflt : Q)
| FloatVectorProperty (size : nat) (lo : Q) (hi : option Q) (dflt : list Q).

Definition prop_default (p : prop) : value :=
  match p with
  | EnumProperty _ d => VStr d
  | StringProperty d => VStr d
  | BoolProperty d => VBool d
  | IntProperty _ _ d => VInt d
  | FloatProperty _ _ d => VFloat d
  | FloatVectorProperty _ _ _ d => VTuple d
  end.

Definition clampZ (lo hi x : Z) : Z :=
  if x <? lo then lo else if hi <? x then hi else x.

Definition Qltb (a b : Q) : bool := negb (Qle_bool b a).

Definition clampQ (lo : Q) (hi : option Q) (x : Q) : Q :=
  if Qltb x lo then lo
  else match hi with
       | Some h => if Qltb h x then h else x
       | None => x
       end.

Definition bool_to_Z (b : bool) : Z := if b then 1 else 0.

(** What the host stores when [v] is assigned to a property declared as
    [p]; [None] when the assignment raises (wrong type, wrong arity, an
    identifier that is not an item of the enum).  Numbers are clamped to the
    declared hard range. *)
Definition rna_set (p : prop) (v : value) : option value :=
  match p, v with
  | EnumProperty items _, VStr s =>
      if decide (s ∈ items) then Some (VStr s) else None
  | StringProperty _, VStr s => Some (VStr s)
  | BoolProperty _, VBool b => Some (VBool b)
  | BoolProperty _, VInt z =>
      if decide (z = 0) then Some (VBool false)
      else if decide (z = 1) then Some (VBool true) else None
  | IntProperty lo hi _, VInt z => Some (VInt (clampZ lo hi z))
  | IntProperty lo hi _, VBool b => Some (VInt (clampZ lo hi (bool_to_Z b)))
  | FloatProperty lo hi _, VFloat q => Some (VFloat (clampQ lo (Some hi) q))
  | FloatProperty lo hi _, VInt z =>
      Some (VFloat (clampQ lo (Some hi) (inject_Z z)))
  | FloatProperty lo hi _, VBool b =>
      Some (VFloat (clampQ lo (Some hi) (inject_Z (bool_to_Z b))))
  | FloatVectorProperty n lo hi _, VTuple xs =>
      if decide (length xs = n) then Some (VTuple (clampQ lo hi <$> xs))
      else None
  | _, _ => None
  end.

(** ** The settings record: [class FIREVFX_Settings(PropertyGroup)] *)

Local Open Scope Q_scope.

Definition preset_items : list string :=
  ["CANDLE"; "TORCH"; "CAMPFIRE"; "BONFIRE"; "EXPLOSION"]%string.

Definition FIREVFX_Settings : list (string * prop) :=
  [ ("preset", EnumProperty preset_items "TORCH");
    ("domain_object_name", StringProperty "");
    ("emitter_object_name", StringProperty "");
    ("ui_show_advanced", BoolProperty false);
    ("apply_scale_on_update", BoolProperty false);
    ("domain_size", FloatVectorProperty 3 0.1 None [2.0; 2.0; 3.0]);
    ("emitter_scale", FloatVectorProperty 3 0.001 None [0.07; 0.07; 0.25]);
    ("resolution_max", IntProperty 16 1024 96);
    ("time_scale", FloatProperty 0.05 3.0 1.0);
    ("vorticity", FloatProperty 0.0 10.0 0.8);
    ("use_adaptive_domain", BoolProperty true);
    ("adaptive_margin", IntProperty 0 50 4);
    ("adaptive_additional_res", IntProperty 0 256 0);
    ("use_noise", BoolProperty false);
    ("noise_strength", FloatProperty 0.0 10.0 1.0);
    ("noise_scale", FloatProperty 0.1 20.0 2.5);
    ("use_dissolve_smoke", BoolProperty false);
    ("dissolve_speed", IntProperty 1 100 30);
    ("burning_rate", FloatProperty 0.0 10.0 1.2);
    ("flame_smoke", FloatProperty 0.0 5.0 0.18);
    ("flow_density", FloatProperty 0.0 10.0 1.0);
    ("flow_temperature", FloatProperty 0.0 10.0 1.25);
    ("flow_fuel", FloatProperty 0.0 10.0 1.15);
    ("use_initial_velocity", BoolProperty true);
    ("velocity_factor", FloatProperty 0.0 10.0 1.5);
    ("flame_strength", FloatProperty 0.0 500.0 35.0);
    ("smoke_density", FloatProperty 0.0 50.0 2.0);
    ("flame_color_low",
      FloatVectorProperty 4 0.0 (Some 1.0) [0.07; 0.01; 0.0; 1.0]);
    ("flame_color_mid",
      FloatVectorProperty 4 0.0 (Some 1.0) [1.0; 0.42; 0.08; 1.0]);
    ("flame_color_high",
      FloatVectorProperty 4 0.0 (Some 1.0) [1.0; 0.95; 0.85; 1.0]);
    ("cache_directory", StringProperty "//fire_vfx_cache") ]%string.

(** The declaration of the property called [k], if the class has one. *)
Fixpoint prop_of_in (k : string) (cls : list (string * prop)) : option prop :=
  match cls with
  | [] => None
  | (k', p) :: cls' => if decide (k = k') then Some p else prop_of_in k cls'
  end.

Definition prop_of (k : string) : option prop := prop_of_in k FIREVFX_Settings.

(** An instance of the property group holds the values that were assigned.
    A property reads as a value of its declared type: the stored value when
    it is one the declaration accepts, the declared default when nothing
    was assigned (or what is stored does not fit the declaration). *)
Abbreviation Settings := (gmap string value).

Definition hasattr (k : string) : bool := bool_decide (is_Some (prop_of k)).

Definition rna_get (p : prop) (stored : option value) : value :=
  default (prop_default p) (stored ≫= rna_set p).

(** [getattr(settings, k)]; [None] stands for [AttributeError]. *)
Definition getattr (s : Settings) (k : string) : option value :=
  p ← prop_of k; Some (rna_get p (s !! k)).

(** [setattr(settings, k, v)] without the update callback; [None] when it
    raises.  Only [preset] declares an update callback, see
    [assign_preset] below. *)
Definition setattr (s : Settings) (k : string) (v : value) : option Settings :=
  p ← prop_of k; v' ← rna_set p v; Some (<[k := v']> s).

(** ** Presets *)

Definition BASE_PRESET : dict :=
  [ ("domain_size", VTuple [2.0; 2.0; 3.0]);
    ("emitter_scale", VTuple [0.07; 0.07; 0.25]);
    ("resolution_max", VInt 96);
    ("time_scale", VFloat 1.0);
    ("vorticity", VFloat 0.7);
    ("use_adaptive_domain", VBool true);
    ("adaptive_margin", VInt 4);
    ("adaptive_additional_res", VInt 0);
    ("use_noise", VBool false);
    ("noise_strength", VFloat 1.0);
    ("noise_scale", VFloat 2.5);
    ("use_dissolve_smoke", VBool false);
    ("dissolve_speed", VInt 30);
    ("burning_rate", VFloat 1.2);
    ("flame_smoke", VFloat 0.18);
    ("flow_density", VFloat 1.0);
    ("flow_temperature", VFloat 1.25);
    ("flow_fuel", VFloat 1.15);
    ("use_initial_velocity", VBool true);
    ("velocity_factor", VFloat 1.2);
    ("flame_strength", VFloat 35.0);
    ("smoke_density", VFloat 2.0);
    ("flame_color_low", VTuple [0.07; 0.01; 0.0; 1.0]);
    ("flame_color_mid", VTuple [1.0; 0.42; 0.08; 1.0]);
    ("flame_color_high", VTuple [1.0; 0.95; 0.85; 1.0]) ]%string.

Definition CANDLE : dict :=
  [ ("domain_size", VTuple [1.5; 1.5; 2.5]);
    ("emitter_scale", VTuple [0.04; 0.04; 0.10]);
    ("resolution_max", VInt 80);
    ("vorticity", VFloat 0.25);
    ("use_noise", VBool true);
    ("noise_strength", VFloat 0.4);
    ("noise_scale", VFloat 2.0);
    ("burning_rate", VFloat 0.8);
    ("flame_smoke", VFloat 0.05);
    ("flow_density", VFloat 0.6);
    ("flow_temperature", VFloat 1.0);
    ("flow_fuel", VFloat 1.0);
    ("flame_strength", VFloat 18.0);
    ("smoke_density", VFloat 0.8);
    ("use_dissolve_smoke", VBool true);
    ("dissolve_speed", VInt 35);
    ("use_initial_velocity", VBool false);
    ("velocity_factor", VFloat 1.0);
    ("flame_color_mid", VTuple [1.0; 0.55; 0.12; 1.0]);
    ("flame_color_high", VTuple [1.0; 1.0; 1.0; 1.0]) ]%string.

Definition TORCH : dict :=
  [ ("resolution_max", VInt 112);
    ("vorticity", VFloat 0.8);
    ("use_noise", VBool true);
    ("noise_strength", VFloat 1.0);
    ("noise_scale", VFloat 2.5);
    ("velocity_factor", VFloat 1.5) ]%string.

Definition CAMPFIRE : dict :=
  [ ("domain_size", VTuple [4.0; 4.0; 4.0]);
    ("emitter_scale", VTuple [0.45; 0.45; 0.18]);
    ("resolution_max", VInt 144);
    ("vorticity", VFloat 1.5);
    ("use_noise", VBool true);
    ("noise_strength", VFloat 1.6);
    ("noise_scale", VFloat 3.0);
    ("burning_rate", VFloat 1.6);
    ("flame_smoke", VFloat 0.35);
    ("flow_density", VFloat 1.2);
    ("flow_temperature", VFloat 1.35);
    ("flow_fuel", VFloat 1.3);
    ("flame_strength", VFloat 55.0);
    ("smoke_density", VFloat 3.0);
    ("velocity_factor", VFloat 1.0);
    ("flame_color_mid", VTuple [1.0; 0.38; 0.06; 1.0]) ]%string.

Definition BONFIRE : dict :=
  [ ("domain_size", VTuple [7.0; 7.0; 7.0]);
    ("emitter_scale", VTuple [0.9; 0.9; 0.35]);
    ("resolution_max", VInt 160);
    ("vorticity", VFloat 2.2);
    ("use_noise", VBool true);
    ("noise_strength", VFloat 2.0);
    ("noise_scale", VFloat 3.5);
    ("burning_rate", VFloat 2.1);
    ("flame_smoke", VFloat 0.55);
    ("flow_density", VFloat 1.4);
    ("flow_temperature", VFloat 1.5);
    ("flow_fuel", VFloat 1.5);
    ("flame_strength", VFloat 75.0);
    ("smoke_density", VFloat 4.2);
    ("velocity_factor", VFloat 1.2);
    ("flame_color_mid", VTuple [1.0; 0.30; 0.05; 1.0]);
    ("flame_color_high", VTuple [1.0; 0.9; 0.8; 1.0]) ]%string.

Definition EXPLOSION : dict :=
  [ ("domain_size", VTuple [10.0; 10.0; 10.0]);
    ("emitter_scale", VTuple [0.6; 0.6; 0.6]);
    ("resolution_max", VInt 176);
    ("time_scale", VFloat 0.85);
    ("vorticity", VFloat 3.0);
    ("use_noise", VBool true);
    ("noise_strength", VFloat 3.0);
    ("noise_scale", VFloat 4.0);
    ("burning_rate", VFloat 3.0);
    ("flame_smoke", VFloat 0.9);
    ("flow_density", VFloat 2.0);
    ("flow_temperature", VFloat 2.0);
    ("flow_fuel", VFloat 2.0);
    ("flame_strength", VFloat 120.0);
    ("smoke_density", VFloat 6.0);
    ("use_dissolve_smoke", VBool true);
    ("dissolve_speed", VInt 18);
    ("velocity_factor", VFloat 2.0);
    ("flame_color_low", VTuple [0.10; 0.02; 0.0; 1.0]);
    ("flame_color_mid", VTuple [1.0; 0.22; 0.03; 1.0]);
    ("flame_color_high", VTuple [1.0; 0.85; 0.65; 1.0]) ]%string.

Definition PRESET_OVERRIDES : list (string * dict) :=
  [ ("CANDLE", CANDLE); ("TORCH", TORCH); ("CAMPFIRE", CAMPFIRE);
    ("BONFIRE", BONFIRE); ("EXPLOSION", EXPLOSION) ]%string.

(** [PRESET_OVERRIDES.get(preset_id, {})] *)
Fixpoint overrides_in (preset_id : string) (t : list (string * dict)) : dict :=
  match t with
  | [] => []
  | (k, d) :: t' => if decide (preset_id = k) then d else overrides_in preset_id t'
  end.

Definition overrides_for (preset_id : string) : dict :=
  overrides_in preset_id PRESET_OVERRIDES.

(** One iteration of either loop of [_apply_preset_to_settings]:
    [if hasattr(settings, k): try: setattr(settings, k, v) except: pass]. *)
Definition write_field (s : Settings) (kv : string * value) : Settings :=
  if hasattr kv.1 then default s (setattr s kv.1 kv.2) else s.

Definition write_items (s : Settings) (d : dict) : Settings :=
  foldl write_field s d.

Definition _apply_preset_to_settings (s : Settings) (preset_id : string) : Settings :=
  let s := write_items s BASE_PRESET in
  let overrides := overrides_for preset_id in
  write_items s overrides.

(** Assigning the [preset] property: the value is stored, then the update
    callback [_preset_update] applies the preset now selected. *)
Definition _preset_update (s : Settings) : Settings :=
  match getattr s "preset" with
  | Some (VStr p) => _apply_preset_to_settings s p
  | _ => s
  end.

Definition assign_preset (s : Settings) (v : value) : option Settings :=
  _preset_update <$> setattr s "preset" v.

Local Close Scope Q_scope.
Local Close Scope Z_scope.

(** * The host's data and the add-on's operations on it *)

(** ** Computations that mutate a state and may raise

    A Python exception leaves in place whatever was mutated before it was
    raised, so the state is returned on both outcomes. *)

Inductive outcome (A : Type) :=
| Ret (a : A)
| Exn (e : string).
Arguments Ret {A} a.
Arguments Exn {A} e.

Definition ST (S A : Type) : Type := S → outcome A * S.

Definition ret {S A} (a : A) : ST S A := λ s, (Ret a, s).

Definition raise {S A} (e : string) : ST S A := λ s, (Exn e, s).

Definition bind {S A B} (m : ST S A) (f : A → ST S B) : ST S B :=
  λ s, match m s with
       | (Ret a, s') => f a s'
       | (Exn e, s') => (Exn e, s')
       end.

Notation "x <- m ;; k" := (bind m (λ x, k))
  (at level 100, m at next level, right associativity, only parsing).
Notation "m ;; k" := (bind m (λ _, k))
  (at level 100, right associativity, only parsing).

Definition get {S} : ST S S := λ s, (Ret s, s).

Definition gets {S A} (f : S → A) : ST S A := λ s, (Ret (f s), s).

Definition modify {S} (f : S → S) : ST S unit := λ s, (Ret tt, f s).

(** [try: m / except Exception as e: h(e)] *)
Definition catch {S A} (m : ST S A) (h : string → ST S A) : ST S A :=
  λ s, match m s with
       | (Ret a, s') => (Ret a, s')
       | (Exn e, s') => h e s'
       end.

(** [try: m / except Exception: pass] *)
Definition try_pass {S} (m : ST S unit) : ST S unit := catch m (λ _, ret tt).

(** Run a computation on a part of the state. *)
Definition zoom {S T A} (proj : S → T) (upd : T → S → S) (m : ST T A) : ST S A :=
  λ s, let '(r, t) := m (proj s) in (r, upd t s).

(** Run a computation on the [i]-th element of a list held by the state;
    [e] is raised when there is no such element. *)
Definition zoom_at {S T A} (proj : S → list T) (upd : list T → S → S)
    (i : nat) (e : string) (m : ST T A) : ST S A :=
  λ s, match proj s !! i with
       | Some t => let '(r, t') := m t in (r, upd (<[i := t']> (proj s)) s)
       | None => (Exn e, s)
       end.

(** Python's [int(v)], [float(v)] and [bool(v)] on the values a declared
    Int, Float or Bool property reads as.  (A string or a tuple never
    reaches them: the fields converted this way are not declared so; the
    model raises there.) *)
Definition py_int {S} (v : value) : ST S Z :=
  match v with
  | VInt z => ret z
  | VBool b => ret (bool_to_Z b)
  | VFloat q => ret (Z.quot (Qnum q) (Zpos (Qden q)))
  | _ => raise "TypeError"
  end.

Definition py_float {S} (v : value) : ST S Q :=
  match v with
  | VFloat q => ret q
  | VInt z => ret (inject_Z z)
  | VBool b => ret (inject_Z (bool_to_Z b))
  | _ => raise "TypeError"
  end.

Definition py_bool (v : value) : bool :=
  match v with
  | VInt z => negb (Z.eqb z 0)
  | VFloat q => negb (Qeq_bool q 0)
  | VBool b => b
  | VStr s => negb (String.eqb s "")
  | VTuple xs => negb (Nat.eqb (length xs) 0)
  end.

(** [v[i]] on a vector value. *)
Definition py_index {S} (v : value) (i : nat) : ST S Q :=
  match v with
  | VTuple xs => match xs !! i with
                 | Some x => ret x
                 | None => raise "IndexError"
                 end
  | _ => raise "TypeError"
  end.

(** [settings.k] *)
Definition settings_attr {S} (settings : Settings) (k : string) : ST S value :=
  match getattr settings k with
  | Some v => ret v
  | None => raise "AttributeError"
  end.

Definition COLLECTION_NAME : string := "FireVFX".
Definition DOMAIN_NAME : string := "FireVFX_Domain".
Definition EMITTER_NAME : string := "FireVFX_Emitter".
Definition MATERIAL_NAME : string := "FireVFX_Volume".

(** ** Host data *)

(** The attributes of an RNA struct of the running host version, by name. *)
Abbreviation attrs := (gmap string value).

(** A stop of a color ramp. *)
Record Stop := { position : Q; color : list Q }.

Record Socket := {
  sk_name : string;
  sk_attrs : attrs          (* holds [default_value] when the socket has one *)
}.

Record Node := {
  nd_idname : string;
  nd_attrs : attrs;         (* location, attribute_name, operation, ... *)
  nd_inputs : list Socket;
  nd_outputs : list Socket;
  nd_color_ramp : option (list Stop)
}.

(** A link joins an output socket to an input socket, each named by the
    index of its node and its index among that node's sockets. *)
Record Link := { link_from : nat * nat; link_to : nat * nat }.

Record NodeTree := { nodes : list Node; links : list Link }.

Record Material := {
  ma_name : string;
  ma_use_nodes : bool;
  ma_node_tree : option NodeTree
}.

Record Modifier := {
  md_name : string;
  md_type : string;
  md_attrs : attrs;                        (* fluid_type, ... *)
  md_domain_settings : option attrs;
  md_flow_settings : option attrs
}.

(** Mesh data: its material slots (materials by index in
    [bpy.data.materials]) and the extent of its geometry along each axis. *)
Record Mesh := { me_materials : list nat; me_size : list Q }.

Record Object := {
  ob_name : string;
  ob_scale : list Q;
  ob_attrs : attrs;                        (* display_type, ... *)
  ob_selected : bool;
  ob_data : option Mesh;
  ob_modifiers : list Modifier
}.

(** A collection of [bpy.data.collections]: its objects, by index in
    [bpy.data.objects]. *)
Record Collection := { co_name : string; co_objects : list nat }.

Record World := {
  w_objects : list Object;                 (* bpy.data.objects *)
  w_collections : list Collection;         (* bpy.data.collections *)
  w_scene_objects : list nat;              (* scene.collection.objects *)
  w_scene_children : list nat;             (* scene.collection.children *)
  w_materials : list Material;             (* bpy.data.materials *)
  w_settings : Settings;                   (* scene.fire_vfx_settings *)
  w_active : option nat;                   (* view_layer.objects.active *)
  w_baked : bool;                          (* the fluid cache holds a bake *)
  w_reports : list (string * string);      (* self.report(...) so far *)
  w_calls : list string                    (* bpy.ops invoked so far *)
}.

Definition set_nodes (l : list Node) (t : NodeTree) : NodeTree :=
  {| nodes := l; links := links t |}.
Definition set_links (l : list Link) (t : NodeTree) : NodeTree :=
  {| nodes := nodes t; links := l |}.

Definition set_nd_attrs (a : attrs) (n : Node) : Node :=
  {| nd_idname := nd_idname n; nd_attrs := a; nd_inputs := nd_inputs n;
     nd_outputs := nd_outputs n; nd_color_ramp := nd_color_ramp n |}.
Definition set_nd_inputs (l : list Socket) (n : Node) : Node :=
  {| nd_idname := nd_idname n; nd_attrs := nd_attrs n; nd_inputs := l;
     nd_outputs := nd_outputs n; nd_color_ramp := nd_color_ramp n |}.
Definition set_nd_color_ramp (r : option (list Stop)) (n : Node) : Node :=
  {| nd_idname := nd_idname n; nd_attrs := nd_attrs n; nd_inputs := nd_inputs n;
     nd_outputs := nd_outputs n; nd_color_ramp := r |}.

Definition set_sk_attrs (a : attrs) (s : Socket) : Socket :=
  {| sk_name := sk_name s; sk_attrs := a |}.

Definition set_ma_use_nodes (b : bool) (m : Material) : Material :=
  {| ma_name := ma_name m; ma_use_nodes := b; ma_node_tree := ma_node_tree m |}.
Definition set_ma_node_tree (t : option NodeTree) (m : Material) : Material :=
  {| ma_name := ma_name m; ma_use_nodes := ma_use_nodes m; ma_node_tree := t |}.

Definition set_md_attrs (a : attrs) (m : Modifier) : Modifier :=
  {| md_name := md_name m; md_type := md_type m; md_attrs := a;
     md_domain_settings := md_domain_settings m;
     md_flow_settings := md_flow_settings m |}.
Definition set_md_domain_settings (d : option attrs) (m : Modifier) : Modifier :=
  {| md_name := md_name m; md_type := md_type m; md_attrs := md_attrs m;
     md_domain_settings := d; md_flow_settings := md_flow_settings m |}.
Definition set_md_flow_settings (f : option attrs) (m : Modifier) : Modifier :=
  {| md_name := md_name m; md_type := md_type m; md_attrs := md_attrs m;
     md_domain_settings := md_domain_settings m; md_flow_settings := f |}.

Definition set_me_materials (l : list nat) (m : Mesh) : Mesh :=
  {| me_materials := l; me_size := me_size m |}.

Definition set_ob_name (n : string) (o : Object) : Object :=
  {| ob_name := n; ob_scale := ob_scale o; ob_attrs := ob_attrs o;
     ob_selected := ob_selected o; ob_data := ob_data o;
     ob_modifiers := ob_modifiers o |}.
Definition set_ob_scale (v : list Q) (o : Object) : Object :=
  {| ob_name := ob_name o; ob_scale := v; ob_attrs := ob_attrs o;
     ob_selected := ob_selected o; ob_data := ob_data o;
     ob_modifiers := ob_modifiers o |}.
Definition set_ob_attrs (a : attrs) (o : Object) : Object :=
  {| ob_name := ob_name o; ob_scale := ob_scale o; ob_attrs := a;
     ob_selected := ob_selected o; ob_data := ob_data o;
     ob_modifiers := ob_modifiers o |}.
Definition set_ob_selected (b : bool) (o : Object) : Object :=
  {| ob_name := ob_name o; ob_scale := ob_scale o; ob_attrs := ob_attrs o;
     ob_selected := b; ob_data := ob_data o; ob_modifiers := ob_modifiers o |}.
Definition set_ob_data (d : option Mesh) (o : Object) : Object :=
  {| ob_name := ob_name o; ob_scale := ob_scale o; ob_attrs := ob_attrs o;
     ob_selected := ob_selected o; ob_data := d;
     ob_modifiers := ob_modifiers o |}.
Definition set_ob_modifiers (l : list Modifier) (o : Object) : Object :=
  {| ob_name := ob_name o; ob_scale := ob_scale o; ob_attrs := ob_attrs o;
     ob_selected := ob_selected o; ob_data := ob_data o; ob_modifiers := l |}.

Definition set_co_objects (l : list nat) (c : Collection) : Collection :=
  {| co_name := co_name c; co_objects := l |}.

Definition set_w_objects (l : list Object) (w : World) : World :=
  {| w_objects := l; w_collections := w_collections w;
     w_scene_objects := w_scene_objects w;
     w_scene_children := w_scene_children w; w_materials := w_materials w;
     w_settings := w_settings w; w_active := w_active w;
     w_baked := w_baked w; w_reports := w_reports w; w_calls := w_calls w |}.
Definition set_w_collections (l : list Collection) (w : World) : World :=
  {| w_objects := w_objects w; w_collections := l;
     w_scene_objects := w_scene_objects w;
     w_scene_children := w_scene_children w; w_materials := w_materials w;
     w_settings := w_settings w; w_active := w_active w;
     w_baked := w_baked w; w_reports := w_reports w; w_calls := w_calls w |}.
Definition set_w_scene_objects (l : list nat) (w : World) : World :=
  {| w_objects := w_objects w; w_collections := w_collections w;
     w_scene_objects := l;
     w_scene_children := w_scene_children w; w_materials := w_materials w;
     w_settings := w_settings w; w_active := w_active w;
     w_baked := w_baked w; w_reports := w_reports w; w_calls := w_calls w |}.
Definition set_w_scene_children (l : list nat) (w : World) : World :=
  {| w_objects := w_objects w; w_collections := w_collections w;
     w_scene_objects := w_scene_objects w;
     w_scene_children := l; w_materials := w_materials w;
     w_settings := w_settings w; w_active := w_active w;
     w_baked := w_baked w; w_reports := w_reports w; w_calls := w_calls w |}.
Definition set_w_materials (l : list Material) (w : World) : World :=
  {| w_objects := w_objects w; w_collections := w_collections w;
     w_scene_objects := w_scene_objects w;
     w_scene_children := w_scene_children w; w_materials := l;
     w_settings := w_settings w; w_active := w_active w;
     w_baked := w_baked w; w_reports := w_reports w; w_calls := w_calls w |}.
Definition set_w_settings (s : Settings) (w : World) : World :=
  {| w_objects := w_objects w; w_collections := w_collections w;
     w_scene_objects := w_scene_objects w;
     w_scene_children := w_scene_children w; w_materials := w_materials w;
     w_settings := s; w_active := w_active w;
     w_baked := w_baked w; w_reports := w_reports w; w_calls := w_calls w |}.
Definition set_w_active (a : option nat) (w : World) : World :=
  {| w_objects := w_objects w; w_collections := w_collections w;
     w_scene_objects := w_scene_objects w;
     w_scene_children := w_scene_children w; w_materials := w_materials w;
     w_settings := w_settings w; w_active := a;
     w_baked := w_baked w; w_reports := w_reports w; w_calls := w_calls w |}.
Definition set_w_baked (b : bool) (w : World) : World :=
  {| w_objects := w_objects w; w_collections := w_collections w;
     w_scene_objects := w_scene_objects w;
     w_scene_children := w_scene_children w; w_materials := w_materials w;
     w_settings := w_settings w; w_active := w_active w;
     w_baked := b; w_reports := w_reports w; w_calls := w_calls w |}.
Definition set_w_reports (l : list (string * string)) (w : World) : World :=
  {| w_objects := w_objects w; w_collections := w_collections w;
     w_scene_objects := w_scene_objects w;
     w_scene_children := w_scene_children w; w_materials := w_materials w;
     w_settings := w_settings w; w_active := w_active w;
     w_baked := w_baked w; w_reports := l; w_calls := w_calls w |}.
Definition set_w_calls (l : list string) (w : World) : World :=
  {| w_objects := w_objects w; w_collections := w_collections w;
     w_scene_objects := w_scene_objects w;
     w_scene_children := w_scene_children w; w_materials := w_materials w;
     w_settings := w_settings w; w_active := w_active w;
     w_baked := w_baked w; w_reports := w_reports w; w_calls := l |}.

(** ** A reference host

    One concrete host version, used to run the model on examples: it stores
    every assigned value as given, knows the sockets of the five node types
    the shader uses, and none of its calls fails. *)

Definition ref_rna_store (struct : string) (a : attrs) (attr : string) (v : value) : option value :=
  Some v.

Definition ref_ramp_color_at (stops : list Stop) (p : Q) : list Q :=
  [0; 0; 0; 1]%Q.

Definition ref_socket (name : string) (dflt : option value) : Socket :=
  {| sk_name := name;
     sk_attrs := match dflt with
                 | Some v => {["default_value" := v]}
                 | None => ∅
                 end |}.

Definition ref_node (idname : string) (props : list (string * value))
    (inputs outputs : list Socket) (ramp : option (list Stop)) : Node :=
  {| nd_idname := idname;
     nd_attrs := list_to_map (("location", VTuple [0; 0]%Q) :: props);
     nd_inputs := inputs;
     nd_outputs := outputs;
     nd_color_ramp := ramp |}.

Definition ref_new_node (idname : string) : Node :=
  if decide (idname = "ShaderNodeOutputMaterial") then
    ref_node idname []
      [ref_socket "Surface" None; ref_socket "Volume" None;
       ref_socket "Displacement" (Some (VTuple [0; 0; 0]%Q))] [] None
  else if decide (idname = "ShaderNodeVolumePrincipled") then
    ref_node idname []
      [ref_socket "Color" (Some (VTuple [0.5; 0.5; 0.5; 1.0]%Q));
       ref_socket "Density" (Some (VFloat 1.0));
       ref_socket "Anisotropy" (Some (VFloat 0.0));
       ref_socket "Emission Strength" (Some (VFloat 0.0));
       ref_socket "Emission Color" (Some (VTuple [1.0; 1.0; 1.0; 1.0]%Q))]
      [ref_socket "Volume" None] None
  else if decide (idname = "ShaderNodeAttribute") then
    ref_node idname [("attribute_name", VStr "")] []
      [ref_socket "Color" None; ref_socket "Vector" None;
       ref_socket "Fac" None; ref_socket "Alpha" None] None
  else if decide (idname = "ShaderNodeValToRGB") then
    ref_node idname []
      [ref_socket "Fac" (Some (VFloat 0.5))]
      [ref_socket "Color" None; ref_socket "Alpha" None]
      (Some [ {| position := 0.0; color := [0; 0; 0; 1]%Q |};
              {| position := 1.0; color := [1; 1; 1; 1]%Q |} ])
  else if decide (idname = "ShaderNodeMath") then
    ref_node idname [("operation", VStr "ADD")]
      [ref_socket "Value" (Some (VFloat 0.5));
       ref_socket "Value" (Some (VFloat 0.5));
       ref_socket "Value" (Some (VFloat 0.5))]
      [ref_socket "Value" None] None
  else ref_node idname [] [] [] None.

Definition ref_default_tree : NodeTree := {| nodes := []; links := [] |}.

Definition ref_modifier_attrs : attrs := {["fluid_type" := VStr "NONE"]}.

Definition ref_domain_settings : attrs :=
  list_to_map
    [ ("domain_type", VStr "GAS"); ("cache_directory", VStr "");
      ("cache_type", VStr "REPLAY"); ("resolution_max", VInt 32);
      ("time_scale", VFloat 1.0); ("vorticity", VFloat 0.0);
      ("use_adaptive_domain", VBool false); ("additional_res", VInt 0);
      ("adapt_margin", VInt 4); ("use_noise", VBool false);
      ("noise_strength", VFloat 1.0); ("noise_scale", VInt 2);
      ("use_dissolve_smoke", VBool false); ("dissolve_speed", VInt 5);
      ("burning_rate", VFloat 0.75); ("flame_smoke", VFloat 1.0) ].

Definition ref_flow_settings : attrs :=
  list_to_map
    [ ("flow_type", VStr "SMOKE"); ("flow_behavior", VStr "INFLOW");
      ("density", VFloat 1.0); ("temperature", VFloat 1.0);
      ("fuel_amount", VFloat 1.0); ("use_initial_velocity", VBool false);
      ("velocity_factor", VFloat 1.0) ].

Definition ref_object_attrs : attrs := {["display_type" := VStr "TEXTURED"]}.

Definition ref_unique_name (n : string) (taken : list string) : string :=
  if decide (n ∈ taken) then n +:+ ".001" else n.

Definition ref_raises (call : string) (w : World) : option string := None.

(** A new, empty document. *)
Definition empty_document : World :=
  {| w_objects := []; w_collections := []; w_scene_objects := [];
     w_scene_children := []; w_materials := []; w_settings := ∅;
     w_active := None; w_baked := false; w_reports := []; w_calls := [] |}.

(** A mesh object as the host's primitive operators make it. *)
Definition ref_mesh_object (name : string) (mods : list Modifier) : Object :=
  {| ob_name := name; ob_scale := [1; 1; 1]%Q; ob_attrs := ref_object_attrs;
     ob_selected := false;
     ob_data := Some {| me_materials := []; me_size := [2.0; 2.0; 2.0]%Q |};
     ob_modifiers := mods |}.

(** A document that holds the two rig objects under the names stored in the
    settings, displayed the way the host displays new objects. *)
Definition rigged_document : World :=
  {| w_objects := [ref_mesh_object "FireVFX_Domain" [];
                   ref_mesh_object "FireVFX_Emitter" []];
     w_collections := [{| co_name := "FireVFX"; co_objects := [0; 1] |}];
     w_scene_objects := [];
     w_scene_children := [0];
     w_materials := [];
     w_settings := {["domain_object_name" := VStr "FireVFX_Domain";
                     "emitter_object_name" := VStr "FireVFX_Emitter"]};
     w_active := None; w_baked := false; w_reports := []; w_calls := [] |}.

(** A document in which somebody already made a collection called FireVFX
    and put an object of their own into it. *)
Definition cluttered_document : World :=
  {| w_objects := [ref_mesh_object "Suzanne" []];
     w_collections := [{| co_name := "FireVFX"; co_objects := [0] |}];
     w_scene_objects := [];
     w_scene_children := [0];
     w_materials := [];
     w_settings := ∅;
     w_active := None; w_baked := false; w_reports := []; w_calls := [] |}.

Definition ref_fluid_modifier (name : string) : Modifier :=
  {| md_name := name; md_type := "FLUID"; md_attrs := ref_modifier_attrs;
     md_domain_settings := None; md_flow_settings := None |}.

(** An object that carries a modifier of another type and a fluid
    modifier. *)
Definition one_fluid_object : Object :=
  ref_mesh_object "Cube"
    [{| md_name := "Subdivision"; md_type := "SUBSURF"; md_attrs := ∅;
        md_domain_settings := None; md_flow_settings := None |};
     ref_fluid_modifier "Fluid"].

(** A material with nodes enabled and an empty tree. *)
Definition ref_material : Material :=
  {| ma_name := "FireVFX_Volume"; ma_use_nodes := true;
     ma_node_tree := Some ref_default_tree |}.

(** Settings with the advanced view and every feature switched on. *)
Definition everything_on : Settings :=
  <["ui_show_advanced" := VBool true]>
    (<["use_noise" := VBool true]>
       (<["use_dissolve_smoke" := VBool true]> ∅)).

Section Host.

(** ** What the model takes from the host

    The add-on runs against whatever host version loads it.  What that
    version stores when an attribute of one of its structs is assigned, what
    a new node, modifier or object looks like, and which host calls fail in
    which state are parameters of the model. *)

(** [rna_store struct a attr v]: what the host stores when [v] is assigned
    to attribute [attr] of a struct of kind [struct] whose attributes are
    [a]; [None] when the assignment raises. *)
Variable rna_store : string → attrs → string → value → option value.

(** The color the host gives a stop added to a ramp at a position. *)
Variable ramp_color_at : list Stop → Q → list Q.

(** The node that [nodes.new(idname)] creates. *)
Variable host_new_node : string → Node.

(** The node tree a material gets when nodes are first enabled on it. *)
Variable host_default_tree : NodeTree.

(** The attributes of a new fluid modifier, of the domain settings and of
    the flow settings the host allocates for it, and of a new object. *)
Variable host_modifier_attrs : attrs.
Variable host_domain_settings : attrs.
Variable host_flow_settings : attrs.
Variable host_object_attrs : attrs.

(** The name the host gives a new datablock asked to be called [n] when
    the names in the list are taken. *)
Variable host_unique_name : string → list string → string.

(** [host_raises call w]: the message of the exception that the host call
    [call] raises in state [w], if it raises there. *)
Variable host_raises : string → World → option string.

(** ** Attribute writes *)

(** [_set_if_has(obj, attr, value)] on the attributes of a struct (the
    caller handles [obj is None]). *)
Definition _set_if_has (struct attr : string) (v : value) (a : attrs) : attrs :=
  match a !! attr with
  | Some _ =>
      match rna_store struct a attr v with
      | Some v' => <[attr := v']> a
      | None => a
      end
  | None => a
  end.

(** A plain assignment [obj.attr = value]. *)
Definition rna_assign (struct attr : string) (v : value) : ST attrs unit :=
  λ a, match a !! attr with
       | Some _ =>
           match rna_store struct a attr v with
           | Some v' => (Ret tt, <[attr := v']> a)
           | None => (Exn "TypeError", a)
           end
       | None => (Exn "AttributeError", a)
       end.

(** ** Color ramp *)

Definition MAXCOLORBAND : nat := 32.

Definition clamp01 (x : Q) : Q := clampQ 0 (Some 1%Q) x.

(** The host keeps the stops of a ramp ordered by position when it adds
    one. *)
Fixpoint insert_stop (st : Stop) (l : list Stop) : list Stop :=
  match l with
  | [] => [st]
  | x :: l' =>
      if Qltb (position st) (position x) then st :: l
      else x :: insert_stop st l'
  end.

(** [elements.new(position)] *)
Definition elements_new (p : Q) : ST (list Stop) unit :=
  λ l, if decide (MAXCOLORBAND ≤ length l) then (Exn "RuntimeError", l)
       else (Ret tt,
             insert_stop {| position := clamp01 p; color := ramp_color_at l p |} l).

(** [elements.remove(elements[-1])]: the host refuses to remove the last
    remaining stop. *)
Definition elements_remove_last : ST (list Stop) unit :=
  λ l, if decide (length l < 2) then (Exn "RuntimeError", l)
       else (Ret tt, removelast l).

(** [elements[i].position = float(pos); elements[i].color = col]: the
    position is written first and stays when the color is refused; the
    host clamps a position to the unit interval, takes a color of four
    components, and does not reorder the stops on assignment. *)
Definition set_element (i : nat) (pos : Q) (col : value) : ST (list Stop) unit :=
  λ l, match l !! i with
       | None => (Exn "IndexError", l)
       | Some st =>
           let l1 := <[i := {| position := clamp01 pos; color := color st |}]> l in
           match col with
           | VTuple c =>
               if decide (length c = 4) then
                 (Ret tt, <[i := {| position := clamp01 pos; color := c |}]> l)
               else (Exn "ValueError", l1)
           | _ => (Exn "TypeError", l1)
           end
       end.

(** [while len(cr.elements) < len(desired): cr.elements.new(...)].  Each
    round adds a stop, so [length desired] rounds are enough. *)
Fixpoint grow_elements (desired : list (Q * value)) (rounds : nat) : ST (list Stop) unit :=
  match rounds with
  | O => ret tt
  | S rounds' =>
      cr <- get;;
      if decide (length cr < length desired) then
        match desired !! length cr with
        | Some (pos, _) => elements_new pos;; grow_elements desired rounds'
        | None => raise "IndexError"
        end
      else ret tt
  end.

(** [while len(cr.elements) > len(desired): try: remove last / except:
    break].  Each round removes a stop or leaves the loop. *)
Fixpoint shrink_elements (desired : list (Q * value)) (rounds : nat) : ST (list Stop) unit :=
  match rounds with
  | O => ret tt
  | S rounds' =>
      cr <- get;;
      if decide (length desired < length cr) then
        removed <- catch (elements_remove_last;; ret true) (λ _, ret false);;
        if removed : bool then shrink_elements desired rounds' else ret tt
      else ret tt
  end.

(** [for i, (pos, col) in enumerate(desired): try: ... except: pass] *)
Fixpoint apply_elements (desired : list (Q * value)) (i : nat) : ST (list Stop) unit :=
  match desired with
  | [] => ret tt
  | (pos, col) :: rest =>
      try_pass (set_element i pos col);; apply_elements rest (S i)
  end.

(** [_set_color_ramp_elements(color_ramp, elements)] on the stops of a ramp
    (the caller handles [color_ramp is None]). *)
Definition _set_color_ramp_elements (elements : list (Q * value)) : ST (list Stop) unit :=
  let desired := elements in
  match desired with
  | [] => ret tt
  | _ :: _ =>
      cr <- get;;
      (if decide (length cr = 0) then elements_new 0.0%Q else ret tt);;
      grow_elements desired (length desired);;
      cr <- get;;
      shrink_elements desired (length cr);;
      apply_elements desired 0
  end.

(** ** Node tree *)

Definition socket_get (name : string) (l : list Socket) : option nat :=
  fst <$> list_find (λ s, sk_name s = name) l.

(** [nodes.clear()]: removing a node removes its links. *)
Definition nodes_clear : ST NodeTree unit :=
  modify (λ _, {| nodes := []; links := [] |}).

(** [nodes.new(idname)]; a node is referred to by its index. *)
Definition nodes_new (idname : string) : ST NodeTree nat :=
  λ t, (Ret (length (nodes t)), set_nodes (nodes t ++ [host_new_node idname]) t).

Definition at_node {A} (n : nat) (m : ST Node A) : ST NodeTree A :=
  zoom_at nodes set_nodes n "ReferenceError" m.

(** [node.attr = v] *)
Definition node_assign (n : nat) (attr : string) (v : value) : ST NodeTree unit :=
  at_node n (zoom nd_attrs set_nd_attrs (rna_assign "Node" attr v)).

(** [node.outputs.get(name)], [node.inputs.get(name)] *)
Definition outputs_get (n : nat) (name : string) : ST NodeTree (option (nat * nat)) :=
  at_node n (nd <- get;; ret ((λ i, (n, i)) <$> socket_get name (nd_outputs nd))).
Definition inputs_get (n : nat) (name : string) : ST NodeTree (option (nat * nat)) :=
  at_node n (nd <- get;; ret ((λ i, (n, i)) <$> socket_get name (nd_inputs nd))).

(** [node.outputs[i]], [node.inputs[i]] *)
Definition outputs_at (n i : nat) : ST NodeTree (option (nat * nat)) :=
  at_node n (nd <- get;;
             match nd_outputs nd !! i with
             | Some _ => ret (Some (n, i))
             | None => raise "IndexError"
             end).
Definition inputs_at (n i : nat) : ST NodeTree (option (nat * nat)) :=
  at_node n (nd <- get;;
             match nd_inputs nd !! i with
             | Some _ => ret (Some (n, i))
             | None => raise "IndexError"
             end).

(** [links.new(src, dst)]: an input socket holds one link, so a link
    already ending at [dst] is replaced. *)
Definition links_new (src dst : option (nat * nat)) : ST NodeTree unit :=
  match src, dst with
  | Some a, Some b =>
      modify (λ t, set_links
                     (filter (λ l, link_to l ≠ b) (links t)
                        ++ [{| link_from := a; link_to := b |}]) t)
  | _, _ => raise "TypeError"
  end.

Definition at_input {A} (sock : nat * nat) (m : ST attrs A) : ST NodeTree A :=
  at_node sock.1
    (zoom_at nd_inputs set_nd_inputs sock.2 "IndexError"
       (zoom sk_attrs set_sk_attrs m)).

(** [node.inputs[i].default_value = v] *)
Definition input_assign (n i : nat) (attr : string) (v : value) : ST NodeTree unit :=
  at_input (n, i) (rna_assign "NodeSocket" attr v).

(** [_set_if_has(sock, attr, v)] for an input socket that may be [None]. *)
Definition input_set_if_has (sock : option (nat * nat)) (attr : string) (v : value) : ST NodeTree unit :=
  match sock with
  | None => ret tt
  | Some s => at_input s (modify (_set_if_has "NodeSocket" attr v))
  end.

(** [_set_color_ramp_elements(node.color_ramp, elements)] *)
Definition node_set_color_ramp (n : nat) (elements : list (Q * value)) : ST NodeTree unit :=
  at_node n
    (λ nd, match nd_color_ramp nd with
           | None => (Ret tt, nd)
           | Some cr =>
               let '(r, cr') := _set_color_ramp_elements elements cr in
               (r, set_nd_color_ramp (Some cr') nd)
           end).

(** [nt = mat.node_tree], then work on it. *)
Definition with_node_tree {A} (m : ST NodeTree A) : ST Material A :=
  λ mat, match ma_node_tree mat with
         | Some t => let '(r, t') := m t in (r, set_ma_node_tree (Some t') mat)
         | None => (Exn "AttributeError", mat)
         end.

Definition _build_volume_shader (flame_strength smoke_density : value)
    (flame_ramp : list (Q * value)) : ST Material unit :=
  with_node_tree (
    nodes_clear;;

    out <- nodes_new "ShaderNodeOutputMaterial";;
    node_assign out "location" (VTuple [520; 0]%Q);;

    pv <- nodes_new "ShaderNodeVolumePrincipled";;
    node_assign pv "location" (VTuple [260; 0]%Q);;

    attr_density <- nodes_new "ShaderNodeAttribute";;
    node_assign attr_density "attribute_name" (VStr "density");;
    node_assign attr_density "location" (VTuple [-520; -120]%Q);;

    attr_flame <- nodes_new "ShaderNodeAttribute";;
    node_assign attr_flame "attribute_name" (VStr "flame");;
    node_assign attr_flame "location" (VTuple [-520; 140]%Q);;

    ramp <- nodes_new "ShaderNodeValToRGB";;
    node_assign ramp "location" (VTuple [-240; 140]%Q);;
    node_set_color_ramp ramp flame_ramp;;

    mult <- nodes_new "ShaderNodeMath";;
    node_assign mult "operation" (VStr "MULTIPLY");;
    fs <- py_float flame_strength;;
    input_assign mult 1 "default_value" (VFloat fs);;
    node_assign mult "location" (VTuple [-20; 140]%Q);;

    mult_d <- nodes_new "ShaderNodeMath";;
    node_assign mult_d "operation" (VStr "MULTIPLY");;
    sd <- py_float smoke_density;;
    input_assign mult_d 1 "default_value" (VFloat sd);;
    node_assign mult_d "location" (VTuple [-20; -120]%Q);;

    a <- outputs_at pv 0;; b <- inputs_at out 1;; links_new a b;;
    a <- outputs_get attr_flame "Fac";; b <- inputs_at ramp 0;; links_new a b;;
    a <- outputs_get ramp "Color";; b <- inputs_get pv "Emission Color";;
    links_new a b;;
    a <- outputs_get attr_flame "Fac";; b <- inputs_at mult 0;; links_new a b;;
    a <- outputs_get mult "Value";; b <- inputs_get pv "Emission Strength";;
    links_new a b;;
    a <- outputs_get attr_density "Fac";; b <- inputs_at mult_d 0;; links_new a b;;
    a <- outputs_get mult_d "Value";; b <- inputs_get pv "Density";;
    links_new a b;;

    s <- inputs_get pv "Anisotropy";;
    input_set_if_has s "default_value" (VFloat 0.2);;
    s <- inputs_get pv "Color";;
    input_set_if_has s "default_value" (VTuple [0.2; 0.2; 0.2; 1.0]%Q)
  ).

(** ** Materials *)

Definition find_by_name {A} (name_of : A → string) (n : string) (l : list A) : option nat :=
  fst <$> list_find (λ x, name_of x = n) l.

(** [mat.use_nodes = True]: the host gives the material a node tree when it
    has none yet. *)
Definition enable_nodes (m : Material) : Material :=
  set_ma_use_nodes true
    (set_ma_node_tree (Some (default host_default_tree (ma_node_tree m))) m).

Definition at_material {A} (i : nat) (m : ST Material A) : ST World A :=
  zoom_at w_materials set_w_materials i "ReferenceError" m.

Definition at_object {A} (i : nat) (m : ST Object A) : ST World A :=
  zoom_at w_objects set_w_objects i "ReferenceError" m.

(** [_get_or_create_material(name)]; a material is referred to by its index
    in [bpy.data.materials]. *)
Definition _get_or_create_material (name : string) : ST World nat :=
  w <- get;;
  mat <- match find_by_name ma_name name (w_materials w) with
         | Some i => ret i
         | None =>
             modify (set_w_materials
                       (w_materials w ++
                          [{| ma_name := name; ma_use_nodes := false;
                              ma_node_tree := None |}]));;
             ret (length (w_materials w))
         end;;
  at_material mat (modify enable_nodes);;
  ret mat.

(** [if obj.data is not None:] [materials.append(mat)] on an empty slot
    list, [materials[0] = mat] otherwise. *)
Definition assign_first_slot (mat : nat) (slots : list nat) : list nat :=
  match slots with
  | [] => [mat]
  | _ :: rest => mat :: rest
  end.

Definition set_first_material (mat : nat) (obj : Object) : Object :=
  match ob_data obj with
  | Some me =>
      set_ob_data
        (Some (set_me_materials (assign_first_slot mat (me_materials me)) me)) obj
  | None => obj
  end.

(** [_ensure_domain_material(domain_obj, settings)] for a domain object
    that is not [None]. *)
Definition _ensure_domain_material (domain_obj : nat) (settings : Settings) : ST World unit :=
  mat <- _get_or_create_material MATERIAL_NAME;;
  low <- settings_attr settings "flame_color_low";;
  mid <- settings_attr settings "flame_color_mid";;
  high <- settings_attr settings "flame_color_high";;
  let flame_ramp := [(0.0%Q, low); (0.25%Q, mid); (1.0%Q, high)] in
  flame_strength <- settings_attr settings "flame_strength";;
  smoke_density <- settings_attr settings "smoke_density";;
  at_material mat (_build_volume_shader flame_strength smoke_density flame_ramp);;
  at_object domain_obj (modify (set_first_material mat)).

(** ** Fluid modifiers *)

Definition is_fluid (m : Modifier) : bool := bool_decide (md_type m = "FLUID").

(** [obj.modifiers.new(name="Fluid", type="FLUID")] on an object that takes
    modifiers (the rig's objects are meshes). *)
Definition new_fluid_modifier (mods : list Modifier) : Modifier :=
  {| md_name := host_unique_name "Fluid" (md_name <$> mods);
     md_type := "FLUID";
     md_attrs := host_modifier_attrs;
     md_domain_settings := None;
     md_flow_settings := None |}.

(** [_ensure_fluid_modifier(obj)] for an object that is not [None]; the
    modifier is referred to by its index in [obj.modifiers]. *)
Definition _ensure_fluid_modifier : ST Object (option nat) :=
  obj <- get;;
  match list_find (λ m, md_type m = "FLUID") (ob_modifiers obj) with
  | Some (i, _) => ret (Some i)
  | None =>
      modify (set_ob_modifiers
                (ob_modifiers obj ++ [new_fluid_modifier (ob_modifiers obj)]));;
      ret (Some (length (ob_modifiers obj)))
  end.

(** The host keeps the settings struct that goes with the modifier's
    [fluid_type]: a domain has [domain_settings], a flow [flow_settings]. *)
Definition fluid_type_is (ty : string) (m : Modifier) : bool :=
  match md_attrs m !! "fluid_type" with
  | Some (VStr s) => bool_decide (s = ty)
  | _ => false
  end.

Definition host_fluid_type_update (m : Modifier) : Modifier :=
  let dom := if fluid_type_is "DOMAIN" m
             then Some (default host_domain_settings (md_domain_settings m))
             else None in
  let flow := if fluid_type_is "FLOW" m
              then Some (default host_flow_settings (md_flow_settings m))
              else None in
  set_md_flow_settings flow (set_md_domain_settings dom m).

Definition at_modifier {A} (i : nat) (m : ST Modifier A) : ST Object A :=
  zoom_at ob_modifiers set_ob_modifiers i "ReferenceError" m.

(** [_set_if_has(mod, "fluid_type", ty)] *)
Definition set_fluid_type (i : nat) (ty : string) : ST Object unit :=
  at_modifier i
    (modify (λ m, host_fluid_type_update
                    (set_md_attrs
                       (_set_if_has "FluidModifier" "fluid_type" (VStr ty)
                          (md_attrs m)) m))).

(** [_set_if_has(ds, attr, v)] with [ds = mod.domain_settings] *)
Definition set_ds (i : nat) (attr : string) (v : value) : ST Object unit :=
  at_modifier i
    (modify (λ m, set_md_domain_settings
                    (_set_if_has "FluidDomainSettings" attr v
                       <$> md_domain_settings m) m)).

(** [_set_if_has(fs, attr, v)] with [fs = mod.flow_settings] *)
Definition set_fs (i : nat) (attr : string) (v : value) : ST Object unit :=
  at_modifier i
    (modify (λ m, set_md_flow_settings
                    (_set_if_has "FluidFlowSettings" attr v
                       <$> md_flow_settings m) m)).

Definition _apply_domain_settings (settings : Settings) : ST Object unit :=
  fmod <- _ensure_fluid_modifier;;  (* mod = _ensure_fluid_modifier(obj) *)
  match fmod with
  | None => ret tt
  | Some fmod =>
      set_fluid_type fmod "DOMAIN";;
      obj <- get;;
      match ob_modifiers obj !! fmod ≫= md_domain_settings with
      | None => ret tt
      | Some _ =>
          set_ds fmod "domain_type" (VStr "GAS");;

          v <- settings_attr settings "cache_directory";;
          set_ds fmod "cache_directory" v;;
          set_ds fmod "cache_type" (VStr "MODULAR");;

          v <- settings_attr settings "resolution_max";; z <- py_int v;;
          set_ds fmod "resolution_max" (VInt z);;
          v <- settings_attr settings "time_scale";; q <- py_float v;;
          set_ds fmod "time_scale" (VFloat q);;
          v <- settings_attr settings "vorticity";; q <- py_float v;;
          set_ds fmod "vorticity" (VFloat q);;

          v <- settings_attr settings "use_adaptive_domain";;
          set_ds fmod "use_adaptive_domain" (VBool (py_bool v));;
          v <- settings_attr settings "adaptive_additional_res";; z <- py_int v;;
          set_ds fmod "additional_res" (VInt z);;
          v <- settings_attr settings "adaptive_margin";; z <- py_int v;;
          set_ds fmod "adapt_margin" (VInt z);;

          v <- settings_attr settings "use_noise";;
          set_ds fmod "use_noise" (VBool (py_bool v));;
          v <- settings_attr settings "noise_strength";; q <- py_float v;;
          set_ds fmod "noise_strength" (VFloat q);;
          v <- settings_attr settings "noise_scale";; q <- py_float v;;
          set_ds fmod "noise_scale" (VFloat q);;

          v <- settings_attr settings "use_dissolve_smoke";;
          set_ds fmod "use_dissolve_smoke" (VBool (py_bool v));;
          v <- settings_attr settings "dissolve_speed";; z <- py_int v;;
          set_ds fmod "dissolve_speed" (VInt z);;

          set_ds fmod "use_reaction" (VBool true);;
          v <- settings_attr settings "burning_rate";; q <- py_float v;;
          set_ds fmod "burning_rate" (VFloat q);;
          v <- settings_attr settings "flame_smoke";; q <- py_float v;;
          set_ds fmod "flame_smoke" (VFloat q)
      end
  end.

(** [if hasattr(fs, "flow_type"): try FIRE, except: try SMOKE, except:
    pass] *)
Definition set_flow_type : ST attrs unit :=
  fs <- get;;
  match fs !! "flow_type" with
  | Some _ =>
      catch (rna_assign "FluidFlowSettings" "flow_type" (VStr "FIRE"))
        (λ _, try_pass (rna_assign "FluidFlowSettings" "flow_type" (VStr "SMOKE")))
  | None => ret tt
  end.

Definition _apply_flow_settings (settings : Settings) : ST Object unit :=
  fmod <- _ensure_fluid_modifier;;  (* mod = _ensure_fluid_modifier(obj) *)
  match fmod with
  | None => ret tt
  | Some fmod =>
      set_fluid_type fmod "FLOW";;
      obj <- get;;
      match ob_modifiers obj !! fmod ≫= md_flow_settings with
      | None => ret tt
      | Some _ =>
          at_modifier fmod
            (λ m, match md_flow_settings m with
                  | Some fs =>
                      let '(r, fs') := set_flow_type fs in
                      (r, set_md_flow_settings (Some fs') m)
                  | None => (Ret tt, m)
                  end);;

          set_fs fmod "flow_behavior" (VStr "INFLOW");;

          v <- settings_attr settings "flow_density";; q <- py_float v;;
          set_fs fmod "density" (VFloat q);;
          v <- settings_attr settings "flow_temperature";; q <- py_float v;;
          set_fs fmod "temperature" (VFloat q);;
          v <- settings_attr settings "flow_fuel";; q <- py_float v;;
          set_fs fmod "fuel_amount" (VFloat q);;

          v <- settings_attr settings "use_initial_velocity";;
          set_fs fmod "use_initial_velocity" (VBool (py_bool v));;
          v <- settings_attr settings "velocity_factor";; q <- py_float v;;
          set_fs fmod "velocity_factor" (VFloat q)
      end
  end.

(** ** Objects and collections *)

(** [bpy.data.objects.get(name)] *)
Definition find_object (name : string) (w : World) : option nat :=
  find_by_name ob_name name (w_objects w).

(** [_find_rig(context)] *)
Definition lookup_stored (v : value) (w : World) : ST World (option nat) :=
  match v with
  | VStr name => ret (if bool_decide (name = "") then None else find_object name w)
  | _ => raise "TypeError"
  end.

Definition _find_rig : ST World (option nat * option nat) :=
  w <- get;;
  let settings := w_settings w in
  n <- settings_attr settings "domain_object_name";;
  dom <- lookup_stored n w;;
  n <- settings_attr settings "emitter_object_name";;
  emi <- lookup_stored n w;;
  ret (dom, emi).

(** [_ensure_collection(name)]; a collection is referred to by its index in
    [bpy.data.collections]. *)
Definition _ensure_collection (name : string) : ST World nat :=
  w <- get;;
  match find_by_name co_name name (w_collections w) with
  | Some col => ret col
  | None =>
      let col := length (w_collections w) in
      modify (set_w_collections
                (w_collections w ++ [{| co_name := name; co_objects := [] |}]));;
      modify (λ w, set_w_scene_children (w_scene_children w ++ [col]) w);;
      ret col
  end.

Definition remove_object (obj : nat) (l : list nat) : list nat :=
  filter (λ i, i ≠ obj) l.

(** [for c in list(obj.users_collection): try: c.objects.unlink(obj)]:
    every collection that holds the object, the scene's own included,
    lets go of it. *)
Definition unlink_from_users (obj : nat) (w : World) : World :=
  set_w_scene_objects (remove_object obj (w_scene_objects w))
    (set_w_collections
       ((λ c, set_co_objects (remove_object obj (co_objects c)) c)
          <$> w_collections w) w).

(** [col.objects.link(obj)]: the host refuses an object that the
    collection already holds. *)
Definition collection_link (obj col : nat) : ST World unit :=
  zoom_at w_collections set_w_collections col "ReferenceError"
    (λ c, if decide (obj ∈ co_objects c) then (Exn "RuntimeError", c)
          else (Ret tt, set_co_objects (co_objects c ++ [obj]) c)).

(** [_link_to_collection(obj, col)] for an object and a collection that are
    not [None]. *)
Definition _link_to_collection (obj col : nat) : ST World unit :=
  modify (unlink_from_users obj);;
  try_pass (collection_link obj col).

(** A host call that may fail: it is logged, then it raises or takes
    effect. *)
Definition logged (call : string) (w : World) : World :=
  set_w_calls (w_calls w ++ [call]) w.

Definition host_call (call : string) (effect : World → World) : ST World unit :=
  λ w, match host_raises call w with
       | Some e => (Exn e, logged call w)
       | None => (Ret tt, effect (logged call w))
       end.

(** [bpy.ops.mesh.primitive_*_add(...)] in object mode: a new mesh object,
    linked to the scene's collection, selected and active, everything else
    deselected. *)
Definition primitive_add (call base : string) (size : list Q) : ST World unit :=
  modify (λ w,
    let new := {| ob_name := host_unique_name base (ob_name <$> w_objects w);
                  ob_scale := [1; 1; 1]%Q;
                  ob_attrs := host_object_attrs;
                  ob_selected := true;
                  ob_data := Some {| me_materials := []; me_size := size |};
                  ob_modifiers := [] |} in
    let i := length (w_objects w) in
    set_w_calls (w_calls w ++ [call])
      (set_w_active (Some i)
         (set_w_scene_objects (w_scene_objects w ++ [i])
            (set_w_objects ((set_ob_selected false <$> w_objects w) ++ [new]) w)))).

(** [context.active_object] *)
Definition active_object : ST World nat :=
  w <- get;;
  match w_active w with
  | Some i => ret i
  | None => raise "AttributeError"
  end.

(** [obj.name = name]: the host keeps object names unique. *)
Definition rename_object (obj : nat) (name : string) : ST World unit :=
  w <- get;;
  let others := ob_name <$> delete obj (w_objects w) in
  let name' := if decide (name ∈ others) then host_unique_name name others
               else name in
  at_object obj (modify (set_ob_name name')).

(** [obj.scale = v] *)
Definition assign_scale (obj : nat) (v : value) : ST World unit :=
  match v with
  | VTuple xs =>
      if decide (length xs = 3) then at_object obj (modify (set_ob_scale xs))
      else raise "ValueError"
  | _ => raise "TypeError"
  end.

(** [bpy.context.view_layer.objects.active = obj] *)
Definition set_active (obj : nat) : ST World unit :=
  host_call "view_layer.objects.active" (set_w_active (Some obj)).

(** [obj.select_set(True)] *)
Definition select_set (obj : nat) : ST World unit :=
  host_call "object.select_set"
    (λ w, set_w_objects (alter (set_ob_selected true) obj (w_objects w)) w).

(** [bpy.ops.object.select_all(action="DESELECT")] *)
Definition select_all_deselect : ST World unit :=
  host_call "object.select_all"
    (λ w, set_w_objects (set_ob_selected false <$> w_objects w) w).

(** [bpy.ops.object.transform_apply(location=False, rotation=False,
    scale=True)]: the scale of every selected object goes into its mesh. *)
Definition apply_scale (o : Object) : Object :=
  if ob_selected o then
    set_ob_scale [1; 1; 1]%Q
      (set_ob_data
         ((λ me, {| me_materials := me_materials me;
                    me_size := zip_with Qmult (me_size me) (ob_scale o) |})
            <$> ob_data o) o)
  else o.

Definition transform_apply : ST World unit :=
  host_call "object.transform_apply"
    (λ w, set_w_objects (apply_scale <$> w_objects w) w).

(** [bpy.ops.fluid.bake_all()], [bpy.ops.fluid.free_all()] *)
Definition fluid_bake_all : ST World unit :=
  host_call "fluid.bake_all" (set_w_baked true).
Definition fluid_free_all : ST World unit :=
  host_call "fluid.free_all" (set_w_baked false).

(** [self.report({level}, message)] *)
Definition reported (level message : string) (w : World) : World :=
  set_w_reports (w_reports w ++ [(level, message)]) w.

Definition report (level message : string) : ST World unit :=
  modify (reported level message).

(** [settings.k = v] on the scene's settings *)
Definition settings_assign (k : string) (v : value) : ST World unit :=
  w <- get;;
  match setattr (w_settings w) k v with
  | Some s => modify (set_w_settings s)
  | None => raise "TypeError"
  end.

(** [_set_if_has(obj, attr, v)] on an object *)
Definition object_set_if_has (obj : nat) (attr : string) (v : value) : ST World unit :=
  at_object obj
    (modify (λ o, set_ob_attrs (_set_if_has "Object" attr v (ob_attrs o)) o)).

(** ** Operators *)

Inductive status := FINISHED | CANCELLED.

(** [FIREVFX_OT_create_rig.execute] from "Apply sizes" to its end, for the
    two rig objects the first half found or created. *)
Definition create_rig_from_sizes (domain emitter : nat) : ST World status :=
  settings <- gets w_settings;;

  size <- settings_attr settings "domain_size";;
  x <- py_index size 0;; y <- py_index size 1;; z <- py_index size 2;;
  at_object domain (modify (set_ob_scale [x / 2.0; y / 2.0; z / 2.0]%Q));;
  scale <- settings_attr settings "emitter_scale";;
  assign_scale emitter scale;;

  flag <- settings_attr settings "apply_scale_on_update";;
  (if py_bool flag then
     try_pass (set_active domain;; select_set domain;; transform_apply);;
     try_pass (set_active emitter;; select_set emitter;; transform_apply)
   else ret tt);;

  at_object domain (_apply_domain_settings settings);;
  at_object emitter (_apply_flow_settings settings);;

  _ensure_domain_material domain settings;;

  name <- at_object domain (gets ob_name);;
  settings_assign "domain_object_name" (VStr name);;
  name <- at_object emitter (gets ob_name);;
  settings_assign "emitter_object_name" (VStr name);;

  object_set_if_has domain "display_type" (VStr "WIRE");;
  object_set_if_has emitter "display_type" (VStr "SOLID");;

  ret FINISHED.

(** [FIREVFX_OT_create_rig.execute] up to "Link to collection": the rig
    objects, found by their fixed names or created. *)
Definition create_rig_objects : ST World (nat * nat) :=
  col <- _ensure_collection COLLECTION_NAME;;

  w <- get;;
  let domain := find_object DOMAIN_NAME w in
  let emitter := find_object EMITTER_NAME w in

  domain <- match domain with
            | Some domain => ret domain
            | None =>
                primitive_add "mesh.primitive_cube_add" "Cube" [2.0; 2.0; 2.0]%Q;;
                domain <- active_object;;
                rename_object domain DOMAIN_NAME;;
                ret domain
            end;;

  emitter <- match emitter with
             | Some emitter => ret emitter
             | None =>
                 primitive_add "mesh.primitive_cylinder_add" "Cylinder"
                   [0.5; 0.5; 1.0]%Q;;
                 emitter <- active_object;;
                 rename_object emitter EMITTER_NAME;;
                 ret emitter
             end;;

  _link_to_collection domain col;;
  _link_to_collection emitter col;;
  ret (domain, emitter).

Definition create_rig : ST World status :=
  rig <- create_rig_objects;;
  create_rig_from_sizes rig.1 rig.2.

(** [FIREVFX_OT_update_rig.execute] after the rig was found. *)
Definition update_rig_found (domain emitter : nat) : ST World status :=
  settings <- gets w_settings;;

  size <- settings_attr settings "domain_size";;
  x <- py_index size 0;; y <- py_index size 1;; z <- py_index size 2;;
  at_object domain (modify (set_ob_scale [x / 2.0; y / 2.0; z / 2.0]%Q));;
  scale <- settings_attr settings "emitter_scale";;
  assign_scale emitter scale;;

  flag <- settings_attr settings "apply_scale_on_update";;
  (if py_bool flag then
     try_pass (set_active domain;; select_set domain;; transform_apply);;
     try_pass (set_active emitter;; select_set emitter;; transform_apply)
   else ret tt);;

  at_object domain (_apply_domain_settings settings);;
  at_object emitter (_apply_flow_settings settings);;
  _ensure_domain_material domain settings;;

  ret FINISHED.

Definition update_rig : ST World status :=
  rig <- _find_rig;;
  match rig with
  | (Some domain, Some emitter) => update_rig_found domain emitter
  | _ =>
      report "WARNING" "No rig found. Click Create Fire Rig first.";;
      ret CANCELLED
  end.

(** [FIREVFX_OT_bake_all.execute] *)
Definition bake_all : ST World status :=
  rig <- _find_rig;;
  match rig.1 with
  | None =>
      report "WARNING" "No domain found. Create the rig first.";;
      ret CANCELLED
  | Some domain =>
      try_pass (select_all_deselect;; select_set domain;; set_active domain);;

      baked <- catch (fluid_bake_all;; ret true)
                 (λ _, catch (fluid_free_all;; fluid_bake_all;; ret true)
                         (λ e, report "ERROR" ("Bake failed: " +:+ e);;
                               ret false));;
      if baked : bool then ret FINISHED else ret CANCELLED
  end.

(** [FIREVFX_OT_free_all.execute] *)
Definition free_all : ST World status :=
  rig <- _find_rig;;
  match rig.1 with
  | None =>
      report "WARNING" "No domain found. Create the rig first.";;
      ret CANCELLED
  | Some domain =>
      try_pass (select_all_deselect;; select_set domain;; set_active domain);;

      freed <- catch (fluid_free_all;; ret true)
                 (λ e, report "ERROR" ("Free failed: " +:+ e);; ret false);;
      if freed : bool then ret FINISHED else ret CANCELLED
  end.

(** ** The panel *)

(** What [draw] puts into a layout: properties of the settings, operator
    buttons, labels and separators, inside columns, rows and boxes. *)
#[warnings="-register-all"] Inductive ui :=
| UProp (k : string)                      (* layout.prop(s, k) *)
| UOperator (idname text : string)        (* layout.operator(idname, text=text) *)
| ULabel (text : string)                  (* layout.label(text=text) *)
| USeparator                              (* layout.separator() *)
| UColumn (items : list ui)
| URow (items : list ui)
| UBox (items : list ui).

(** [s.k] read as a condition; the five switches read this way are
    declared, so the read does not fail. *)
Definition flag (s : Settings) (k : string) : bool :=
  match getattr s k with
  | Some v => py_bool v
  | None => false
  end.

(** [FIREVFX_PT_panel.draw]: the layout, top to bottom. *)
Definition draw (s : Settings) : list ui :=
  [ UColumn
      [ UProp "preset";
        URow [ UOperator "fire_vfx.create_rig" "Create";
               UOperator "fire_vfx.update_rig" "Update" ];
        UProp "ui_show_advanced" ];

    USeparator;

    UBox [ ULabel "Rig";
           UProp "domain_object_name";
           UProp "emitter_object_name" ];

    UBox [ ULabel "Transforms";
           UProp "domain_size";
           UProp "emitter_scale" ];

    UBox ([ ULabel "Simulation";
            UProp "resolution_max";
            UProp "time_scale";
            UProp "vorticity";
            URow [ UProp "use_adaptive_domain" ] ]
          ++ (if flag s "use_adaptive_domain"
              then [ UProp "adaptive_margin"; UProp "adaptive_additional_res" ]
              else [])
          ++ (if flag s "ui_show_advanced"
              then [ URow [ UProp "use_noise" ] ]
                   ++ (if flag s "use_noise"
                       then [ UProp "noise_strength"; UProp "noise_scale" ]
                       else [])
                   ++ [ UProp "burning_rate";
                        UProp "flame_smoke";
                        URow [ UProp "use_dissolve_smoke" ] ]
                   ++ (if flag s "use_dissolve_smoke"
                       then [ UProp "dissolve_speed" ]
                       else [])
              else []));

    UBox ([ ULabel "Flow";
            UProp "flow_density";
            UProp "flow_temperature";
            UProp "flow_fuel" ]
          ++ (if flag s "ui_show_advanced"
              then [ URow [ UProp "use_initial_velocity" ] ]
                   ++ (if flag s "use_initial_velocity"
                       then [ UProp "velocity_factor" ]
                       else [])
              else []));

    UBox [ ULabel "Shading";
           UProp "flame_strength";
           UProp "smoke_density";
           UProp "flame_color_low";
           UProp "flame_color_mid";
           UProp "flame_color_high" ];

    UBox ([ ULabel "Cache / Bake";
            UProp "cache_directory" ]
          ++ (if flag s "ui_show_advanced"
              then [ UProp "apply_scale_on_update" ]
              else [])
          ++ [ URow [ UOperator "fire_vfx.bake_all" "Bake";
                      UOperator "fire_vfx.free_all" "Free" ] ]) ].

(** The [bl_idname] of the operator classes, in the order of [CLASSES]. *)
Definition operator_idnames : list string :=
  [ "fire_vfx.create_rig"; "fire_vfx.update_rig";
    "fire_vfx.bake_all"; "fire_vfx.free_all" ].

(** ** Observations used to state the properties *)

(** An item that the settings class declares and whose value the host
    stores as it is written. *)
Definition stored_as_written (kv : string * value) : Prop :=
  ∃ p, prop_of kv.1 = Some p ∧ rna_set p kv.2 = Some kv.2.

(** [preserves f m]: whatever [m] does, and whether or not it raises, the
    observation [f] of the state is the same afterwards. *)
Definition preserves {S A B} (f : S → B) (m : ST S A) : Prop :=
  ∀ s, f (m s).2 = f s.

(** The number of fluid modifiers of an object. *)
Definition fluid_count (obj : Object) : nat :=
  length (filter (λ ty, ty = "FLUID") (md_type <$> ob_modifiers obj)).

(** The types of an object's modifiers, in order. *)
Definition modifier_types (obj : Object) : list string :=
  md_type <$> ob_modifiers obj.

(** The name stored in the settings under [k], and the object it names
    (what [_find_rig] looks up). *)
Definition stored_name (k : string) (w : World) : string :=
  match getattr (w_settings w) k with
  | Some (VStr name) => name
  | _ => ""
  end.

Definition resolve (k : string) (w : World) : option nat :=
  if bool_decide (stored_name k w = "") then None
  else find_object (stored_name k w) w.

(** The host calls made between two states. *)
Definition calls_since (w w' : World) : list string :=
  drop (length (w_calls w)) (w_calls w').

Definition is_fluid_call (call : string) : bool :=
  bool_decide (call = "fluid.bake_all") || bool_decide (call = "fluid.free_all").

(** The part of a document that the rig builder arranges: the names of the
    objects, the collections with their members, and what the scene holds
    directly. *)
Definition layout (w : World) : list string * list Collection * list nat * list nat :=
  (ob_name <$> w_objects w, w_collections w, w_scene_objects w, w_scene_children w).

(** The display hints that [create_rig] sets last. *)
Definition with_display_hints (domain emitter : nat) (w : World) : World :=
  (object_set_if_has emitter "display_type" (VStr "SOLID")
     (object_set_if_has domain "display_type" (VStr "WIRE") w).2).2.

Definition object_names (w : World) : list string := ob_name <$> w_objects w.

(** How many objects carry a name. *)
Definition count_named (name : string) (w : World) : nat :=
  length (filter (λ n, n = name) (object_names w)).

(** The members of the collection called [name], if there is one. *)
Definition members (name : string) (w : World) : option (list nat) :=
  c ← find_by_name co_name name (w_collections w);
  co_objects <$> w_collections w !! c.

(** The collections after an object was taken out of all of them and put at
    the end of collection [c]. *)
Definition moved_into (obj c : nat) (colls : list Collection) : list Collection :=
  alter (λ col, set_co_objects (co_objects col ++ [obj]) col) c
    ((λ col, set_co_objects (remove_object obj (co_objects col)) col) <$> colls).

(** The rig as [create_rig] arranges it: objects [d] and [e] carry the two
    fixed names, no other object does, collection [c] is the grouping
    collection and holds [others] followed by [d] and [e], and neither
    object is a member of anything else. *)
Definition rig_linked (w : World) (d e c : nat) (others : list nat) : Prop :=
  NoDup (object_names w)
  ∧ object_names w !! d = Some DOMAIN_NAME
  ∧ object_names w !! e = Some EMITTER_NAME
  ∧ find_by_name co_name COLLECTION_NAME (w_collections w) = Some c
  ∧ (∃ col, w_collections w !! c = Some col ∧ co_objects col = others ++ [d; e])
  ∧ (d ∉ others) ∧ (e ∉ others)
  ∧ (∀ j col, w_collections w !! j = Some col → j ≠ c →
              (d ∉ co_objects col) ∧ (e ∉ co_objects col))
  ∧ (d ∉ w_scene_objects w) ∧ (e ∉ w_scene_objects w).

(** The display hint of an object. *)
Definition display_type_of (obj : nat) (w : World) : option value :=
  w_objects w !! obj ≫= λ o, ob_attrs o !! "display_type".

(** What a bake or a free has no business changing: everything of the
    document except which objects are selected, which one is active,
    whether the cache holds a bake, and the logs. *)
Definition document (w : World) :
    list Object * list Collection * list nat * list nat * list Material * Settings :=
  (set_ob_selected false <$> w_objects w, w_collections w, w_scene_objects w,
   w_scene_children w, w_materials w, w_settings w).

(** The stop that an entry [(pos, col)] of the desired list asks for, when
    [col] is a color the host accepts. *)
Definition stop_of (e : Q * value) : Stop :=
  {| position := clamp01 e.1;
     color := match e.2 with VTuple c => c | _ => [] end |}.

(** A color of four components. *)
Definition rgba (v : value) : Prop := ∃ c, v = VTuple c ∧ length c = 4.

(** What a declared field of the settings reads as. *)
Definition field (settings : Settings) (k : string) : value :=
  default (VStr "") (getattr settings k).

(** The attributes that [_apply_domain_settings] writes on the domain
    settings, in the order of the source, each with the value it takes:
    a constant or a field of the settings. *)
Definition domain_writes (settings : Settings) : list (string * value) :=
  [ ("domain_type", VStr "GAS");
    ("cache_directory", field settings "cache_directory");
    ("cache_type", VStr "MODULAR");
    ("resolution_max", field settings "resolution_max");
    ("time_scale", field settings "time_scale");
    ("vorticity", field settings "vorticity");
    ("use_adaptive_domain", field settings "use_adaptive_domain");
    ("additional_res", field settings "adaptive_additional_res");
    ("adapt_margin", field settings "adaptive_margin");
    ("use_noise", field settings "use_noise");
    ("noise_strength", field settings "noise_strength");
    ("noise_scale", field settings "noise_scale");
    ("use_dissolve_smoke", field settings "use_dissolve_smoke");
    ("dissolve_speed", field settings "dissolve_speed");
    ("use_reaction", VBool true);
    ("burning_rate", field settings "burning_rate");
    ("flame_smoke", field settings "flame_smoke") ].

(** The same for [_apply_flow_settings], after the flow type. *)
Definition flow_writes (settings : Settings) : list (string * value) :=
  [ ("flow_behavior", VStr "INFLOW");
    ("density", field settings "flow_density");
    ("temperature", field settings "flow_temperature");
    ("fuel_amount", field settings "flow_fuel");
    ("use_initial_velocity", field settings "use_initial_velocity");
    ("velocity_factor", field settings "velocity_factor") ].

(** A run of guarded writes on the attributes of one struct. *)
Definition write_all (struct : string) (writes : list (string * value)) (a : attrs) : attrs :=
  foldl (λ a kv, _set_if_has struct kv.1 kv.2 a) a writes.

(** The fluid modifier once its type was requested. *)
Definition typed_as (ty : string) (m : Modifier) : Modifier :=
  host_fluid_type_update
    (set_md_attrs
       (_set_if_has "FluidModifier" "fluid_type" (VStr ty) (md_attrs m)) m).

(** The fluid modifier as [_apply_domain_settings] leaves it. *)
Definition configured_domain (settings : Settings) (m : Modifier) : Modifier :=
  let m' := typed_as "DOMAIN" m in
  set_md_domain_settings
    (write_all "FluidDomainSettings" (domain_writes settings)
       <$> md_domain_settings m') m'.

(** The fluid modifier as [_apply_flow_settings] leaves it. *)
Definition configured_flow (settings : Settings) (m : Modifier) : Modifier :=
  let m' := typed_as "FLOW" m in
  set_md_flow_settings
    ((λ fs, write_all "FluidFlowSettings" (flow_writes settings)
              (set_flow_type fs).2)
       <$> md_flow_settings m') m'.

(** An object whose [i]-th modifier is [m] with the given domain or flow
    settings. *)
Definition put_ds (i : nat) (m : Modifier) (ds : attrs) (o : Object) : Object :=
  set_ob_modifiers
    (<[i := set_md_domain_settings (Some ds) m]> (ob_modifiers o)) o.

Definition put_fs (i : nat) (m : Modifier) (fs : attrs) (o : Object) : Object :=
  set_ob_modifiers
    (<[i := set_md_flow_settings (Some fs) m]> (ob_modifiers o)) o.

(** [obj'] differs from [obj] at most in its [i]-th modifier. *)
Definition touches_only_modifier (obj obj' : Object) (i : nat) : Prop :=
  ob_name obj' = ob_name obj
  ∧ ob_scale obj' = ob_scale obj
  ∧ ob_attrs obj' = ob_attrs obj
  ∧ ob_selected obj' = ob_selected obj
  ∧ ob_data obj' = ob_data obj
  ∧ ∀ j, j ≠ i → ob_modifiers obj' !! j = ob_modifiers obj !! j.

(** The properties and the operators that a layout shows, top to bottom. *)
Fixpoint ui_props (u : ui) : list string :=
  match u with
  | UProp k => [k]
  | UColumn items | URow items | UBox items => flat_map ui_props items
  | _ => []
  end.

Fixpoint ui_operators (u : ui) : list string :=
  match u with
  | UOperator idname _ => [idname]
  | UColumn items | URow items | UBox items => flat_map ui_operators items
  | _ => []
  end.

Definition shown_props (s : Settings) : list string := flat_map ui_props (draw s).
Definition shown_operators (s : Settings) : list string :=
  flat_map ui_operators (draw s).

(** The names of the properties that the settings class declares. *)
Definition declared_props : list string := FIREVFX_Settings.*1.

(** The controls that the panel keeps for the advanced view. *)
Definition advanced_props : list string :=
  [ "use_noise"; "noise_strength"; "noise_scale"; "burning_rate"; "flame_smoke";
    "use_dissolve_smoke"; "dissolve_speed"; "use_initial_velocity";
    "velocity_factor"; "apply_scale_on_update" ].

(** What a node is for the graph: its type and the names of its input and
    output sockets, in order. *)
Definition node_kind (nd : Node) : string * list string * list string :=
  (nd_idname nd, sk_name <$> nd_inputs nd, sk_name <$> nd_outputs nd).

(** The index of the first socket of a name. *)
Definition name_index (name : string) (names : list string) : option nat :=
  fst <$> list_find (λ n, n = name) names.

(** The graph of a node tree: the kinds of its nodes and its links. *)
Definition skeleton (t : NodeTree) : list (string * list string * list string) * list Link :=
  (node_kind <$> nodes t, links t).

(** The nodes that [_build_volume_shader] creates, in order: output (0),
    principled volume (1), density attribute (2), flame attribute (3),
    ramp (4), flame multiplier (5), density multiplier (6). *)
Definition shader_nodes : list string :=
  [ "ShaderNodeOutputMaterial"; "ShaderNodeVolumePrincipled";
    "ShaderNodeAttribute"; "ShaderNodeAttribute"; "ShaderNodeValToRGB";
    "ShaderNodeMath"; "ShaderNodeMath" ].

Definition link (a b : nat * nat) : Link := {| link_from := a; link_to := b |}.

(** The sockets of the nodes a host creates, by name. *)
Definition output_index (idname name : string) : option nat :=
  name_index name (node_kind (host_new_node idname)).2.
Definition input_index (idname name : string) : option nat :=
  name_index name (node_kind (host_new_node idname)).1.2.

(** The scales of the objects of a document, in order. *)
Definition scales (w : World) : list (list Q) := ob_scale <$> w_objects w.

(** The modifier stacks of the objects of a document, in order. *)
Definition modifier_stacks (w : World) : list (list Modifier) :=
  ob_modifiers <$> w_objects w.

(** The document once [update_rig] has applied the sizes [[x; y; z]] and
    [s] and has run both configurators, before it turns to the material:
    four steps on the objects, the later on top of the earlier, everything
    else as it was. *)
Definition sized_and_configured (settings : Settings) (x y z : Q) (s : list Q)
    (domain emitter : nat) (w : World) : World :=
  set_w_objects
    (alter (λ o, (_apply_flow_settings settings o).2) emitter
       (alter (λ o, (_apply_domain_settings settings o).2) domain
          (alter (set_ob_scale s) emitter
             (alter (set_ob_scale [x / 2.0; y / 2.0; z / 2.0]%Q) domain
                (w_objects w))))) w.

(** * Properties of preset application *)

Lemma write_field_stored s kv :
  stored_as_written kv → write_field s kv = <[kv.1 := kv.2]> s.
Proof.
  intros (p & Hp & Hv). unfold write_field, hasattr, setattr.
  rewrite Hp, bool_decide_eq_true_2 by eauto.
  simpl. by rewrite Hv.
Qed.

(** Reading a store after a run of writes: the last item written under the
    key wins, otherwise the store is as before. *)
Lemma write_items_lookup d : ∀ (s : Settings) k,
  Forall stored_as_written d →
  write_items s d !! k = match dict_get k (reverse d) with
                         | Some v => Some v
                         | None => s !! k
                         end.
Proof.
  unfold write_items.
  induction d as [|kv d IH] using rev_ind; intros s k Hd; [done|].
  apply Forall_app in Hd as [Hd Hkv]. apply Forall_inv in Hkv.
  rewrite foldl_app, reverse_snoc. simpl.
  rewrite write_field_stored by done. destruct kv as [k' v]; simpl.
  destruct (decide (k = k')) as [->|Hne].
  - by rewrite lookup_insert_eq.
  - rewrite lookup_insert_ne by done. by apply IH.
Qed.

Lemma dict_get_None k d : dict_get k d = None ↔ k ∉ dict_keys d.
Proof.
  unfold dict_keys. induction d as [|[k' v] d IH]; simpl.
  - split; [intros _; apply not_elem_of_nil | done].
  - rewrite not_elem_of_cons. destruct (decide (k = k')) as [->|Hne].
    + split; [done | by intros [? _]].
    + rewrite IH. split; [by intros ?; split | by intros [_ ?]].
Qed.

Lemma dict_get_app k d1 d2 :
  dict_get k (d1 ++ d2) =
    match dict_get k d1 with Some v => Some v | None => dict_get k d2 end.
Proof.
  induction d1 as [|[k' v] d1 IH]; simpl; [done|].
  by destruct (decide (k = k')).
Qed.

(** A dict literal has one item per key, so the order of its items does
    not matter to a lookup. *)
Lemma dict_get_reverse k d :
  NoDup (dict_keys d) → dict_get k (reverse d) = dict_get k d.
Proof.
  unfold dict_keys. induction d as [|[k' v] d IH]; [done|].
  rewrite fmap_cons, NoDup_cons. intros [Hk' Hd].
  rewrite reverse_cons, dict_get_app, IH by done. simpl.
  destruct (decide (k = k')) as [->|]; [|by destruct (dict_get k d)].
  assert (dict_get k' d = None) as -> by (by apply dict_get_None).
  done.
Qed.

Ltac stored_items :=
  repeat first
    [ apply Forall_nil_2
    | apply Forall_cons_2; [eexists; split; [reflexivity | reflexivity] |] ].

Lemma BASE_PRESET_stored : Forall stored_as_written BASE_PRESET.
Proof. unfold BASE_PRESET. stored_items. Qed.

Lemma overrides_stored p : Forall stored_as_written (overrides_for p).
Proof.
  unfold overrides_for, PRESET_OVERRIDES. simpl.
  repeat case_decide; first [ apply Forall_nil_2 | idtac ].
  - unfold CANDLE. stored_items.
  - unfold TORCH. stored_items.
  - unfold CAMPFIRE. stored_items.
  - unfold BONFIRE. stored_items.
  - unfold EXPLOSION. stored_items.
Qed.

Lemma BASE_PRESET_keys : NoDup (dict_keys BASE_PRESET).
Proof. apply (bool_decide_unpack _). by vm_compute. Qed.

Lemma overrides_keys p : NoDup (dict_keys (overrides_for p)).
Proof.
  unfold overrides_for, PRESET_OVERRIDES. simpl.
  repeat case_decide; apply (bool_decide_unpack _); by vm_compute.
Qed.

(** The store after [_apply_preset_to_settings], key by key. *)
Lemma apply_preset_lookup (s : Settings) p k :
  _apply_preset_to_settings s p !! k =
    match dict_get k (overrides_for p) with
    | Some v => Some v
    | None => match dict_get k BASE_PRESET with
              | Some v => Some v
              | None => s !! k
              end
    end.
Proof.
  unfold _apply_preset_to_settings.
  rewrite !write_items_lookup by auto using BASE_PRESET_stored, overrides_stored.
  by rewrite !dict_get_reverse by auto using BASE_PRESET_keys, overrides_keys.
Qed.

(** Every key of the tables is a declared property, and reads back as the
    value the table gives. *)
Lemma stored_declared d k v :
  Forall stored_as_written d → dict_get k d = Some v →
  ∃ p, prop_of k = Some p ∧ rna_get p (Some v) = v.
Proof.
  induction 1 as [|[k' v'] d (p & Hp & Hv) _ IH]; simpl; [done|].
  case_decide as Hk; [|done]. intros [= <-]. subst k'. simpl in *.
  exists p. split; [done|]. unfold rna_get. simpl. by rewrite Hv.
Qed.

Lemma apply_preset_getattr (s : Settings) p k :
  getattr (_apply_preset_to_settings s p) k =
    match dict_get k (overrides_for p) with
    | Some v => Some v
    | None => match dict_get k BASE_PRESET with
              | Some v => Some v
              | None => getattr s k
              end
    end.
Proof.
  unfold getattr. rewrite apply_preset_lookup.
  destruct (dict_get k (overrides_for p)) as [v|] eqn:Ho.
  { destruct (stored_declared _ _ _ (overrides_stored p) Ho) as (q & -> & Hq).
    simpl. by rewrite Hq. }
  destruct (dict_get k BASE_PRESET) as [v|] eqn:Hb; [|done].
  destruct (stored_declared _ _ _ BASE_PRESET_stored Hb) as (q & -> & Hq).
  simpl. by rewrite Hq.
Qed.

Lemma overrides_for_known p d :
  (p, d) ∈ PRESET_OVERRIDES → overrides_for p = d.
Proof.
  unfold PRESET_OVERRIDES. rewrite !elem_of_cons, elem_of_nil.
  intros [H|[H|[H|[H|[H|[]]]]]]; by injection H as -> ->.
Qed.

Lemma overrides_for_unknown p : p ∉ preset_items → overrides_for p = [].
Proof.
  unfold preset_items. rewrite !not_elem_of_cons. intros (?&?&?&?&?&_).
  unfold overrides_for, PRESET_OVERRIDES. simpl. by repeat case_decide.
Qed.

(** With every item stored as written, a run of guarded writes is a run of
    plain assignments. *)
Lemma write_items_stored d : ∀ s : Settings,
  Forall stored_as_written d →
  write_items s d = foldl (λ s kv, <[kv.1 := kv.2]> s) s d.
Proof.
  unfold write_items. induction d as [|kv d IH]; intros s Hd; [done|].
  apply Forall_cons in Hd as [Hkv Hd]. simpl.
  rewrite write_field_stored by done. by apply IH.
Qed.

(** C1. For each of the five preset identifiers, applying the preset
    assigns every item of the base table and then every item of the
    preset's delta, each with the value the table gives (no write is
    skipped); afterwards a field named by the delta reads as the delta's
    value, a field named only by the base table as the base value, and any
    other field of the settings reads, and is stored, as before the call. *)
Theorem apply_preset_writes_exactly (p : string) (d : dict) (s : Settings) (k : string) :
  (p, d) ∈ PRESET_OVERRIDES →
  _apply_preset_to_settings s p =
    foldl (λ s kv, <[kv.1 := kv.2]> s)
      (foldl (λ s kv, <[kv.1 := kv.2]> s) s BASE_PRESET) d
  ∧ getattr (_apply_preset_to_settings s p) k =
      match dict_get k d with
      | Some v => Some v
      | None => match dict_get k BASE_PRESET with
                | Some v => Some v
                | None => getattr s k
                end
      end
  ∧ (k ∉ dict_keys d → k ∉ dict_keys BASE_PRESET →
     _apply_preset_to_settings s p !! k = s !! k).
Proof.
  intros Hp. apply overrides_for_known in Hp.
  split; [|split].
  - unfold _apply_preset_to_settings.
    rewrite !write_items_stored by auto using BASE_PRESET_stored, overrides_stored.
    by rewrite Hp.
  - by rewrite apply_preset_getattr, Hp.
  - intros Hd Hb. rewrite apply_preset_lookup, Hp.
    apply dict_get_None in Hd as ->. by apply dict_get_None in Hb as ->.
Qed.

(** C2. After the preset "CANDLE" the settings read resolution_max = 80,
    vorticity = 0.25, flame_strength = 18.0 and use_dissolve_smoke = True;
    after "EXPLOSION" they read resolution_max = 176,
    flame_strength = 120.0 and smoke_density = 6.0, whatever the settings
    were before. *)
Theorem candle_and_explosion_values (s : Settings) :
  let candle := _apply_preset_to_settings s "CANDLE" in
  let explosion := _apply_preset_to_settings s "EXPLOSION" in
  getattr candle "resolution_max" = Some (VInt 80)
  ∧ getattr candle "vorticity" = Some (VFloat 0.25)
  ∧ getattr candle "flame_strength" = Some (VFloat 18.0)
  ∧ getattr candle "use_dissolve_smoke" = Some (VBool true)
  ∧ getattr explosion "resolution_max" = Some (VInt 176)
  ∧ getattr explosion "flame_strength" = Some (VFloat 120.0)
  ∧ getattr explosion "smoke_density" = Some (VFloat 6.0).
Proof.
  intros candle explosion. subst candle explosion.
  rewrite !apply_preset_getattr.
  repeat split; reflexivity.
Qed.

(** C10. A preset identifier that is none of the five names selects the
    empty delta: the call goes through every guarded write (no exception
    can leave it), assigns exactly the items of the base table, and leaves
    every other field as it was. *)
Theorem unknown_preset_applies_base (p : string) (s : Settings) (k : string) :
  p ∉ preset_items →
  overrides_for p = []
  ∧ _apply_preset_to_settings s p =
      foldl (λ s kv, <[kv.1 := kv.2]> s) s BASE_PRESET
  ∧ getattr (_apply_preset_to_settings s p) k =
      match dict_get k BASE_PRESET with
      | Some v => Some v
      | None => getattr s k
      end
  ∧ (k ∉ dict_keys BASE_PRESET → _apply_preset_to_settings s p !! k = s !! k).
Proof.
  intros Hp. apply overrides_for_unknown in Hp.
  split; [done|]. split; [|split].
  - unfold _apply_preset_to_settings. rewrite Hp.
    exact (write_items_stored _ _ BASE_PRESET_stored).
  - by rewrite apply_preset_getattr, Hp.
  - intros Hb. rewrite apply_preset_lookup, Hp.
    change (dict_get k []) with (@None value).
    by apply dict_get_None in Hb as ->.
Qed.

(** X1. Applying a preset twice in a row gives the settings that applying
    it once gives. *)
Theorem apply_preset_idempotent (s : Settings) (p : string) :
  _apply_preset_to_settings (_apply_preset_to_settings s p) p =
    _apply_preset_to_settings s p.
Proof.
  apply map_eq. intros k. rewrite !apply_preset_lookup.
  destruct (dict_get k (overrides_for p)); [done|].
  by destruct (dict_get k BASE_PRESET).
Qed.

(** * Presets one after the other *)

(** Every field a preset overrides is a field of the base table. *)
Lemma overrides_within_base p :
  Forall (λ k, k ∈ dict_keys BASE_PRESET) (dict_keys (overrides_for p)).
Proof.
  unfold overrides_for, PRESET_OVERRIDES. simpl.
  repeat case_decide; first [ apply Forall_nil_2 | idtac ];
    apply (bool_decide_unpack _); by vm_compute.
Qed.

Lemma overrides_get_base k p :
  dict_get k BASE_PRESET = None → dict_get k (overrides_for p) = None.
Proof.
  rewrite !dict_get_None. intros Hbase Hin.
  pose proof (overrides_within_base p) as Hall.
  rewrite Forall_forall in Hall. by apply Hbase, Hall.
Qed.

(** X2. The preset applied last decides: applying preset [p2] after any
    preset [p1] leaves the settings exactly as applying [p2] alone would,
    because every field that a preset overrides is reset by the base table
    first. *)
Theorem last_preset_wins (s : Settings) (p1 p2 : string) :
  _apply_preset_to_settings (_apply_preset_to_settings s p1) p2 =
    _apply_preset_to_settings s p2.
Proof.
  apply map_eq. intros k. rewrite !apply_preset_lookup.
  destruct (dict_get k (overrides_for p2)); [done|].
  destruct (dict_get k BASE_PRESET) eqn:Hbase; [done|].
  by rewrite (overrides_get_base k p1 Hbase).
Qed.

(** X3. Assigning the [preset] property runs the update callback only for
    one of the five declared identifiers: the identifier is stored, the
    base table and the preset's overrides are written over the settings,
    and the property still reads as the identifier afterwards.  Any other
    identifier is refused and nothing is applied. *)
Theorem assign_preset_applies (s : Settings) (p : string) :
  match decide (p ∈ preset_items) with
  | left _ =>
      let s' := _apply_preset_to_settings (<["preset" := VStr p]> s) p in
      assign_preset s (VStr p) = Some s'
      ∧ getattr s' "preset" = Some (VStr p)
      ∧ _preset_update s' = s'
  | right _ => assign_preset s (VStr p) = None
  end.
Proof.
  unfold assign_preset, setattr.
  change (prop_of "preset") with (Some (EnumProperty preset_items "TORCH")).
  cbn [mbind option_bind rna_set].
  destruct (decide (p ∈ preset_items)) as [Hp|Hp]; [|done].
  assert (∀ s0 : Settings,
            getattr (<["preset" := VStr p]> s0) "preset" = Some (VStr p)) as Hget.
  { intros s0. unfold getattr.
    change (prop_of "preset") with (Some (EnumProperty preset_items "TORCH")).
    cbn [mbind option_bind]. rewrite lookup_insert_eq. unfold rna_get.
    cbn [mbind option_bind rna_set]. by rewrite decide_True. }
  assert (getattr (_apply_preset_to_settings (<["preset" := VStr p]> s) p) "preset"
          = Some (VStr p)) as Hget'.
  { rewrite apply_preset_getattr.
    rewrite (overrides_get_base "preset" p) by done.
    change (dict_get "preset" BASE_PRESET) with (@None value). apply Hget. }
  split; [|split; [done|]].
  { change (_preset_update <$> Some (VStr p) ≫= _)
      with (Some (_preset_update (<["preset" := VStr p]> s))).
    unfold _preset_update. by rewrite Hget. }
  unfold _preset_update. rewrite Hget'.
  apply map_eq. intros k. rewrite !apply_preset_lookup.
  destruct (dict_get k (overrides_for p)); [done|].
  by destruct (dict_get k BASE_PRESET).
Qed.

(** * Running a computation step by step *)

Lemma bind_run {S A B} (m : ST S A) (f : A → ST S B) s a s' :
  m s = (Ret a, s') → bind m f s = f a s'.
Proof. intros H. unfold bind. by rewrite H. Qed.

Lemma bind_exn {S A B} (m : ST S A) (f : A → ST S B) s e s' :
  m s = (Exn e, s') → bind m f s = (Exn e, s').
Proof. intros H. unfold bind. by rewrite H. Qed.

Lemma bind_get {S B} (f : S → ST S B) s : bind get f s = f s s.
Proof. done. Qed.

Lemma bind_gets {S A B} (g : S → A) (f : A → ST S B) s :
  bind (gets g) f s = f (g s) s.
Proof. done. Qed.

Lemma bind_ret {S A B} (a : A) (f : A → ST S B) s : bind (ret a) f s = f a s.
Proof. done. Qed.

Lemma bind_modify {S B} (g : S → S) (f : unit → ST S B) s :
  bind (modify g) f s = f tt (g s).
Proof. done. Qed.

(** * The color ramp *)

Lemma insert_stop_length st l : length (insert_stop st l) = S (length l).
Proof.
  induction l as [|x l IH]; simpl; [done|].
  destruct (Qltb (position st) (position x)); simpl; by rewrite ?IH.
Qed.

Lemma elements_new_grows p l :
  length l < MAXCOLORBAND →
  ∃ l', elements_new p l = (Ret tt, l') ∧ length l' = S (length l).
Proof.
  intros Hl. unfold elements_new. case_decide; [lia|].
  eexists. split; [done|]. apply insert_stop_length.
Qed.

(** The growing loop ends with as many stops as desired (or with the stops
    it found, when there were at least as many). *)
Lemma grow_elements_length desired n : ∀ l,
  length desired ≤ MAXCOLORBAND →
  length desired - length l ≤ n →
  ∃ l', grow_elements desired n l = (Ret tt, l')
        ∧ length l' = length l `max` length desired.
Proof.
  induction n as [|n IH]; intros l Hmax Hn; simpl.
  - exists l. split; [done|]. lia.
  - unfold bind at 1, get. case_decide as Hlt.
    + destruct (lookup_lt_is_Some_2 desired (length l) Hlt) as [[pos col] ->].
      destruct (elements_new_grows pos l) as (l1 & Hnew & Hlen); [lia|].
      unfold bind. rewrite Hnew.
      destruct (IH l1) as (l' & Hgrow & Hlen'); [done|lia|].
      exists l'. split; [done|]. lia.
    + exists l. split; [done|]. lia.
Qed.

(** The shrinking loop keeps the first stops, as many as desired. *)
Lemma shrink_elements_take desired n : ∀ l,
  0 < length desired →
  length l - length desired ≤ n →
  shrink_elements desired n l = (Ret tt, take (length desired) l).
Proof.
  induction n as [|n IH]; intros l Hd Hn; simpl.
  - unfold ret. by rewrite take_ge by lia.
  - unfold bind at 1, get. case_decide as Hlt.
    + unfold bind, catch, elements_remove_last. case_decide; [lia|]. simpl.
      rewrite IH; [|done|rewrite removelast_firstn_len, length_take; lia].
      by rewrite firstn_removelast by lia.
    + unfold ret. by rewrite take_ge by lia.
Qed.

Lemma set_element_ok i pos c st l :
  l !! i = Some st → length c = 4 →
  set_element i pos (VTuple c) l =
    (Ret tt, <[i := {| position := clamp01 pos; color := c |}]> l).
Proof.
  intros Hi Hc. unfold set_element. rewrite Hi. by case_decide.
Qed.

(** A vector property reads as a vector of its declared size. *)
Lemma rna_get_vector n lo hi d st :
  length d = n →
  ∃ c, rna_get (FloatVectorProperty n lo hi d) st = VTuple c ∧ length c = n.
Proof.
  intros Hd. unfold rna_get.
  destruct st as [[| | | |xs]|]; simpl; eauto.
  case_decide; simpl; eauto.
  eexists. split; [done|]. by rewrite length_fmap.
Qed.

Lemma getattr_flame_color (settings : Settings) k :
  k ∈ ["flame_color_low"; "flame_color_mid"; "flame_color_high"] →
  ∃ c, getattr settings k = Some (VTuple c) ∧ length c = 4.
Proof.
  rewrite !elem_of_cons, elem_of_nil. unfold getattr.
  intros [->|[->|[->|[]]]].
  - destruct (rna_get_vector 4 0.0%Q (Some 1.0%Q) [0.07; 0.01; 0.0; 1.0]%Q
                (settings !! "flame_color_low")) as (c & Hc & ?); [done|].
    exists c. split; [|done]. by rewrite <- Hc.
  - destruct (rna_get_vector 4 0.0%Q (Some 1.0%Q) [1.0; 0.42; 0.08; 1.0]%Q
                (settings !! "flame_color_mid")) as (c & Hc & ?); [done|].
    exists c. split; [|done]. by rewrite <- Hc.
  - destruct (rna_get_vector 4 0.0%Q (Some 1.0%Q) [1.0; 0.95; 0.85; 1.0]%Q
                (settings !! "flame_color_high")) as (c & Hc & ?); [done|].
    exists c. split; [|done]. by rewrite <- Hc.
Qed.

(** Whatever stops the ramp has, three colors of four components each end
    up as exactly three stops at 0.0, 0.25 and 1.0. *)
Lemma set_color_ramp_three (cr : list Stop) (low mid high : list Q) :
  length low = 4 → length mid = 4 → length high = 4 →
  _set_color_ramp_elements
    [(0.0%Q, VTuple low); (0.25%Q, VTuple mid); (1.0%Q, VTuple high)] cr =
  (Ret tt, [ {| position := 0.0; color := low |};
             {| position := 0.25; color := mid |};
             {| position := 1.0; color := high |} ]).
Proof.
  intros Hlow Hmid Hhigh.
  set (desired := [(0.0%Q, VTuple low); (0.25%Q, VTuple mid); (1.0%Q, VTuple high)]).
  assert (∃ l0, (if decide (length cr = 0) then elements_new 0.0%Q else ret tt) cr
                = (Ret tt, l0)) as (l0 & Hfirst).
  { case_decide as Hempty; [|by eexists].
    destruct (elements_new_grows 0.0%Q cr) as (l0 & Hnew & _); [|by eexists].
    rewrite Hempty. unfold MAXCOLORBAND. lia. }
  destruct (grow_elements_length desired (length desired) l0)
    as (l1 & Hgrow & Hl1); [unfold MAXCOLORBAND; simpl; lia | lia |].
  simpl in Hl1.
  unfold _set_color_ramp_elements. fold desired. unfold desired at 1.
  rewrite bind_get, (bind_run _ _ _ _ _ Hfirst), (bind_run _ _ _ _ _ Hgrow).
  rewrite bind_get.
  rewrite (bind_run _ _ _ _ _ (shrink_elements_take desired (length l1) l1 ltac:(simpl; lia) ltac:(lia))).
  destruct l1 as [|a [|b [|c l1]]]; simpl in Hl1; try lia.
  simpl take. unfold desired, apply_elements, bind, try_pass, catch.
  rewrite (set_element_ok 0 _ low a) by done. simpl.
  rewrite (set_element_ok 1 _ mid b) by done. simpl.
  rewrite (set_element_ok 2 _ high c) by done. simpl.
  done.
Qed.

(** C7. For a ramp with any number of stops (none, one, two, five, ...),
    reconciling it with the three stops that the shader builder derives
    from the settings leaves exactly three stops: positions 0.0, 0.25 and
    1.0, carrying in that order the low, mid and high flame colors of the
    settings. *)
Theorem color_ramp_reconciled_to_three (settings : Settings) (cr : list Stop) :
  ∃ low mid high,
    getattr settings "flame_color_low" = Some (VTuple low)
    ∧ getattr settings "flame_color_mid" = Some (VTuple mid)
    ∧ getattr settings "flame_color_high" = Some (VTuple high)
    ∧ _set_color_ramp_elements
        [(0.0%Q, VTuple low); (0.25%Q, VTuple mid); (1.0%Q, VTuple high)] cr
      = (Ret tt, [ {| position := 0.0; color := low |};
                   {| position := 0.25; color := mid |};
                   {| position := 1.0; color := high |} ]).
Proof.
  destruct (getattr_flame_color settings "flame_color_low") as (low & Hl & ?);
    [set_solver|].
  destruct (getattr_flame_color settings "flame_color_mid") as (mid & Hm & ?);
    [set_solver|].
  destruct (getattr_flame_color settings "flame_color_high") as (high & Hh & ?);
    [set_solver|].
  exists low, mid, high. repeat split; try done.
  by apply set_color_ramp_three.
Qed.

(** * Ramps of any length *)

Lemma apply_elements_all desired : ∀ i l,
  Forall (λ e, rgba e.2) desired →
  i + length desired ≤ length l →
  apply_elements desired i l =
    (Ret tt, take i l ++ (stop_of <$> desired) ++ drop (i + length desired) l).
Proof.
  induction desired as [|[pos col] desired IH]; intros i l Hok Hlen.
  - simpl. rewrite Nat.add_0_r. by rewrite take_drop.
  - apply Forall_cons in Hok as [(c & Hc & Hc4) Hok]. simpl in Hc, Hlen. subst col.
    destruct (lookup_lt_is_Some_2 l i) as [st Hst]; [lia|].
    cbn [apply_elements]. unfold try_pass, catch.
    unfold bind at 1. rewrite (set_element_ok i pos c st l Hst Hc4).
    set (stop := {| position := clamp01 pos; color := c |}).
    assert (<[i := stop]> l !! i = Some stop) as Hstop
      by (apply list_lookup_insert_eq; by eapply lookup_lt_Some).
    rewrite IH; [|done|rewrite length_insert; lia].
    f_equal. rewrite (take_S_r _ i stop Hstop).
    rewrite take_insert_ge by lia. rewrite drop_insert_lt by lia.
    rewrite <- (assoc_L (++)). cbn [fmap list_fmap length app].
    by replace (S i + length desired) with (i + S (length desired)) by lia.
Qed.

Lemma ramp_first_stop (cr : list Stop) :
  length cr ≤ MAXCOLORBAND →
  ∃ l0, (if decide (length cr = 0) then elements_new 0.0%Q else ret tt) cr
        = (Ret tt, l0)
        ∧ 0 < length l0 ≤ MAXCOLORBAND.
Proof.
  intros Hcr. case_decide as Hempty.
  - destruct (elements_new_grows 0.0%Q cr) as (l0 & Hnew & Hl0).
    { rewrite Hempty. unfold MAXCOLORBAND. lia. }
    exists l0. split; [done|]. rewrite Hl0, Hempty. unfold MAXCOLORBAND. lia.
  - exists cr. split; [done|]. lia.
Qed.

(** X4. Reconciling a ramp with any non-empty list of at most 32 stops
    whose colors have four components never raises and leaves exactly the
    requested stops, in the requested order, each at its position clamped
    to the unit interval; whatever stops the ramp had are gone.  An empty
    list leaves the ramp as it is. *)
Theorem color_ramp_reconciled (elements : list (Q * value)) (cr : list Stop) :
  length elements ≤ MAXCOLORBAND →
  Forall (λ e, rgba e.2) elements →
  _set_color_ramp_elements elements cr =
    (Ret tt, match elements with
             | [] => cr
             | _ :: _ => stop_of <$> elements
             end).
Proof.
  intros Hmax Hok. destruct elements as [|e0 elements]; [done|].
  set (desired := e0 :: elements) in *.
  assert (0 < length desired) as Hpos by (simpl; lia).
  assert (∃ l0, (if decide (length cr = 0) then elements_new 0.0%Q else ret tt) cr
                = (Ret tt, l0)) as (l0 & Hfirst).
  { case_decide as Hempty; [|by eexists].
    destruct (elements_new_grows 0.0%Q cr) as (l0 & Hnew & _); [|by eexists].
    rewrite Hempty. unfold MAXCOLORBAND. lia. }
  destruct (grow_elements_length desired (length desired) l0)
    as (l1 & Hgrow & Hl1); [done | lia |].
  unfold _set_color_ramp_elements. fold desired. unfold desired at 1.
  rewrite bind_get, (bind_run _ _ _ _ _ Hfirst), (bind_run _ _ _ _ _ Hgrow).
  rewrite bind_get.
  assert (length l1 - length desired ≤ length l1) as Hrounds by lia.
  rewrite (bind_run _ _ _ _ _
             (shrink_elements_take desired (length l1) l1 Hpos Hrounds)).
  rewrite apply_elements_all; [|done|rewrite length_take; lia].
  f_equal. cbn [take app]. rewrite drop_ge by (rewrite length_take; lia).
  by rewrite app_nil_r.
Qed.

Lemma insert_stop_sublist st l : l `sublist_of` insert_stop st l.
Proof.
  induction l as [|x l IH]; [apply sublist_nil_l|]. cbn [insert_stop].
  destruct (Qltb (position st) (position x)).
  - by apply sublist_cons.
  - by apply sublist_skip.
Qed.

Lemma elements_new_sublist p l r l' :
  elements_new p l = (r, l') → l `sublist_of` l'.
Proof.
  unfold elements_new. case_decide; intros [= _ <-]; [done|].
  apply insert_stop_sublist.
Qed.

Lemma grow_elements_overflow desired n : ∀ l,
  MAXCOLORBAND < length desired →
  length l ≤ MAXCOLORBAND →
  MAXCOLORBAND - length l < n →
  ∃ l', grow_elements desired n l = (Exn "RuntimeError", l')
        ∧ length l' = MAXCOLORBAND
        ∧ l `sublist_of` l'.
Proof.
  induction n as [|n IH]; intros l Hbig Hl Hn; [lia|].
  cbn [grow_elements]. rewrite bind_get.
  rewrite decide_True by lia.
  destruct (lookup_lt_is_Some_2 desired (length l)) as [[pos col] Hd]; [lia|].
  rewrite Hd. unfold bind at 1.
  destruct (elements_new pos l) as [[[]|e] l1] eqn:Hnew.
  - pose proof (elements_new_sublist _ _ _ _ Hnew) as Hsub.
    unfold elements_new in Hnew. case_decide as Hfull; [done|].
    injection Hnew as <-.
    destruct (IH (insert_stop {| position := clamp01 pos;
                                 color := ramp_color_at l pos |} l))
      as (l' & Hrun & Hlen & Hsub'); [done|rewrite insert_stop_length; lia
                                     |rewrite insert_stop_length; lia|].
    exists l'. split; [done|]. split; [done|]. by etrans.
  - unfold elements_new in Hnew. case_decide as Hfull; [|done].
    injection Hnew as <- <-. exists l. split; [done|]. split; [lia|done].
Qed.

(** X5. The host's limit of 32 stops is never exceeded: on a ramp within
    the limit, asking for more than 32 stops raises the host's error while
    the ramp is being grown.  The ramp then holds 32 stops, among them
    every stop it had, unchanged and in order; the run ends in the growing
    loop, so the loop that assigns the requested positions and colors is
    never reached. *)
Theorem color_ramp_overflow (elements : list (Q * value)) (cr : list Stop) :
  MAXCOLORBAND < length elements →
  length cr ≤ MAXCOLORBAND →
  ∃ cr',
    _set_color_ramp_elements elements cr = (Exn "RuntimeError", cr')
    ∧ length cr' = MAXCOLORBAND
    ∧ cr `sublist_of` cr'
    ∧ ((if decide (length cr = 0) then elements_new 0.0%Q else ret tt);;
       grow_elements elements (length elements)) cr
      = (Exn "RuntimeError", cr').
Proof.
  intros Hbig Hcr. destruct elements as [|e0 elements]; [simpl in Hbig; lia|].
  set (desired := e0 :: elements) in *.
  destruct (ramp_first_stop cr Hcr) as (l0 & Hfirst & Hl0).
  assert (cr `sublist_of` l0) as Hsub0.
  { revert Hfirst. case_decide; [apply elements_new_sublist|by intros [= <-]]. }
  destruct (grow_elements_overflow desired (length desired) l0)
    as (l1 & Hgrow & Hl1 & Hsub1); [done | lia | lia |].
  exists l1. split; [|split; [done|split; [by etrans|]]].
  - unfold _set_color_ramp_elements. fold desired. unfold desired at 1.
    rewrite bind_get, (bind_run _ _ _ _ _ Hfirst).
    by rewrite (bind_exn _ _ _ _ _ Hgrow).
  - by rewrite (bind_run _ _ _ _ _ Hfirst).
Qed.

(** * What a computation leaves alone *)

Lemma preserves_ret {S A B} (f : S → B) (a : A) : preserves f (ret a).
Proof. done. Qed.

Lemma preserves_raise {S A B} (f : S → B) e : preserves f (@raise S A e).
Proof. done. Qed.

Lemma preserves_get {S B} (f : S → B) : preserves f get.
Proof. done. Qed.

Lemma preserves_gets {S A B} (f : S → B) (g : S → A) : preserves f (gets g).
Proof. done. Qed.

Lemma preserves_modify {S B} (f : S → B) (g : S → S) :
  (∀ s, f (g s) = f s) → preserves f (modify g).
Proof. intros H s. apply H. Qed.

Lemma preserves_bind {S A A' B} (f : S → B) (m : ST S A) (k : A → ST S A') :
  preserves f m → (∀ a, preserves f (k a)) → preserves f (bind m k).
Proof.
  intros Hm Hk s. unfold bind. specialize (Hm s).
  destruct (m s) as [[a|e] s']; simpl in *; [by rewrite Hk|done].
Qed.

Lemma preserves_catch {S A B} (f : S → B) (m : ST S A) (h : string → ST S A) :
  preserves f m → (∀ e, preserves f (h e)) → preserves f (catch m h).
Proof.
  intros Hm Hh s. unfold catch. specialize (Hm s).
  destruct (m s) as [[a|e] s']; simpl in *; [done|by rewrite Hh].
Qed.

Lemma preserves_try_pass {S B} (f : S → B) (m : ST S unit) :
  preserves f m → preserves f (try_pass m).
Proof. intros Hm. apply preserves_catch; [done|]. intros _. apply preserves_ret. Qed.

Lemma preserves_zoom {S T A B C} (f : S → B) (g : T → C)
    (proj : S → T) (upd : T → S → S) (m : ST T A) :
  (∀ s t', g t' = g (proj s) → f (upd t' s) = f s) →
  preserves g m → preserves f (zoom proj upd m).
Proof.
  intros Hupd Hm s. unfold zoom. specialize (Hm (proj s)).
  destruct (m (proj s)) as [r t']. simpl in *. by apply Hupd.
Qed.

Lemma preserves_zoom_at {S T A B C} (f : S → B) (g : T → C)
    (proj : S → list T) (upd : list T → S → S) i e (m : ST T A) :
  (∀ s t t', proj s !! i = Some t → g t' = g t →
             f (upd (<[i := t']> (proj s)) s) = f s) →
  preserves g m → preserves f (zoom_at proj upd i e m).
Proof.
  intros Hupd Hm s. unfold zoom_at.
  destruct (proj s !! i) as [t|] eqn:Hi; [|done].
  specialize (Hm t). destruct (m t) as [r t']. simpl in *. by eapply Hupd.
Qed.

Lemma preserves_py_int {S B} (f : S → B) v : preserves f (@py_int S v).
Proof. by destruct v. Qed.

Lemma preserves_py_float {S B} (f : S → B) v : preserves f (@py_float S v).
Proof. by destruct v. Qed.

Lemma preserves_py_index {S B} (f : S → B) v i : preserves f (@py_index S v i).
Proof. destruct v as [| | | |xs]; try done. simpl. by destruct (xs !! i). Qed.

Lemma preserves_settings_attr {S B} (f : S → B) settings k :
  preserves f (@settings_attr S settings k).
Proof. unfold settings_attr. by destruct (getattr settings k). Qed.

(** Replacing an element by one with the same observation leaves the
    observations of the list as they were. *)
Lemma fmap_insert_same {T C} (g : T → C) (l : list T) i t t' :
  l !! i = Some t → g t' = g t → g <$> <[i := t']> l = g <$> l.
Proof.
  intros Hi Hg. rewrite list_fmap_insert, Hg.
  apply list_insert_id. by rewrite list_lookup_fmap, Hi.
Qed.

Create HintDb preserves discriminated.

#[local] Hint Resolve preserves_ret preserves_raise preserves_get preserves_gets
  preserves_py_int preserves_py_float preserves_py_index
  preserves_settings_attr : preserves.

(** Walk down a computation, leaving the steps that need an argument of
    their own. *)
Ltac preserves_step :=
  lazymatch goal with
  | |- preserves _ (bind _ _) => apply preserves_bind; [|intros ?]
  | |- preserves _ (try_pass _) => apply preserves_try_pass
  | |- preserves _ (catch _ _) => apply preserves_catch; [|intros ?]
  | |- preserves _ (match ?x with _ => _ end) => destruct x
  | |- preserves _ _ => solve [eauto with preserves]
  end.

Ltac preserves_all := repeat preserves_step.

(** * Fluid modifiers *)


Lemma fluid_count_zero obj :
  fluid_count obj = 0 ↔ list_find (λ m, md_type m = "FLUID") (ob_modifiers obj) = None.
Proof.
  unfold fluid_count. rewrite list_find_None, length_zero_iff_nil.
  induction (ob_modifiers obj) as [|m l IH]; simpl.
  - split; [by constructor|done].
  - rewrite Forall_cons, filter_cons. case_decide as Hm.
    + split; [done|]. by intros [? _].
    + rewrite IH. split; [by split|by intros [_ ?]].
Qed.

(** What [_ensure_fluid_modifier] does: it returns the first fluid modifier,
    leaving the object alone, or appends one and returns that. *)
Lemma ensure_fluid_modifier_run obj :
  (∃ i m, list_find (λ m, md_type m = "FLUID") (ob_modifiers obj) = Some (i, m)
          ∧ _ensure_fluid_modifier obj = (Ret (Some i), obj))
  ∨ (fluid_count obj = 0
     ∧ _ensure_fluid_modifier obj =
         (Ret (Some (length (ob_modifiers obj))),
          set_ob_modifiers
            (ob_modifiers obj ++ [new_fluid_modifier (ob_modifiers obj)]) obj)).
Proof.
  unfold _ensure_fluid_modifier. rewrite bind_get.
  destruct (list_find _ (ob_modifiers obj)) as [[i m]|] eqn:Hfind.
  - left. by exists i, m.
  - right. split; [by apply fluid_count_zero|done].
Qed.


Lemma preserves_at_modifier {A} i (m : ST Modifier A) :
  preserves md_type m → preserves modifier_types (at_modifier i m).
Proof.
  intros Hm. unfold at_modifier.
  apply (preserves_zoom_at _ md_type); [|done].
  intros o t t' Hi Ht. unfold modifier_types. simpl.
  by eapply fmap_insert_same.
Qed.

Lemma preserves_set_fluid_type i ty : preserves modifier_types (set_fluid_type i ty).
Proof. apply preserves_at_modifier. by apply preserves_modify. Qed.

Lemma preserves_set_ds i attr v : preserves modifier_types (set_ds i attr v).
Proof. apply preserves_at_modifier. by apply preserves_modify. Qed.

Lemma preserves_set_fs i attr v : preserves modifier_types (set_fs i attr v).
Proof. apply preserves_at_modifier. by apply preserves_modify. Qed.

#[local] Hint Resolve preserves_set_fluid_type preserves_set_ds preserves_set_fs
  : preserves.

Lemma preserves_elim {S A B} (f : S → B) (m : ST S A) s :
  preserves f m → f (m s).2 = f s.
Proof. intros H. apply H. Qed.

Lemma preserves_set_flow_type i :
  preserves modifier_types
    (at_modifier i
       (λ m, match md_flow_settings m with
             | Some fs =>
                 let '(r, fs') := set_flow_type fs in
                 (r, set_md_flow_settings (Some fs') m)
             | None => (Ret tt, m)
             end)).
Proof.
  apply preserves_at_modifier. intros m.
  destruct (md_flow_settings m) as [fs|]; [|done].
  by destruct (set_flow_type fs).
Qed.

#[local] Hint Resolve preserves_set_flow_type : preserves.







(** * The configurators, attribute by attribute *)

Lemma settings_attr_field {S B} (settings : Settings) k p (f : value → ST S B) s :
  prop_of k = Some p →
  bind (settings_attr settings k) f s = f (field settings k) s.
Proof.
  intros Hp. unfold settings_attr, field, getattr, bind. by rewrite Hp.
Qed.

Lemma field_int (settings : Settings) k lo hi d :
  prop_of k = Some (IntProperty lo hi d) → ∃ z, field settings k = VInt z.
Proof.
  intros Hp. unfold field, getattr. rewrite Hp. cbn. unfold rna_get.
  destruct (settings !! k) as [[]|]; cbn; eauto.
Qed.

Lemma field_float (settings : Settings) k lo hi d :
  prop_of k = Some (FloatProperty lo hi d) → ∃ q, field settings k = VFloat q.
Proof.
  intros Hp. unfold field, getattr. rewrite Hp. cbn. unfold rna_get.
  destruct (settings !! k) as [[]|]; cbn; eauto.
Qed.

Lemma field_bool (settings : Settings) k d :
  prop_of k = Some (BoolProperty d) → ∃ b, field settings k = VBool b.
Proof.
  intros Hp. unfold field, getattr. rewrite Hp. cbn. unfold rna_get.
  destruct (settings !! k) as [[| | | |]|]; cbn; eauto.
  repeat case_decide; cbn; eauto.
Qed.

Lemma set_md_domain_settings_same m :
  set_md_domain_settings (md_domain_settings m) m = m.
Proof. by destruct m. Qed.

Lemma set_md_flow_settings_same m :
  set_md_flow_settings (md_flow_settings m) m = m.
Proof. by destruct m. Qed.

Lemma set_ds_put i m ds attr v o :
  i < length (ob_modifiers o) →
  set_ds i attr v (put_ds i m ds o) =
    (Ret tt, put_ds i m (_set_if_has "FluidDomainSettings" attr v ds) o).
Proof.
  intros Hi. unfold set_ds, at_modifier, zoom_at, put_ds.
  cbn [ob_modifiers set_ob_modifiers]. rewrite list_lookup_insert_eq by done.
  unfold modify. by rewrite list_insert_insert_eq.
Qed.

Lemma set_fs_put i m fs attr v o :
  i < length (ob_modifiers o) →
  set_fs i attr v (put_fs i m fs o) =
    (Ret tt, put_fs i m (_set_if_has "FluidFlowSettings" attr v fs) o).
Proof.
  intros Hi. unfold set_fs, at_modifier, zoom_at, put_fs.
  cbn [ob_modifiers set_ob_modifiers]. rewrite list_lookup_insert_eq by done.
  unfold modify. by rewrite list_insert_insert_eq.
Qed.

Lemma set_fluid_type_run i ty o m :
  ob_modifiers o !! i = Some m →
  set_fluid_type i ty o =
    (Ret tt, set_ob_modifiers (<[i := typed_as ty m]> (ob_modifiers o)) o).
Proof.
  intros Hi. unfold set_fluid_type, at_modifier, zoom_at. by rewrite Hi.
Qed.

(** The fluid modifier that [_ensure_fluid_modifier] returns is a modifier
    of the object it leaves. *)
Lemma ensure_fluid_modifier_lookup obj :
  ∃ i m, _ensure_fluid_modifier obj = (Ret (Some i), (_ensure_fluid_modifier obj).2)
         ∧ ob_modifiers (_ensure_fluid_modifier obj).2 !! i = Some m
         ∧ md_type m = "FLUID".
Proof.
  destruct (ensure_fluid_modifier_run obj) as [(i & m & Hfind & Hrun)|[_ Hrun]].
  - exists i, m. rewrite Hrun. split; [done|].
    apply list_find_Some in Hfind as (Hi & Hty & _). done.
  - eexists _, _. rewrite Hrun. split; [done|]. cbn [snd ob_modifiers set_ob_modifiers].
    split; [|shelve]. rewrite lookup_app_r by done.
    by rewrite Nat.sub_diag.
    Unshelve. done.
Qed.

Lemma bind_py_int {S B} z (f : Z → ST S B) s : bind (py_int (VInt z)) f s = f z s.
Proof. done. Qed.

Lemma bind_py_float {S B} q (f : Q → ST S B) s :
  bind (py_float (VFloat q)) f s = f q s.
Proof. done. Qed.

Ltac read_field :=
  erewrite settings_attr_field; [|reflexivity].

(** [_apply_domain_settings] never raises; it leaves the object that
    [_ensure_fluid_modifier] leaves, with the fluid modifier configured. *)
Lemma apply_domain_settings_closed (settings : Settings) (obj : Object) :
  let obj1 := (_ensure_fluid_modifier obj).2 in
  ∃ i m,
    _ensure_fluid_modifier obj = (Ret (Some i), obj1)
    ∧ ob_modifiers obj1 !! i = Some m
    ∧ md_type m = "FLUID"
    ∧ _apply_domain_settings settings obj =
        (Ret tt,
         set_ob_modifiers
           (<[i := configured_domain settings m]> (ob_modifiers obj1)) obj1).
Proof.
  intros obj1. destruct (ensure_fluid_modifier_lookup obj) as (i & m & Hrun & Hi & Hty).
  fold obj1 in Hrun, Hi. exists i, m. do 3 (split; [done|]).
  assert (i < length (ob_modifiers obj1)) as Hlt by by eapply lookup_lt_Some.
  unfold _apply_domain_settings.
  rewrite (bind_run _ _ _ _ _ Hrun).
  rewrite (bind_run _ _ _ _ _ (set_fluid_type_run i "DOMAIN" obj1 m Hi)).
  rewrite bind_get. cbn [ob_modifiers set_ob_modifiers].
  rewrite list_lookup_insert_eq by done. cbn [mbind option_bind].
  unfold configured_domain. cbv zeta.
  destruct (md_domain_settings (typed_as "DOMAIN" m)) as [ds0|] eqn:Hds.
  2:{ cbn [fmap option_fmap option_map]. rewrite <- Hds.
      by rewrite set_md_domain_settings_same. }
  replace (set_ob_modifiers (<[i := typed_as "DOMAIN" m]> (ob_modifiers obj1)) obj1)
    with (put_ds i (typed_as "DOMAIN" m) ds0 obj1)
    by (unfold put_ds; by rewrite <- Hds, set_md_domain_settings_same).
  destruct (field_int settings "resolution_max" _ _ _ eq_refl) as [z1 Hz1].
  destruct (field_float settings "time_scale" _ _ _ eq_refl) as [q1 Hq1].
  destruct (field_float settings "vorticity" _ _ _ eq_refl) as [q2 Hq2].
  destruct (field_bool settings "use_adaptive_domain" _ eq_refl) as [b1 Hb1].
  destruct (field_int settings "adaptive_additional_res" _ _ _ eq_refl) as [z2 Hz2].
  destruct (field_int settings "adaptive_margin" _ _ _ eq_refl) as [z3 Hz3].
  destruct (field_bool settings "use_noise" _ eq_refl) as [b2 Hb2].
  destruct (field_float settings "noise_strength" _ _ _ eq_refl) as [q3 Hq3].
  destruct (field_float settings "noise_scale" _ _ _ eq_refl) as [q4 Hq4].
  destruct (field_bool settings "use_dissolve_smoke" _ eq_refl) as [b3 Hb3].
  destruct (field_int settings "dissolve_speed" _ _ _ eq_refl) as [z4 Hz4].
  destruct (field_float settings "burning_rate" _ _ _ eq_refl) as [q5 Hq5].
  destruct (field_float settings "flame_smoke" _ _ _ eq_refl) as [q6 Hq6].
  unfold write_all, domain_writes. cbn [foldl fst snd fmap option_fmap option_map].
  rewrite Hz1, Hq1, Hq2, Hb1, Hz2, Hz3, Hb2, Hq3, Hq4, Hb3, Hz4, Hq5, Hq6.
  rewrite (bind_run _ _ _ _ _ (set_ds_put _ _ _ _ _ _ Hlt)).
  read_field.
  rewrite (bind_run _ _ _ _ _ (set_ds_put _ _ _ _ _ _ Hlt)).
  rewrite (bind_run _ _ _ _ _ (set_ds_put _ _ _ _ _ _ Hlt)).
  read_field. rewrite Hz1, bind_py_int.
  rewrite (bind_run _ _ _ _ _ (set_ds_put _ _ _ _ _ _ Hlt)).
  read_field. rewrite Hq1, bind_py_float.
  rewrite (bind_run _ _ _ _ _ (set_ds_put _ _ _ _ _ _ Hlt)).
  read_field. rewrite Hq2, bind_py_float.
  rewrite (bind_run _ _ _ _ _ (set_ds_put _ _ _ _ _ _ Hlt)).
  read_field. rewrite Hb1.
  rewrite (bind_run _ _ _ _ _ (set_ds_put _ _ _ _ _ _ Hlt)).
  read_field. rewrite Hz2, bind_py_int.
  rewrite (bind_run _ _ _ _ _ (set_ds_put _ _ _ _ _ _ Hlt)).
  read_field. rewrite Hz3, bind_py_int.
  rewrite (bind_run _ _ _ _ _ (set_ds_put _ _ _ _ _ _ Hlt)).
  read_field. rewrite Hb2.
  rewrite (bind_run _ _ _ _ _ (set_ds_put _ _ _ _ _ _ Hlt)).
  read_field. rewrite Hq3, bind_py_float.
  rewrite (bind_run _ _ _ _ _ (set_ds_put _ _ _ _ _ _ Hlt)).
  read_field. rewrite Hq4, bind_py_float.
  rewrite (bind_run _ _ _ _ _ (set_ds_put _ _ _ _ _ _ Hlt)).
  read_field. rewrite Hb3.
  rewrite (bind_run _ _ _ _ _ (set_ds_put _ _ _ _ _ _ Hlt)).
  read_field. rewrite Hz4, bind_py_int.
  rewrite (bind_run _ _ _ _ _ (set_ds_put _ _ _ _ _ _ Hlt)).
  rewrite (bind_run _ _ _ _ _ (set_ds_put _ _ _ _ _ _ Hlt)).
  read_field. rewrite Hq5, bind_py_float.
  rewrite (bind_run _ _ _ _ _ (set_ds_put _ _ _ _ _ _ Hlt)).
  read_field. rewrite Hq6, bind_py_float.
  rewrite (set_ds_put _ _ _ _ _ _ Hlt).
  reflexivity.
Qed.

(** Choosing the flow type never raises. *)
Lemma set_flow_type_run fs : set_flow_type fs = (Ret tt, (set_flow_type fs).2).
Proof.
  unfold set_flow_type. rewrite bind_get.
  destruct (fs !! "flow_type") as [old|] eqn:Hold; [|done].
  unfold catch, try_pass, catch, rna_assign. rewrite Hold.
  destruct (rna_store "FluidFlowSettings" fs "flow_type" (VStr "FIRE")); [done|].
  cbv beta iota. rewrite ?Hold.
  by destruct (rna_store "FluidFlowSettings" fs "flow_type" (VStr "SMOKE")).
Qed.

Lemma flow_type_put i m fs o :
  i < length (ob_modifiers o) →
  at_modifier i
    (λ m, match md_flow_settings m with
          | Some fs =>
              let '(r, fs') := set_flow_type fs in
              (r, set_md_flow_settings (Some fs') m)
          | None => (Ret tt, m)
          end) (put_fs i m fs o) =
    (Ret tt, put_fs i m (set_flow_type fs).2 o).
Proof.
  intros Hi. unfold at_modifier, zoom_at, put_fs.
  cbn [ob_modifiers set_ob_modifiers]. rewrite list_lookup_insert_eq by done.
  cbn [md_flow_settings set_md_flow_settings]. rewrite (set_flow_type_run fs).
  by rewrite list_insert_insert_eq.
Qed.

(** [_apply_flow_settings] never raises; it leaves the object that
    [_ensure_fluid_modifier] leaves, with the fluid modifier configured. *)
Lemma apply_flow_settings_closed (settings : Settings) (obj : Object) :
  let obj1 := (_ensure_fluid_modifier obj).2 in
  ∃ i m,
    _ensure_fluid_modifier obj = (Ret (Some i), obj1)
    ∧ ob_modifiers obj1 !! i = Some m
    ∧ md_type m = "FLUID"
    ∧ _apply_flow_settings settings obj =
        (Ret tt,
         set_ob_modifiers
           (<[i := configured_flow settings m]> (ob_modifiers obj1)) obj1).
Proof.
  intros obj1. destruct (ensure_fluid_modifier_lookup obj) as (i & m & Hrun & Hi & Hty).
  fold obj1 in Hrun, Hi. exists i, m. do 3 (split; [done|]).
  assert (i < length (ob_modifiers obj1)) as Hlt by by eapply lookup_lt_Some.
  unfold _apply_flow_settings.
  rewrite (bind_run _ _ _ _ _ Hrun).
  rewrite (bind_run _ _ _ _ _ (set_fluid_type_run i "FLOW" obj1 m Hi)).
  rewrite bind_get. cbn [ob_modifiers set_ob_modifiers].
  rewrite list_lookup_insert_eq by done. cbn [mbind option_bind].
  unfold configured_flow. cbv zeta.
  destruct (md_flow_settings (typed_as "FLOW" m)) as [fs0|] eqn:Hfs.
  2:{ cbn [fmap option_fmap option_map]. rewrite <- Hfs.
      by rewrite set_md_flow_settings_same. }
  replace (set_ob_modifiers (<[i := typed_as "FLOW" m]> (ob_modifiers obj1)) obj1)
    with (put_fs i (typed_as "FLOW" m) fs0 obj1)
    by (unfold put_fs; by rewrite <- Hfs, set_md_flow_settings_same).
  destruct (field_float settings "flow_density" _ _ _ eq_refl) as [q1 Hq1].
  destruct (field_float settings "flow_temperature" _ _ _ eq_refl) as [q2 Hq2].
  destruct (field_float settings "flow_fuel" _ _ _ eq_refl) as [q3 Hq3].
  destruct (field_bool settings "use_initial_velocity" _ eq_refl) as [b1 Hb1].
  destruct (field_float settings "velocity_factor" _ _ _ eq_refl) as [q4 Hq4].
  unfold write_all, flow_writes. cbn [foldl fst snd fmap option_fmap option_map].
  rewrite Hq1, Hq2, Hq3, Hb1, Hq4.
  rewrite (bind_run _ _ _ _ _ (flow_type_put _ _ _ _ Hlt)).
  rewrite (bind_run _ _ _ _ _ (set_fs_put _ _ _ _ _ _ Hlt)).
  read_field. rewrite Hq1, bind_py_float.
  rewrite (bind_run _ _ _ _ _ (set_fs_put _ _ _ _ _ _ Hlt)).
  read_field. rewrite Hq2, bind_py_float.
  rewrite (bind_run _ _ _ _ _ (set_fs_put _ _ _ _ _ _ Hlt)).
  read_field. rewrite Hq3, bind_py_float.
  rewrite (bind_run _ _ _ _ _ (set_fs_put _ _ _ _ _ _ Hlt)).
  read_field. rewrite Hb1.
  rewrite (bind_run _ _ _ _ _ (set_fs_put _ _ _ _ _ _ Hlt)).
  read_field. rewrite Hq4, bind_py_float.
  rewrite (set_fs_put _ _ _ _ _ _ Hlt).
  reflexivity.
Qed.

Lemma ensure_fluid_modifier_others obj i :
  _ensure_fluid_modifier obj = (Ret (Some i), (_ensure_fluid_modifier obj).2) →
  touches_only_modifier obj (_ensure_fluid_modifier obj).2 i.
Proof.
  destruct (ensure_fluid_modifier_run obj) as [(i' & m & _ & Hrun)|[_ Hrun]];
    rewrite Hrun; cbn [snd]; intros [= <-]; repeat split; try done.
  intros j Hj. cbn [ob_modifiers set_ob_modifiers].
  destruct (decide (j < length (ob_modifiers obj))) as [Hlt|Hge].
  - by rewrite lookup_app_l.
  - rewrite lookup_app_r by lia.
    rewrite (lookup_ge_None_2 (ob_modifiers obj)) by lia.
    apply lookup_ge_None_2. simpl. lia.
Qed.

Lemma touches_only_modifier_insert obj obj1 i m :
  touches_only_modifier obj obj1 i →
  touches_only_modifier obj
    (set_ob_modifiers (<[i := m]> (ob_modifiers obj1)) obj1) i.
Proof.
  intros (? & ? & ? & ? & ? & Hmods). repeat split; try done.
  intros j Hj. cbn [ob_modifiers set_ob_modifiers].
  rewrite list_lookup_insert_ne by done. by apply Hmods.
Qed.

(** X6. Neither configurator ever raises, whatever the settings hold,
    whatever attributes the host version has and whichever values it
    refuses.  Each changes the object at most in the one fluid modifier
    that [_ensure_fluid_modifier] finds or adds: name, scale, attributes,
    selection, mesh data and every other modifier stay as they were. *)
Theorem configurators_never_raise (settings : Settings) (obj : Object) :
  ∃ i,
    (_ensure_fluid_modifier obj).1 = Ret (Some i)
    ∧ (∃ obj', _apply_domain_settings settings obj = (Ret tt, obj')
               ∧ touches_only_modifier obj obj' i)
    ∧ (∃ obj', _apply_flow_settings settings obj = (Ret tt, obj')
               ∧ touches_only_modifier obj obj' i).
Proof.
  destruct (apply_domain_settings_closed settings obj) as (i & m & Hrun & Hi & _ & Hd).
  destruct (apply_flow_settings_closed settings obj) as (i' & m' & Hrun' & _ & _ & Hf).
  assert (i' = i) as -> by (rewrite Hrun in Hrun'; by injection Hrun').
  exists i. split; [by rewrite Hrun|].
  pose proof (ensure_fluid_modifier_others obj i Hrun) as Hothers.
  split; eexists; (split; [eassumption|]); by apply touches_only_modifier_insert.
Qed.

(** * What the guarded writes store *)

Lemma set_if_has_dom struct attr v (a : attrs) :
  dom (_set_if_has struct attr v a) = dom a.
Proof.
  unfold _set_if_has. destruct (a !! attr) eqn:Ha; [|done].
  destruct (rna_store struct a attr v); [|done].
  apply dom_insert_lookup_L. by rewrite Ha.
Qed.

Lemma set_if_has_other struct attr v (a : attrs) k :
  k ≠ attr → _set_if_has struct attr v a !! k = a !! k.
Proof.
  intros Hk. unfold _set_if_has. destruct (a !! attr); [|done].
  destruct (rna_store struct a attr v); [|done].
  by rewrite lookup_insert_ne.
Qed.

Lemma write_all_dom struct writes : ∀ a : attrs,
  dom (write_all struct writes a) = dom a.
Proof.
  unfold write_all. induction writes as [|[k v] writes IH]; intros a; [done|].
  cbn [foldl fst snd]. by rewrite IH, set_if_has_dom.
Qed.

Lemma write_all_other struct writes k : ∀ a : attrs,
  k ∉ writes.*1 → write_all struct writes a !! k = a !! k.
Proof.
  unfold write_all. induction writes as [|[k' v] writes IH]; intros a Hk; [done|].
  rewrite fmap_cons, not_elem_of_cons in Hk. destruct Hk as [Hne Hk].
  cbn [foldl fst snd]. rewrite IH by done. by apply set_if_has_other.
Qed.

Lemma write_all_lookup struct writes : ∀ (a : attrs) attr v,
  (∀ a k x, k ∈ writes.*1 → rna_store struct a k x = Some x) →
  NoDup writes.*1 →
  (attr, v) ∈ writes → is_Some (a !! attr) →
  write_all struct writes a !! attr = Some v.
Proof.
  induction writes as [|[k x] writes IH]; intros a attr v Hstore Hnd Hin Ha.
  { by apply elem_of_nil in Hin. }
  rewrite fmap_cons in Hnd. apply NoDup_cons in Hnd as [Hk Hnd].
  change (write_all struct ((k, x) :: writes) a)
    with (write_all struct writes (_set_if_has struct k x a)).
  apply elem_of_cons in Hin as [[= -> ->]|Hin].
  - rewrite write_all_other by done. unfold _set_if_has.
    destruct Ha as [old ->]. rewrite Hstore by apply list_elem_of_here.
    apply lookup_insert_eq.
  - apply IH; try done.
    + intros a' k' x' Hk'. apply Hstore. rewrite fmap_cons. by apply list_elem_of_further.
    + apply elem_of_dom. rewrite set_if_has_dom. by apply elem_of_dom.
Qed.

Lemma typed_as_stored ty m :
  (∀ a x, rna_store "FluidModifier" a "fluid_type" x = Some x) →
  is_Some (md_attrs m !! "fluid_type") →
  md_attrs (typed_as ty m) !! "fluid_type" = Some (VStr ty)
  ∧ md_domain_settings (typed_as ty m) =
      (if bool_decide (ty = "DOMAIN")
       then Some (default host_domain_settings (md_domain_settings m)) else None)
  ∧ md_flow_settings (typed_as ty m) =
      (if bool_decide (ty = "FLOW")
       then Some (default host_flow_settings (md_flow_settings m)) else None).
Proof.
  intros Hstore [old Hold]. unfold typed_as, host_fluid_type_update, fluid_type_is.
  cbn [md_attrs md_domain_settings md_flow_settings set_md_attrs
         set_md_domain_settings set_md_flow_settings].
  unfold _set_if_has. rewrite Hold, Hstore, lookup_insert_eq. done.
Qed.

Lemma ensure_fluid_modifier_has_type obj i m :
  is_Some (host_modifier_attrs !! "fluid_type") →
  (∀ m, m ∈ ob_modifiers obj → md_type m = "FLUID" →
        is_Some (md_attrs m !! "fluid_type")) →
  _ensure_fluid_modifier obj = (Ret (Some i), (_ensure_fluid_modifier obj).2) →
  ob_modifiers (_ensure_fluid_modifier obj).2 !! i = Some m →
  is_Some (md_attrs m !! "fluid_type").
Proof.
  intros Hnew Hold.
  destruct (ensure_fluid_modifier_run obj) as [(i' & m' & Hfind & Hrun)|[_ Hrun]];
    rewrite Hrun; cbn [snd ob_modifiers set_ob_modifiers]; intros [= <-] Hi.
  - apply list_find_Some in Hfind as (Hi' & Hty & _).
    rewrite Hi' in Hi. injection Hi as <-.
    apply Hold; [by eapply list_elem_of_lookup_2|done].
  - rewrite lookup_app_r in Hi by done. rewrite Nat.sub_diag in Hi.
    injection Hi as <-. done.
Qed.

Lemma domain_writes_names settings : NoDup (domain_writes settings).*1.
Proof. apply (bool_decide_unpack _). by vm_compute. Qed.

Lemma flow_writes_names settings : NoDup (flow_writes settings).*1.
Proof. apply (bool_decide_unpack _). by vm_compute. Qed.

(** X8. On a host that stores what is assigned and whose fluid modifiers
    carry a [fluid_type], [_apply_domain_settings] turns the object's fluid
    modifier into a domain, whatever other modifiers the object has, and
    every attribute of the domain settings that the host version has reads
    afterwards as the source maps it: the gas type, the modular cache, the reaction switch,
    and the settings' fields, with [adaptive_additional_res] stored as
    [additional_res] and [adaptive_margin] as [adapt_margin].  Attributes
    the host version lacks are skipped and none is added. *)
Theorem domain_settings_follow_settings (settings : Settings) (obj : Object) :
  (∀ a x, rna_store "FluidModifier" a "fluid_type" x = Some x) →
  (∀ a k x, rna_store "FluidDomainSettings" a k x = Some x) →
  is_Some (host_modifier_attrs !! "fluid_type") →
  (∀ m, m ∈ ob_modifiers obj → md_type m = "FLUID" →
        is_Some (md_attrs m !! "fluid_type")) →
  ∃ i m m' ds',
    _ensure_fluid_modifier obj = (Ret (Some i), (_ensure_fluid_modifier obj).2)
    ∧ ob_modifiers (_ensure_fluid_modifier obj).2 !! i = Some m
    ∧ ob_modifiers (_apply_domain_settings settings obj).2 !! i = Some m'
    ∧ md_name m' = md_name m ∧ md_type m' = "FLUID"
    ∧ md_attrs m' !! "fluid_type" = Some (VStr "DOMAIN")
    ∧ md_domain_settings m' = Some ds'
    ∧ md_flow_settings m' = None
    ∧ let ds0 := default host_domain_settings (md_domain_settings m) in
      dom ds' = dom ds0
      ∧ (∀ attr v, (attr, v) ∈ domain_writes settings →
                   is_Some (ds0 !! attr) → ds' !! attr = Some v)
      ∧ (∀ attr, attr ∉ (domain_writes settings).*1 → ds' !! attr = ds0 !! attr).
Proof.
  intros Hty Hstore Hnew Hold.
  destruct (apply_domain_settings_closed settings obj) as (i & m & Hrun & Hi & Hfl & Hd).
  pose proof (ensure_fluid_modifier_has_type obj i m Hnew Hold Hrun Hi) as Hm.
  destruct (typed_as_stored "DOMAIN" m Hty Hm) as (Hattr & Hds & Hfs).
  exists i, m, (configured_domain settings m),
    (write_all "FluidDomainSettings" (domain_writes settings)
       (default host_domain_settings (md_domain_settings m))).
  split; [done|]. split; [done|]. rewrite Hd. cbn [snd ob_modifiers set_ob_modifiers].
  split; [apply list_lookup_insert_eq; by eapply lookup_lt_Some|].
  unfold configured_domain. cbv zeta.
  cbn [md_name md_type md_attrs md_domain_settings md_flow_settings
         set_md_domain_settings].
  rewrite Hds. split; [done|]. split; [done|]. split; [done|]. split; [done|].
  split; [done|]. cbv zeta.
  split; [apply write_all_dom|].
  split; [|intros attr; apply write_all_other].
  intros attr v Hin Hhas. apply write_all_lookup; try done.
  apply domain_writes_names.
Qed.

(** X9. On a host that stores what is assigned and whose fluid modifiers
    carry a [fluid_type], [_apply_flow_settings] turns the object's fluid
    modifier into a flow, whatever other modifiers the object has, makes
    it an inflow and writes density, temperature, fuel, initial velocity
    and velocity factor from the settings, on every attribute the host
    version has.
    The flow type becomes FIRE where the host takes FIRE, SMOKE where it
    refuses FIRE and takes SMOKE, and stays what it was where it refuses
    both. *)
Theorem flow_settings_follow_settings (settings : Settings) (obj : Object) :
  (∀ a x, rna_store "FluidModifier" a "fluid_type" x = Some x) →
  (∀ a k x, k ≠ "flow_type" → rna_store "FluidFlowSettings" a k x = Some x) →
  is_Some (host_modifier_attrs !! "fluid_type") →
  (∀ m, m ∈ ob_modifiers obj → md_type m = "FLUID" →
        is_Some (md_attrs m !! "fluid_type")) →
  ∃ i m m' fs',
    _ensure_fluid_modifier obj = (Ret (Some i), (_ensure_fluid_modifier obj).2)
    ∧ ob_modifiers (_ensure_fluid_modifier obj).2 !! i = Some m
    ∧ ob_modifiers (_apply_flow_settings settings obj).2 !! i = Some m'
    ∧ md_name m' = md_name m ∧ md_type m' = "FLUID"
    ∧ md_attrs m' !! "fluid_type" = Some (VStr "FLOW")
    ∧ md_flow_settings m' = Some fs'
    ∧ md_domain_settings m' = None
    ∧ let fs0 := default host_flow_settings (md_flow_settings m) in
      dom fs' = dom fs0
      ∧ (∀ attr v, (attr, v) ∈ flow_writes settings →
                   is_Some (fs0 !! attr) → fs' !! attr = Some v)
      ∧ fs' !! "flow_type" =
          (old ← fs0 !! "flow_type";
           Some match rna_store "FluidFlowSettings" fs0 "flow_type" (VStr "FIRE") with
                | Some fire => fire
                | None =>
                    match rna_store "FluidFlowSettings" fs0 "flow_type"
                            (VStr "SMOKE") with
                    | Some smoke => smoke
                    | None => old
                    end
                end).
Proof.
  intros Hty Hstore Hnew Hold.
  destruct (apply_flow_settings_closed settings obj) as (i & m & Hrun & Hi & Hfl & Hf).
  pose proof (ensure_fluid_modifier_has_type obj i m Hnew Hold Hrun Hi) as Hm.
  destruct (typed_as_stored "FLOW" m Hty Hm) as (Hattr & Hds & Hfs).
  set (fs0 := default host_flow_settings (md_flow_settings m)) in *.
  exists i, m, (configured_flow settings m),
    (write_all "FluidFlowSettings" (flow_writes settings) (set_flow_type fs0).2).
  split; [done|]. split; [done|]. rewrite Hf. cbn [snd ob_modifiers set_ob_modifiers].
  split; [apply list_lookup_insert_eq; by eapply lookup_lt_Some|].
  unfold configured_flow. cbv zeta.
  cbn [md_name md_type md_attrs md_domain_settings md_flow_settings
         set_md_flow_settings].
  rewrite Hfs. split; [done|]. split; [done|]. split; [done|]. split; [done|].
  split; [done|]. cbv zeta.
  assert ((set_flow_type fs0).2 =
            match fs0 !! "flow_type" with
            | Some old =>
                <["flow_type" :=
                    match rna_store "FluidFlowSettings" fs0 "flow_type" (VStr "FIRE") with
                    | Some fire => fire
                    | None =>
                        match rna_store "FluidFlowSettings" fs0 "flow_type"
                                (VStr "SMOKE") with
                        | Some smoke => smoke
                        | None => old
                        end
                    end]> fs0
            | None => fs0
            end) as Hflow.
  { unfold set_flow_type. rewrite bind_get.
    destruct (fs0 !! "flow_type") as [old|] eqn:Hold'; [|done].
    unfold catch, try_pass, catch, rna_assign. rewrite Hold'.
    destruct (rna_store "FluidFlowSettings" fs0 "flow_type" (VStr "FIRE")); [done|].
    cbv beta iota. rewrite ?Hold'.
    destruct (rna_store "FluidFlowSettings" fs0 "flow_type" (VStr "SMOKE")); [done|].
    cbn. by rewrite insert_id. }
  assert (dom (set_flow_type fs0).2 = dom fs0) as Hdom.
  { rewrite Hflow. destruct (fs0 !! "flow_type") eqn:Hold'; [|done].
    apply dom_insert_lookup_L. by rewrite Hold'. }
  fold fs0. split; [by rewrite write_all_dom|].
  split.
  - intros attr v Hin Hhas. apply write_all_lookup; try done.
    + intros a k x Hk. apply Hstore. intros ->. revert Hk.
      apply (bool_decide_unpack _). by vm_compute.
    + apply flow_writes_names.
    + apply elem_of_dom. rewrite Hdom. by apply elem_of_dom.
  - rewrite write_all_other by (apply (bool_decide_unpack _); by vm_compute).
    rewrite Hflow. destruct (fs0 !! "flow_type") eqn:Hold'; [|done].
    by rewrite lookup_insert_eq.
Qed.

(** * Looking the rig up *)

Lemma getattr_stored_name (settings : Settings) k :
  k ∈ ["domain_object_name"; "emitter_object_name"] →
  ∃ name, getattr settings k = Some (VStr name).
Proof.
  rewrite !elem_of_cons, elem_of_nil. unfold getattr.
  intros [->|[->|[]]].
  - change (prop_of "domain_object_name") with (Some (StringProperty "")).
    simpl. unfold rna_get.
    destruct (settings !! "domain_object_name") as [[]|]; simpl; eauto.
  - change (prop_of "emitter_object_name") with (Some (StringProperty "")).
    simpl. unfold rna_get.
    destruct (settings !! "emitter_object_name") as [[]|]; simpl; eauto.
Qed.

(** [_find_rig] never raises and changes nothing. *)
Lemma find_rig_run w :
  _find_rig w =
    (Ret (resolve "domain_object_name" w, resolve "emitter_object_name" w), w).
Proof.
  unfold _find_rig, resolve, stored_name. rewrite bind_get.
  destruct (getattr_stored_name (w_settings w) "domain_object_name")
    as [dn Hdn]; [repeat constructor|].
  destruct (getattr_stored_name (w_settings w) "emitter_object_name")
    as [en Hen]; [repeat constructor|].
  unfold settings_attr. rewrite Hdn, Hen. done.
Qed.

(** C4. When the domain name or the emitter name stored in the settings
    does not resolve to an object, [update_rig] reports a warning, returns
    CANCELLED and changes nothing else: objects (with their modifiers),
    collections, materials, settings, active object, bake state and host
    calls are what they were. *)
Theorem update_rig_without_rig (w : World) (dom emi : option nat) :
  _find_rig w = (Ret (dom, emi), w) →
  dom = None ∨ emi = None →
  update_rig w =
    (Ret CANCELLED,
     reported "WARNING" "No rig found. Click Create Fire Rig first." w)
  ∧ let w' := (update_rig w).2 in
    w_objects w' = w_objects w
    ∧ w_collections w' = w_collections w
    ∧ w_scene_objects w' = w_scene_objects w
    ∧ w_scene_children w' = w_scene_children w
    ∧ w_materials w' = w_materials w
    ∧ w_settings w' = w_settings w
    ∧ w_active w' = w_active w
    ∧ w_baked w' = w_baked w
    ∧ w_calls w' = w_calls w
    ∧ w_reports w' =
        w_reports w ++ [("WARNING", "No rig found. Click Create Fire Rig first.")].
Proof.
  intros Hfind Hnone.
  assert (update_rig w =
            (Ret CANCELLED,
             reported "WARNING" "No rig found. Click Create Fire Rig first." w))
    as Hrun.
  { unfold update_rig. rewrite (bind_run _ _ _ _ _ Hfind).
    destruct Hnone as [-> | ->]; [done|]. by destruct dom. }
  split; [done|]. rewrite Hrun. done.
Qed.

(** * Baking *)

(** The selection housekeeping before a bake never raises, reports nothing
    and calls no fluid operator. *)
Lemma housekeeping_run domain w :
  ∃ w1 hk, try_pass (select_all_deselect;; select_set domain;; set_active domain) w
           = (Ret tt, w1)
           ∧ w_reports w1 = w_reports w
           ∧ w_calls w1 = w_calls w ++ hk
           ∧ filter is_fluid_call hk = [].
Proof.
  unfold try_pass, catch, bind, select_all_deselect, select_set, set_active,
    host_call, logged.
  destruct (host_raises "object.select_all" w);
    [by eexists _, ["object.select_all"]|].
  destruct (host_raises "object.select_set" _);
    [eexists _, ["object.select_all"; "object.select_set"];
     split; [done|]; split; [done|]; split; [|done];
     simpl; by rewrite <- !(assoc_L (++))|].
  destruct (host_raises "view_layer.objects.active" _);
    eexists _, ["object.select_all"; "object.select_set";
                "view_layer.objects.active"];
    (split; [done|]); (split; [done|]); (split; [|done]);
    simpl; by rewrite <- !(assoc_L (++)).
Qed.

Lemma fluid_calls_since w w1 hk calls :
  w_calls w1 = w_calls w ++ hk →
  filter is_fluid_call hk = [] →
  filter is_fluid_call (drop (length (w_calls w)) (w_calls w1 ++ calls)) =
    filter is_fluid_call calls.
Proof.
  intros -> Hhk.
  by rewrite <- (assoc_L (++)), drop_app_length, filter_app, Hhk.
Qed.

(** C9. [bake_all] never raises.  Without a resolvable domain it reports a
    warning, returns CANCELLED and does nothing else.  With one it calls
    the host's bake once; if that raises it calls free and then bake once
    more (bake only if free did not raise); if the retry raises it reports
    an error and returns CANCELLED.  The fluid operators called are
    therefore bake, or bake-free, or bake-free-bake, and nothing more. *)
Theorem bake_all_retries_once (w : World) :
  ∃ st w' dom emi,
    bake_all w = (Ret st, w')
    ∧ _find_rig w = (Ret (dom, emi), w)
    ∧ match dom with
      | None =>
          st = CANCELLED
          ∧ w' = reported "WARNING" "No domain found. Create the rig first." w
      | Some domain =>
          ∃ w1,
            try_pass (select_all_deselect;; select_set domain;; set_active domain) w
              = (Ret tt, w1)
            ∧ let fluid := filter is_fluid_call (calls_since w w') in
              match host_raises "fluid.bake_all" w1 with
              | None =>
                  st = FINISHED ∧ fluid = ["fluid.bake_all"]
                  ∧ w_reports w' = w_reports w ∧ w_baked w' = true
              | Some _ =>
                  let w2 := logged "fluid.bake_all" w1 in
                  match host_raises "fluid.free_all" w2 with
                  | Some e =>
                      st = CANCELLED
                      ∧ fluid = ["fluid.bake_all"; "fluid.free_all"]
                      ∧ w_reports w' =
                          w_reports w ++ [("ERROR", "Bake failed: " +:+ e)]
                  | None =>
                      let w3 := set_w_baked false (logged "fluid.free_all" w2) in
                      match host_raises "fluid.bake_all" w3 with
                      | Some e =>
                          st = CANCELLED
                          ∧ fluid = ["fluid.bake_all"; "fluid.free_all";
                                     "fluid.bake_all"]
                          ∧ w_reports w' =
                              w_reports w ++ [("ERROR", "Bake failed: " +:+ e)]
                      | None =>
                          st = FINISHED
                          ∧ fluid = ["fluid.bake_all"; "fluid.free_all";
                                     "fluid.bake_all"]
                          ∧ w_reports w' = w_reports w ∧ w_baked w' = true
                      end
                  end
              end
      end.
Proof.
  unfold bake_all. rewrite (bind_run _ _ _ _ _ (find_rig_run w)).
  cbv beta. cbn [fst]. rewrite (find_rig_run w).
  destruct (resolve "domain_object_name" w) as [domain|].
  2:{ eexists _, _, None, _. split; [reflexivity|]. split; [reflexivity|].
      split; reflexivity. }
  destruct (housekeeping_run domain w) as (w1 & hk & Hhk & Hrep & Hcalls & Hfl).
  rewrite (bind_run _ _ _ _ _ Hhk).
  unfold catch, bind, fluid_bake_all, fluid_free_all, host_call, report, modify,
    calls_since.
  destruct (host_raises "fluid.bake_all" w1) as [e1|] eqn:Hb1.
  2:{ eexists _, _, (Some domain), _. split; [done|]. split; [done|].
      exists w1. split; [done|]. rewrite Hb1. simpl.
      split; [done|]. split; [|done].
      by rewrite (fluid_calls_since _ _ _ _ Hcalls Hfl). }
  destruct (host_raises "fluid.free_all" (logged "fluid.bake_all" w1))
    as [e2|] eqn:Hf.
  { eexists _, _, (Some domain), _. split; [done|]. split; [done|].
    exists w1. split; [done|]. rewrite Hb1. simpl. rewrite Hf.
    split; [done|]. split; [|by rewrite Hrep].
    simpl. rewrite <- (assoc_L (++)).
    by rewrite (fluid_calls_since _ _ _ _ Hcalls Hfl). }
  destruct (host_raises "fluid.bake_all"
              (set_w_baked false (logged "fluid.free_all" (logged "fluid.bake_all" w1))))
    as [e3|] eqn:Hb2.
  - eexists _, _, (Some domain), _. split; [done|]. split; [done|].
    exists w1. split; [done|]. rewrite Hb1. simpl. rewrite Hf, Hb2.
    split; [done|]. split; [|by rewrite Hrep].
    simpl. rewrite <- !(assoc_L (++)).
    by rewrite (fluid_calls_since _ _ _ _ Hcalls Hfl).
  - eexists _, _, (Some domain), _. split; [done|]. split; [done|].
    exists w1. split; [done|]. rewrite Hb1. simpl. rewrite Hf, Hb2.
    split; [done|]. split; [|done].
    simpl. rewrite <- !(assoc_L (++)).
    by rewrite (fluid_calls_since _ _ _ _ Hcalls Hfl).
Qed.

(** * Rebuilding the shader *)

(** Work on the node tree that starts by clearing it does not depend on
    the tree it finds. *)
Lemma with_node_tree_twice {A} (m : ST NodeTree A) mat :
  (∀ t1 t2, m t1 = m t2) →
  let '(r, mat') := with_node_tree m mat in
  with_node_tree m mat' = (r, mat').
Proof.
  intros Hm. unfold with_node_tree.
  destruct (ma_node_tree mat) as [t|] eqn:Ht; [|by rewrite Ht].
  destruct (m t) as [r t'] eqn:Hmt. simpl.
  by rewrite (Hm t' t), Hmt.
Qed.

Lemma with_node_tree_shape {A} (m : ST NodeTree A) mat t :
  ma_node_tree mat = Some t →
  ∃ t', (with_node_tree m mat).2 = set_ma_node_tree (Some t') mat.
Proof.
  intros Ht. unfold with_node_tree. rewrite Ht.
  destruct (m t) as [r t']. by exists t'.
Qed.

(** The graph that [_build_volume_shader] leaves does not depend on the
    graph it finds: building again on its own result gives that result
    again, exception or not. *)
Lemma build_volume_shader_twice fs sd ramp mat :
  let '(r, mat') := _build_volume_shader fs sd ramp mat in
  _build_volume_shader fs sd ramp mat' = (r, mat').
Proof.
  unfold _build_volume_shader. apply with_node_tree_twice.
  intros t1 t2. unfold nodes_clear. by rewrite !bind_modify.
Qed.

(** A build keeps the material's name and, when nodes are enabled, leaves
    them enabled with some tree. *)
Lemma build_volume_shader_shape fs sd ramp mat t :
  ma_node_tree mat = Some t →
  ∃ t', (_build_volume_shader fs sd ramp mat).2 = set_ma_node_tree (Some t') mat.
Proof. apply with_node_tree_shape. Qed.

Lemma find_by_name_Some {A} (name_of : A → string) n l i :
  find_by_name name_of n l = Some i ↔
  ∃ x, l !! i = Some x ∧ name_of x = n
       ∧ ∀ j y, l !! j = Some y → j < i → name_of y ≠ n.
Proof.
  unfold find_by_name. split.
  - destruct (list_find _ l) as [[i' x]|] eqn:Hfind; [|done].
    intros [= <-]. apply list_find_Some in Hfind as (? & ? & ?). eauto.
  - intros (x & Hi & Hx & Hlt).
    assert (list_find (λ x, name_of x = n) l = Some (i, x)) as ->; [|done].
    apply list_find_Some. eauto.
Qed.

Lemma find_by_name_None {A} (name_of : A → string) n l :
  find_by_name name_of n l = None ↔ Forall (λ x, name_of x ≠ n) l.
Proof.
  unfold find_by_name. rewrite fmap_None. apply list_find_None.
Qed.

Lemma find_by_name_insert {A} (name_of : A → string) n l i x :
  find_by_name name_of n l = Some i → name_of x = n →
  find_by_name name_of n (<[i := x]> l) = Some i.
Proof.
  rewrite !find_by_name_Some. intros (y & Hi & Hy & Hlt) Hx.
  exists x. split; [|split; [done|]].
  - apply list_lookup_insert_eq. by eapply lookup_lt_Some.
  - intros j z Hj Hji. rewrite list_lookup_insert_ne in Hj by lia. eauto.
Qed.

Lemma find_by_name_snoc {A} (name_of : A → string) n l x :
  find_by_name name_of n l = None → name_of x = n →
  find_by_name name_of n (l ++ [x]) = Some (length l).
Proof.
  rewrite find_by_name_None, find_by_name_Some. intros Hl Hx.
  exists x. split; [|split; [done|]].
  - by rewrite lookup_app_r, Nat.sub_diag by lia.
  - intros j y Hj Hlt. rewrite lookup_app_l in Hj by done.
    by eapply (Forall_lookup_1 _ _ _ _ Hl).
Qed.

(** What [_get_or_create_material] does: the material of that name, found
    or appended, has nodes enabled; its index is returned. *)
Lemma get_or_create_material_run name w :
  ∃ i l m,
    _get_or_create_material name w =
      (Ret i, set_w_materials (<[i := enable_nodes m]> l) w)
    ∧ l !! i = Some m ∧ ma_name m = name
    ∧ find_by_name ma_name name l = Some i
    ∧ (l = w_materials w ∨
       (find_by_name ma_name name (w_materials w) = None
        ∧ l = w_materials w ++ [{| ma_name := name; ma_use_nodes := false;
                                   ma_node_tree := None |}])).
Proof.
  unfold _get_or_create_material. rewrite bind_get.
  destruct (find_by_name ma_name name (w_materials w)) as [i|] eqn:Hfind.
  - pose proof Hfind as (m & Hi & Hm & _)%find_by_name_Some.
    exists i, (w_materials w), m.
    split; [|by eauto].
    rewrite bind_ret. unfold at_material, bind, zoom_at, modify. by rewrite Hi.
  - eexists (length (w_materials w)), _, _.
    split; [|split; [|split; [|split; [|right; done]]]].
    + unfold at_material, bind, zoom_at, modify, ret. simpl.
      rewrite lookup_app_r, Nat.sub_diag by lia. simpl. done.
    + by rewrite lookup_app_r, Nat.sub_diag by lia.
    + done.
    + by apply find_by_name_snoc.
Qed.

Lemma enable_nodes_enabled m t :
  ma_use_nodes m = true → ma_node_tree m = Some t → enable_nodes m = m.
Proof. destruct m. simpl. by intros -> ->. Qed.

Lemma set_w_materials_same w : set_w_materials (w_materials w) w = w.
Proof. by destruct w. Qed.

Lemma set_w_objects_same w : set_w_objects (w_objects w) w = w.
Proof. by destruct w. Qed.

(** On a document where the material is already there with nodes enabled,
    [_get_or_create_material] returns it and changes nothing. *)
Lemma get_or_create_material_again name w i m t :
  find_by_name ma_name name (w_materials w) = Some i →
  w_materials w !! i = Some m →
  ma_use_nodes m = true → ma_node_tree m = Some t →
  _get_or_create_material name w = (Ret i, w).
Proof.
  intros Hfind Hi Hu Ht. unfold _get_or_create_material.
  rewrite bind_get, Hfind, bind_ret.
  unfold at_material, bind, zoom_at, modify. rewrite Hi. simpl.
  rewrite (enable_nodes_enabled _ _ Hu Ht), list_insert_id by done.
  by rewrite set_w_materials_same.
Qed.

Lemma set_first_material_twice mat obj :
  set_first_material mat (set_first_material mat obj) = set_first_material mat obj.
Proof.
  unfold set_first_material. destruct obj as [? ? ? ? [[[|? ?] ?]|] ?]; done.
Qed.

(** Building the shader of material [i] and putting it in the domain's
    first slot, twice over. *)
Lemma shade_and_assign_twice i domain_obj fs sd ramp w m t :
  w_materials w !! i = Some m → ma_node_tree m = Some t →
  let step := (at_material i (_build_volume_shader fs sd ramp);;
               at_object domain_obj (modify (set_first_material i))) in
  let '(r, w') := step w in
  step w' = (r, w')
  ∧ ∃ m' t', w_materials w' = <[i := m']> (w_materials w)
             ∧ ma_name m' = ma_name m ∧ ma_use_nodes m' = ma_use_nodes m
             ∧ ma_node_tree m' = Some t'.
Proof.
  intros Hi Ht. cbv zeta.
  pose proof (build_volume_shader_twice fs sd ramp m) as Htwice.
  destruct (build_volume_shader_shape fs sd ramp m t Ht) as [t' Hshape].
  destruct (_build_volume_shader fs sd ramp m) as [rb m'] eqn:Hbuild.
  simpl in Hshape. subst m'.
  assert (Hlt : i < length (w_materials w)) by by eapply lookup_lt_Some.
  unfold at_material, at_object, bind, zoom_at, modify. rewrite Hi, Hbuild.
  destruct rb as [[]|e].
  - simpl. destruct (w_objects w !! domain_obj) as [o|] eqn:Hd; simpl.
    + rewrite list_lookup_insert_eq, Htwice by done. simpl.
      rewrite list_lookup_insert_eq by by eapply lookup_lt_Some.
      rewrite !list_insert_insert_eq, set_first_material_twice.
      split; [done|]. by eexists _, _.
    + rewrite list_lookup_insert_eq, Htwice by done. simpl. rewrite Hd.
      rewrite !list_insert_insert_eq. split; [done|]. by eexists _, _.
  - simpl. rewrite list_lookup_insert_eq, Htwice by done.
    rewrite !list_insert_insert_eq. split; [done|]. by eexists _, _.
Qed.

(** A declared property always reads. *)
Lemma settings_attr_declared {S} (settings : Settings) k :
  hasattr k = true →
  ∃ v, ∀ s : S, settings_attr settings k s = (Ret v, s).
Proof.
  unfold hasattr, settings_attr, getattr. intros [p Hp]%bool_decide_eq_true.
  rewrite Hp. by eexists.
Qed.

(** C6. Rebuilding the shader with the same settings is idempotent.  The
    graph [_build_volume_shader] leaves is a function of its arguments
    alone, so building again on the result returns the same outcome and the
    same material: the same nodes, links, ramp stops, multiply factors and
    volume-shader inputs, hence the same counts.  The same holds one level
    up for [_ensure_domain_material]: a second call leaves the document,
    material and material slot included, exactly as the first left it. *)
Theorem shader_rebuild_idempotent
    (flame_strength smoke_density : value) (flame_ramp : list (Q * value))
    (mat : Material) (domain_obj : nat) (settings : Settings) (w : World) :
  (let '(r, mat') :=
     _build_volume_shader flame_strength smoke_density flame_ramp mat in
   _build_volume_shader flame_strength smoke_density flame_ramp mat' = (r, mat'))
  ∧ (let '(r, w') := _ensure_domain_material domain_obj settings w in
     _ensure_domain_material domain_obj settings w' = (r, w')).
Proof.
  split; [apply build_volume_shader_twice|].
  unfold _ensure_domain_material.
  destruct (get_or_create_material_run MATERIAL_NAME w)
    as (i & l & m & Hrun & Hi & Hname & Hfind & _).
  rewrite (bind_run _ _ _ _ _ Hrun).
  destruct (settings_attr_declared (S:=World) settings "flame_color_low") as [low Hlow]; [done|].
  destruct (settings_attr_declared (S:=World) settings "flame_color_mid") as [mid Hmid]; [done|].
  destruct (settings_attr_declared (S:=World) settings "flame_color_high") as [high Hhigh]; [done|].
  destruct (settings_attr_declared (S:=World) settings "flame_strength") as [fs Hfs]; [done|].
  destruct (settings_attr_declared (S:=World) settings "smoke_density") as [sd Hsd]; [done|].
  rewrite (bind_run _ _ _ _ _ (Hlow _)), (bind_run _ _ _ _ _ (Hmid _)),
    (bind_run _ _ _ _ _ (Hhigh _)), (bind_run _ _ _ _ _ (Hfs _)),
    (bind_run _ _ _ _ _ (Hsd _)).
  cbv zeta.
  set (wa := set_w_materials (<[i := enable_nodes m]> l) w).
  assert (Hlt : i < length l) by by eapply lookup_lt_Some.
  assert (w_materials wa !! i = Some (enable_nodes m)) as Hia
    by by apply list_lookup_insert_eq.
  pose proof (shade_and_assign_twice i domain_obj fs sd
                [(0.0%Q, low); (0.25%Q, mid); (1.0%Q, high)] wa
                (enable_nodes m) _ Hia eq_refl) as Htwice.
  cbv zeta in Htwice.
  destruct ((at_material i (_build_volume_shader fs sd
               [(0.0%Q, low); (0.25%Q, mid); (1.0%Q, high)]);;
             at_object domain_obj (modify (set_first_material i))) wa)
    as [r w'] eqn:Hstep.
  destruct Htwice as (Hagain & m' & t' & Hmats & Hn' & Hu' & Ht').
  assert (_get_or_create_material MATERIAL_NAME w' = (Ret i, w')) as Hget.
  { apply (get_or_create_material_again _ _ _ m' t'); [| |done|done].
    - rewrite Hmats. unfold wa. simpl. rewrite list_insert_insert_eq.
      apply find_by_name_insert; [done|]. by rewrite Hn'.
    - rewrite Hmats. apply list_lookup_insert_eq.
      unfold wa. simpl. by rewrite length_insert. }
  rewrite (bind_run _ _ _ _ _ Hget).
  rewrite (bind_run _ _ _ _ _ (Hlow _)), (bind_run _ _ _ _ _ (Hmid _)),
    (bind_run _ _ _ _ _ (Hhigh _)), (bind_run _ _ _ _ _ (Hfs _)),
    (bind_run _ _ _ _ _ (Hsd _)).
  exact Hagain.
Qed.

(** * The graph that the shader builder leaves *)

Lemma bind_inv {S A B} (m : ST S A) (k : A → ST S B) s r s' :
  bind m k s = (Ret r, s') →
  ∃ a s1, m s = (Ret a, s1) ∧ k a s1 = (Ret r, s').
Proof.
  unfold bind. destruct (m s) as [[a|e] s1]; [|done]. intros H. by exists a, s1.
Qed.

Lemma preserves_run {S A B} (f : S → B) (m : ST S A) s r s' :
  preserves f m → m s = (r, s') → f s' = f s.
Proof. intros Hm Hrun. specialize (Hm s). by rewrite Hrun in Hm. Qed.

Lemma socket_get_names name (l : list Socket) :
  socket_get name l = name_index name (sk_name <$> l).
Proof.
  unfold socket_get, name_index. rewrite list_find_fmap.
  by destruct (list_find _ l) as [[i x]|].
Qed.

Lemma name_index_Some name names i :
  name_index name names = Some i → names !! i = Some name.
Proof.
  unfold name_index. intros H. apply fmap_Some in H as ([j x] & Hfind & ->).
  apply list_find_Some in Hfind as (Hj & -> & _). done.
Qed.

Lemma name_index_differ n1 n2 names i j :
  name_index n1 names = Some i → name_index n2 names = Some j → n1 ≠ n2 → i ≠ j.
Proof.
  intros H1%name_index_Some H2%name_index_Some Hne ->.
  rewrite H1 in H2. by injection H2.
Qed.

Lemma preserves_skeleton_at_node {A} n (m : ST Node A) :
  preserves node_kind m → preserves skeleton (at_node n m).
Proof.
  intros Hm. apply (preserves_zoom_at skeleton node_kind); [|done].
  intros t nd nd' Hn Hkind. unfold skeleton. cbn [nodes links set_nodes].
  by rewrite (fmap_insert_same node_kind _ _ _ _ Hn Hkind).
Qed.

Lemma preserves_skeleton_node_assign n attr v :
  preserves skeleton (node_assign n attr v).
Proof.
  apply preserves_skeleton_at_node.
  apply (preserves_zoom node_kind (λ _ : attrs, tt)); [done|].
  by intros a.
Qed.

Lemma preserves_skeleton_at_input {A} sock (m : ST attrs A) :
  preserves skeleton (at_input sock m).
Proof.
  apply preserves_skeleton_at_node.
  apply (preserves_zoom_at node_kind sk_name).
  - intros nd sk sk' Hi Hname. unfold node_kind.
    cbn [nd_idname nd_inputs nd_outputs set_nd_inputs].
    by rewrite (fmap_insert_same sk_name _ _ _ _ Hi Hname).
  - apply (preserves_zoom sk_name (λ _ : attrs, tt)); [done|].
    intros a. by destruct (m a).
Qed.

Lemma preserves_skeleton_input_set_if_has sock attr v :
  preserves skeleton (input_set_if_has sock attr v).
Proof.
  destruct sock as [sock|]; [|done]. apply preserves_skeleton_at_input.
Qed.

Lemma preserves_skeleton_node_set_color_ramp n elements :
  preserves skeleton (node_set_color_ramp n elements).
Proof.
  apply preserves_skeleton_at_node. intros nd.
  destruct (nd_color_ramp nd) as [cr|]; [|done].
  by destruct (_set_color_ramp_elements elements cr).
Qed.

Lemma at_node_get_run {A} n (f : Node → A) t r t' :
  at_node n (nd <- get;; ret (f nd)) t = (Ret r, t') →
  t' = t ∧ ∃ nd, nodes t !! n = Some nd ∧ r = f nd.
Proof.
  unfold at_node, zoom_at. destruct (nodes t !! n) as [nd|] eqn:Hn; [|done].
  rewrite bind_get. intros [= <- <-]. split; [|by exists nd].
  rewrite list_insert_id by done. by destruct t.
Qed.

Lemma outputs_get_run n name t r t' :
  outputs_get n name t = (Ret r, t') →
  t' = t
  ∧ ∃ k, (node_kind <$> nodes t) !! n = Some k
         ∧ r = (λ i, (n, i)) <$> name_index name k.2.
Proof.
  intros H. apply at_node_get_run in H as (-> & nd & Hn & ->).
  split; [done|]. exists (node_kind nd).
  rewrite list_lookup_fmap, Hn. split; [done|]. by rewrite socket_get_names.
Qed.

Lemma inputs_get_run n name t r t' :
  inputs_get n name t = (Ret r, t') →
  t' = t
  ∧ ∃ k, (node_kind <$> nodes t) !! n = Some k
         ∧ r = (λ i, (n, i)) <$> name_index name k.1.2.
Proof.
  intros H. apply at_node_get_run in H as (-> & nd & Hn & ->).
  split; [done|]. exists (node_kind nd).
  rewrite list_lookup_fmap, Hn. split; [done|]. by rewrite socket_get_names.
Qed.

Lemma outputs_at_run n i t r t' :
  outputs_at n i t = (Ret r, t') → t' = t ∧ r = Some (n, i).
Proof.
  unfold outputs_at, at_node, zoom_at.
  destruct (nodes t !! n) as [nd|] eqn:Hn; [|done]. rewrite bind_get.
  destruct (nd_outputs nd !! i); [|done]. intros [= <- <-]. split; [|done].
  rewrite list_insert_id by done. by destruct t.
Qed.

Lemma inputs_at_run n i t r t' :
  inputs_at n i t = (Ret r, t') → t' = t ∧ r = Some (n, i).
Proof.
  unfold inputs_at, at_node, zoom_at.
  destruct (nodes t !! n) as [nd|] eqn:Hn; [|done]. rewrite bind_get.
  destruct (nd_inputs nd !! i); [|done]. intros [= <- <-]. split; [|done].
  rewrite list_insert_id by done. by destruct t.
Qed.

Lemma links_new_run a b t r t' :
  links_new a b t = (Ret r, t') →
  ∃ a' b', a = Some a' ∧ b = Some b'
           ∧ node_kind <$> nodes t' = node_kind <$> nodes t
           ∧ links t' = filter (λ l, link_to l ≠ b') (links t)
                          ++ [{| link_from := a'; link_to := b' |}].
Proof.
  destruct a as [a'|], b as [b'|]; try done. intros [= _ <-]. by exists a', b'.
Qed.

Lemma nodes_new_run idname t r t' :
  nodes_new idname t = (Ret r, t') →
  r = length (node_kind <$> nodes t)
  ∧ node_kind <$> nodes t' =
      (node_kind <$> nodes t) ++ [node_kind (host_new_node idname)]
  ∧ links t' = links t.
Proof.
  intros [= <- <-]. rewrite length_fmap. cbn [nodes links set_nodes].
  by rewrite fmap_app.
Qed.

Lemma filter_keeps {A} (P : A → Prop) `{!∀ x, Decision (P x)} (l : list A) :
  Forall P l → filter P l = l.
Proof.
  induction 1 as [|x l Hx _ IH]; [done|].
  by rewrite filter_cons, decide_True, IH.
Qed.

Create HintDb graph discriminated.

#[local] Hint Resolve preserves_skeleton_node_assign preserves_skeleton_at_input
  preserves_skeleton_input_set_if_has preserves_skeleton_node_set_color_ramp
  preserves_py_float : graph.

Lemma nodes_new_next idname t r t' K :
  node_kind <$> nodes t = K →
  nodes_new idname t = (Ret r, t') →
  r = length K
  ∧ node_kind <$> nodes t' = K ++ [node_kind (host_new_node idname)]
  ∧ links t' = links t.
Proof. intros <- H. by apply nodes_new_run. Qed.

(** One step of the builder that leaves the graph as it is. *)
Ltac graph_local H Hk Hl :=
  let Hs := fresh "Hs" in
  let Hk' := fresh "Hk" in
  let Hl' := fresh "Hl" in
  apply bind_inv in H as (? & ? & Hs & H);
  apply (preserves_run skeleton) in Hs; [|solve [eauto with graph]];
  unfold skeleton in Hs; injection Hs as Hk' Hl';
  rewrite Hk in Hk'; rewrite Hl in Hl'; clear Hk Hl;
  rename Hk' into Hk; rename Hl' into Hl.

(** A step that adds a node. *)
Ltac graph_new H Hk Hl :=
  let Hs := fresh "Hs" in
  let Hk' := fresh "Hk" in
  let Hl' := fresh "Hl" in
  apply bind_inv in H as (? & ? & Hs & H);
  destruct (nodes_new_next _ _ _ _ _ Hk Hs) as (-> & Hk' & Hl');
  rewrite Hl in Hl'; clear Hk Hl Hs; cbn [app length] in Hk', H;
  rename Hk' into Hk; rename Hl' into Hl.

Lemma preserves_skeleton_input_assign n i attr v :
  preserves skeleton (input_assign n i attr v).
Proof. apply preserves_skeleton_at_input. Qed.

#[local] Hint Resolve preserves_skeleton_input_assign : graph.

(** Reading a socket by index, by name on the output side, by name on the
    input side; making a link to a socket that holds none yet. *)
Ltac graph_outputs_at H :=
  let Hs := fresh "Hs" in
  apply bind_inv in H as (? & ? & Hs & H);
  apply outputs_at_run in Hs as (-> & ->).

Ltac graph_inputs_at H :=
  let Hs := fresh "Hs" in
  apply bind_inv in H as (? & ? & Hs & H);
  apply inputs_at_run in Hs as (-> & ->).

Ltac graph_outputs_get H Hk :=
  let Hs := fresh "Hs" in
  let Hlook := fresh "Hlook" in
  apply bind_inv in H as (? & ? & Hs & H);
  apply outputs_get_run in Hs as (-> & ? & Hlook & ->);
  rewrite Hk in Hlook; cbn [lookup list_lookup] in Hlook;
  injection Hlook as <-.

Ltac graph_inputs_get H Hk :=
  let Hs := fresh "Hs" in
  let Hlook := fresh "Hlook" in
  apply bind_inv in H as (? & ? & Hs & H);
  apply inputs_get_run in Hs as (-> & ? & Hlook & ->);
  rewrite Hk in Hlook; cbn [lookup list_lookup] in Hlook;
  injection Hlook as <-.

Ltac graph_link H Hk Hl Ha Hb :=
  let Hs := fresh "Hs" in
  let Hk' := fresh "Hk" in
  let Hl' := fresh "Hl" in
  apply bind_inv in H as (? & ? & Hs & H);
  apply links_new_run in Hs as (? & ? & Ha & Hb & Hk' & Hl');
  rewrite Hk in Hk'; rewrite Hl in Hl'; clear Hk Hl;
  rename Hk' into Hk; rename Hl' into Hl.

(** X10. Whenever [_build_volume_shader] returns, the material's tree
    holds exactly the seven nodes the builder created, in order (output,
    principled volume, density attribute, flame attribute, ramp, flame
    multiplier, density multiplier), and exactly seven links, no two into
    the same socket: principled volume into the output's second input;
    the flame attribute's Fac into the ramp and into the flame multiplier;
    the ramp's Color into Emission Color; the flame multiplier's Value
    into Emission Strength; the density attribute's Fac into the density
    multiplier; its Value into Density.  Whatever the tree held before is
    gone. *)
Theorem build_volume_shader_graph (flame_strength smoke_density : value)
    (flame_ramp : list (Q * value)) (mat mat' : Material) :
  _build_volume_shader flame_strength smoke_density flame_ramp mat = (Ret tt, mat') →
  ∃ t' fac color val ec es dens,
    ma_node_tree mat' = Some t'
    ∧ ma_name mat' = ma_name mat
    ∧ ma_use_nodes mat' = ma_use_nodes mat
    ∧ node_kind <$> nodes t' =
        (λ idname, node_kind (host_new_node idname)) <$> shader_nodes
    ∧ output_index "ShaderNodeAttribute" "Fac" = Some fac
    ∧ output_index "ShaderNodeValToRGB" "Color" = Some color
    ∧ output_index "ShaderNodeMath" "Value" = Some val
    ∧ input_index "ShaderNodeVolumePrincipled" "Emission Color" = Some ec
    ∧ input_index "ShaderNodeVolumePrincipled" "Emission Strength" = Some es
    ∧ input_index "ShaderNodeVolumePrincipled" "Density" = Some dens
    ∧ links t' =
        [ link (1, 0) (0, 1);
          link (3, fac) (4, 0);
          link (4, color) (1, ec);
          link (3, fac) (5, 0);
          link (5, val) (1, es);
          link (2, fac) (6, 0);
          link (6, val) (1, dens) ]
    ∧ NoDup (link_to <$> links t').
Proof.
  intros H. unfold _build_volume_shader, with_node_tree in H.
  destruct (ma_node_tree mat) as [t|] eqn:Ht; [|done].
  match type of H with (let '(_, _) := ?m t in _) = _ =>
    destruct (m t) as [r t'] eqn:Hrun end.
  injection H as -> <-. rename Hrun into H.
  apply bind_inv in H as ([] & t0 & Hs & H). injection Hs as <-.
  assert (node_kind <$> nodes {| nodes := []; links := [] |} = []) as Hk by done.
  assert (links {| nodes := []; links := [] |} = []) as Hl by done.
  (* the seven nodes *)
  graph_new H Hk Hl. graph_local H Hk Hl.
  graph_new H Hk Hl. graph_local H Hk Hl.
  graph_new H Hk Hl. graph_local H Hk Hl. graph_local H Hk Hl.
  graph_new H Hk Hl. graph_local H Hk Hl. graph_local H Hk Hl.
  graph_new H Hk Hl. graph_local H Hk Hl. graph_local H Hk Hl.
  graph_new H Hk Hl. graph_local H Hk Hl. graph_local H Hk Hl.
  graph_local H Hk Hl. graph_local H Hk Hl.
  graph_new H Hk Hl. graph_local H Hk Hl. graph_local H Hk Hl.
  graph_local H Hk Hl. graph_local H Hk Hl.
  (* the seven links *)
  graph_outputs_at H. graph_inputs_at H. graph_link H Hk Hl Ha1 Hb1.
  graph_outputs_get H Hk. graph_inputs_at H. graph_link H Hk Hl Ha2 Hb2.
  graph_outputs_get H Hk. graph_inputs_get H Hk. graph_link H Hk Hl Ha3 Hb3.
  graph_outputs_get H Hk. graph_inputs_at H. graph_link H Hk Hl Ha4 Hb4.
  graph_outputs_get H Hk. graph_inputs_get H Hk. graph_link H Hk Hl Ha5 Hb5.
  graph_outputs_get H Hk. graph_inputs_at H. graph_link H Hk Hl Ha6 Hb6.
  graph_outputs_get H Hk. graph_inputs_get H Hk. graph_link H Hk Hl Ha7 Hb7.
  (* the two defaults *)
  graph_inputs_get H Hk. graph_local H Hk Hl.
  graph_inputs_get H Hk.
  apply (preserves_run skeleton) in H; [|solve [eauto with graph]].
  unfold skeleton in H. injection H as Hk' Hl'. rewrite Hk in Hk'. rewrite Hl in Hl'.
  clear Hk Hl.
  (* the sockets *)
  injection Ha1 as <-. injection Hb1 as <-. injection Hb2 as <-.
  injection Hb4 as <-. injection Hb6 as <-.
  apply fmap_Some in Ha2 as (fac & Hfac & ->).
  apply fmap_Some in Ha4 as (fac' & Hfac' & ->).
  apply fmap_Some in Ha6 as (fac'' & Hfac'' & ->).
  rewrite Hfac in Hfac', Hfac''. injection Hfac' as <-. injection Hfac'' as <-.
  apply fmap_Some in Ha3 as (color & Hcolor & ->).
  apply fmap_Some in Ha5 as (val & Hval & ->).
  apply fmap_Some in Ha7 as (val' & Hval' & ->).
  rewrite Hval in Hval'. injection Hval' as <-.
  apply fmap_Some in Hb3 as (ec & Hec & ->).
  apply fmap_Some in Hb5 as (es & Hes & ->).
  apply fmap_Some in Hb7 as (dens & Hdens & ->).
  assert (ec ≠ es) as Hne1 by (by eapply name_index_differ).
  assert (ec ≠ dens) as Hne2 by (by eapply name_index_differ).
  assert (es ≠ dens) as Hne3 by (by eapply name_index_differ).
  assert (links t' =
            [ link (1, 0) (0, 1); link (3, fac) (4, 0); link (4, color) (1, ec);
              link (3, fac) (5, 0); link (5, val) (1, es);
              link (2, fac) (6, 0); link (6, val) (1, dens) ]) as Hlinks.
  { rewrite Hl'. rewrite !filter_app.
    repeat (rewrite (filter_keeps _ [_])
              by (repeat constructor; cbn [link_to]; intros [=]; lia)).
    done. }
  exists t', fac, color, val, ec, es, dens.
  split; [done|]. split; [done|]. split; [done|]. split; [done|].
  do 6 (split; [done|]). split; [done|].
  rewrite Hlinks. cbn [fmap list_fmap link link_to].
  repeat (apply NoDup_cons; split;
          [rewrite ?not_elem_of_cons;
           repeat split; try apply not_elem_of_nil; intros [=]; lia|]).
  apply NoDup_nil_2.
Qed.

(** * What configuring the rig leaves alone *)

Lemma preserves_name_at_modifier {A} i (m : ST Modifier A) :
  preserves ob_name (at_modifier i m).
Proof.
  intros o. unfold at_modifier, zoom_at.
  destruct (ob_modifiers o !! i) as [md|]; [|done]. by destruct (m md).
Qed.

Lemma preserves_name_ensure_fluid_modifier : preserves ob_name _ensure_fluid_modifier.
Proof.
  intros o. unfold _ensure_fluid_modifier. rewrite bind_get.
  by destruct (list_find _ (ob_modifiers o)) as [[]|].
Qed.

Lemma preserves_name_set_fluid_type i ty : preserves ob_name (set_fluid_type i ty).
Proof. apply preserves_name_at_modifier. Qed.

Lemma preserves_name_set_ds i attr v : preserves ob_name (set_ds i attr v).
Proof. apply preserves_name_at_modifier. Qed.

Lemma preserves_name_set_fs i attr v : preserves ob_name (set_fs i attr v).
Proof. apply preserves_name_at_modifier. Qed.

#[local] Hint Resolve preserves_name_at_modifier
  preserves_name_ensure_fluid_modifier preserves_name_set_fluid_type
  preserves_name_set_ds preserves_name_set_fs : preserves.

Lemma preserves_name_apply_domain_settings settings :
  preserves ob_name (_apply_domain_settings settings).
Proof. unfold _apply_domain_settings. preserves_all. Qed.

Lemma preserves_name_apply_flow_settings settings :
  preserves ob_name (_apply_flow_settings settings).
Proof. unfold _apply_flow_settings. preserves_all. Qed.

Lemma preserves_name_modify (g : Object → Object) :
  (∀ o, ob_name (g o) = ob_name o) → preserves ob_name (modify g).
Proof. apply preserves_modify. Qed.

Lemma set_first_material_name mat o : ob_name (set_first_material mat o) = ob_name o.
Proof. unfold set_first_material. by destruct (ob_data o). Qed.

#[local] Hint Resolve preserves_name_apply_domain_settings
  preserves_name_apply_flow_settings : preserves.

(** Work on one object that keeps its name keeps the layout. *)
Lemma preserves_layout_at_object {A} i (m : ST Object A) :
  preserves ob_name m → preserves layout (at_object i m).
Proof.
  intros Hm. unfold at_object.
  apply (preserves_zoom_at _ ob_name); [|done].
  intros w o o' Hi Ho. unfold layout. simpl.
  by rewrite (fmap_insert_same ob_name _ _ _ _ Hi Ho).
Qed.

Lemma preserves_settings_at_object {A} i (m : ST Object A) :
  preserves w_settings (at_object i m).
Proof.
  intros w. unfold at_object, zoom_at.
  destruct (w_objects w !! i) as [o|]; [|done]. by destruct (m o).
Qed.

Lemma preserves_layout_at_material {A} i (m : ST Material A) :
  preserves layout (at_material i m).
Proof.
  intros w. unfold at_material, zoom_at.
  destruct (w_materials w !! i) as [ma|]; [|done]. by destruct (m ma).
Qed.

Lemma preserves_settings_at_material {A} i (m : ST Material A) :
  preserves w_settings (at_material i m).
Proof.
  intros w. unfold at_material, zoom_at.
  destruct (w_materials w !! i) as [ma|]; [|done]. by destruct (m ma).
Qed.

Lemma preserves_host_call {B} (f : World → B) call effect :
  (∀ w, f (logged call w) = f w) →
  (∀ w, f (effect w) = f w) →
  preserves f (host_call call effect).
Proof.
  intros Hlog Heff w. unfold host_call.
  destruct (host_raises call w); simpl; by rewrite ?Heff, Hlog.
Qed.

Lemma fmap_fmap_same {T C} (g : T → C) (h : T → T) (l : list T) :
  (∀ t, g (h t) = g t) → g <$> (h <$> l) = g <$> l.
Proof.
  intros Hh. rewrite <- list_fmap_compose. apply list_fmap_ext.
  intros ? t _. apply Hh.
Qed.

Lemma alter_fmap_same {T C} (g : T → C) (h : T → T) (l : list T) i :
  (∀ t, g (h t) = g t) → g <$> alter h i l = g <$> l.
Proof.
  intros Hh. apply list_eq. intros j. rewrite !list_lookup_fmap.
  destruct (decide (i = j)) as [->|Hne].
  - rewrite list_lookup_alter_eq. destruct (l !! j); simpl; by rewrite ?Hh.
  - by rewrite list_lookup_alter_ne.
Qed.

Lemma apply_scale_name o : ob_name (apply_scale o) = ob_name o.
Proof. unfold apply_scale. by destruct (ob_selected o). Qed.

Lemma preserves_layout_set_active i : preserves layout (set_active i).
Proof. by apply preserves_host_call. Qed.

Lemma preserves_layout_select_set i : preserves layout (select_set i).
Proof.
  apply preserves_host_call; [done|]. intros w. unfold layout. simpl.
  by rewrite alter_fmap_same.
Qed.

Lemma preserves_layout_transform_apply : preserves layout transform_apply.
Proof.
  apply preserves_host_call; [done|]. intros w. unfold layout. simpl.
  by rewrite (fmap_fmap_same _ _ _ apply_scale_name).
Qed.

Lemma preserves_settings_set_active i : preserves w_settings (set_active i).
Proof. by apply preserves_host_call. Qed.

Lemma preserves_settings_select_set i : preserves w_settings (select_set i).
Proof. by apply preserves_host_call. Qed.

Lemma preserves_settings_transform_apply : preserves w_settings transform_apply.
Proof. by apply preserves_host_call. Qed.

Lemma preserves_layout_assign_scale i v : preserves layout (assign_scale i v).
Proof.
  unfold assign_scale. destruct v; try done. case_decide; [|done].
  apply preserves_layout_at_object. by apply preserves_modify.
Qed.

Lemma preserves_settings_assign_scale i v : preserves w_settings (assign_scale i v).
Proof.
  unfold assign_scale. destruct v; try done. case_decide; [|done].
  apply preserves_settings_at_object.
Qed.

Lemma preserves_layout_get_or_create_material name :
  preserves layout (_get_or_create_material name).
Proof.
  intros w.
  by destruct (get_or_create_material_run name w) as (i & l & m & -> & _).
Qed.

Lemma preserves_settings_get_or_create_material name :
  preserves w_settings (_get_or_create_material name).
Proof.
  intros w.
  by destruct (get_or_create_material_run name w) as (i & l & m & -> & _).
Qed.

#[local] Hint Resolve preserves_layout_at_material preserves_settings_at_material
  preserves_settings_at_object
  preserves_layout_set_active preserves_layout_select_set
  preserves_layout_transform_apply preserves_settings_set_active
  preserves_settings_select_set preserves_settings_transform_apply
  preserves_layout_assign_scale preserves_settings_assign_scale
  preserves_layout_get_or_create_material
  preserves_settings_get_or_create_material : preserves.

#[local] Hint Extern 1 (preserves layout (at_object _ _)) =>
  apply preserves_layout_at_object : preserves.
#[local] Hint Extern 1 (preserves ob_name (modify _)) =>
  apply preserves_modify; first [ done | apply set_first_material_name ] : preserves.

Lemma preserves_layout_ensure_domain_material domain_obj settings :
  preserves layout (_ensure_domain_material domain_obj settings).
Proof. unfold _ensure_domain_material. preserves_all. Qed.

Lemma preserves_settings_ensure_domain_material domain_obj settings :
  preserves w_settings (_ensure_domain_material domain_obj settings).
Proof. unfold _ensure_domain_material. preserves_all. Qed.

#[local] Hint Resolve preserves_layout_ensure_domain_material
  preserves_settings_ensure_domain_material : preserves.

(** [update_rig], once the rig is found, keeps the layout and the
    settings. *)
Lemma preserves_layout_update_rig_found domain emitter :
  preserves layout (update_rig_found domain emitter).
Proof. unfold update_rig_found. preserves_all. Qed.

Lemma preserves_settings_update_rig_found domain emitter :
  preserves w_settings (update_rig_found domain emitter).
Proof. unfold update_rig_found. preserves_all. Qed.

(** * [update_rig] against the second half of [create_rig] *)

Lemma bind_cong_tail {S A B C} (m : ST S A) (k1 : A → ST S C)
    (k2 : A → ST S B) (g : B → ST S C) s :
  (∀ a s', k1 a s' = bind (k2 a) g s') →
  bind m k1 s = bind (bind m k2) g s.
Proof.
  intros Hk. rewrite (eq_refl : bind (bind m k2) g s = match bind m k2 s with (Ret a, s1) => g a s1 | (Exn e, s1) => (Exn e, s1) end). unfold bind at 1 2.
  destruct (m s) as [[a|e] s']; [|done].
  apply Hk.
Qed.

Lemma bind_returns {S A B} (P : B → Prop) (m : ST S A) (k : A → ST S B) :
  (∀ a s r s', k a s = (Ret r, s') → P r) →
  ∀ s r s', bind m k s = (Ret r, s') → P r.
Proof.
  intros Hk s r s'. unfold bind. destruct (m s) as [[a|e] s1]; [|done].
  apply Hk.
Qed.

(** [create_rig] from "Apply sizes" on is [update_rig]'s work on the found
    rig, followed by storing the two names and setting the display hints. *)
Lemma create_rig_from_sizes_split domain emitter w :
  create_rig_from_sizes domain emitter w =
    (update_rig_found domain emitter;;
     name <- at_object domain (gets ob_name);;
     settings_assign "domain_object_name" (VStr name);;
     name <- at_object emitter (gets ob_name);;
     settings_assign "emitter_object_name" (VStr name);;
     object_set_if_has domain "display_type" (VStr "WIRE");;
     object_set_if_has emitter "display_type" (VStr "SOLID");;
     ret FINISHED) w.
Proof.
  unfold create_rig_from_sizes, update_rig_found.
  repeat (apply bind_cong_tail; intros ? ?).
  done.
Qed.

Lemma update_rig_found_finished domain emitter w st w' :
  update_rig_found domain emitter w = (Ret st, w') → st = FINISHED.
Proof.
  revert w st w'. unfold update_rig_found.
  repeat (apply bind_returns; intros ?).
  by intros ? ? ? [= <- _].
Qed.

(** A stored name that resolves is stored as the name of the object it
    resolves to. *)
Lemma resolve_Some k w i :
  k ∈ ["domain_object_name"; "emitter_object_name"] →
  resolve k w = Some i →
  ∃ name o, w_settings w !! k = Some (VStr name)
            ∧ w_objects w !! i = Some o ∧ ob_name o = name.
Proof.
  intros Hk. unfold resolve, stored_name, getattr.
  assert (prop_of k = Some (StringProperty "")) as ->.
  { revert Hk. rewrite !elem_of_cons, elem_of_nil. by intros [->|[->|[]]]. }
  simpl. unfold rna_get.
  destruct (w_settings w !! k) as [[| | |name|]|]; simpl; try done.
  case_bool_decide; [done|]. unfold find_object.
  intros (o & Hi & Ho & _)%find_by_name_Some. by exists name, o.
Qed.

Lemma object_set_if_has_run i attr v w o :
  w_objects w !! i = Some o →
  object_set_if_has i attr v w =
    (Ret tt,
     set_w_objects
       (<[i := set_ob_attrs (_set_if_has "Object" attr v (ob_attrs o)) o]>
          (w_objects w)) w).
Proof.
  intros Hi. unfold object_set_if_has, at_object, zoom_at, modify. by rewrite Hi.
Qed.

Lemma object_name_run i w o :
  w_objects w !! i = Some o →
  at_object i (gets ob_name) w = (Ret (ob_name o), w).
Proof.
  intros Hi. unfold at_object, zoom_at, gets. rewrite Hi.
  by rewrite list_insert_id, set_w_objects_same.
Qed.

Lemma set_w_settings_same w : set_w_settings (w_settings w) w = w.
Proof. by destruct w. Qed.

(** Storing again the name that is stored changes nothing. *)
Lemma settings_assign_stored k name w :
  k ∈ ["domain_object_name"; "emitter_object_name"] →
  w_settings w !! k = Some (VStr name) →
  settings_assign k (VStr name) w = (Ret tt, w).
Proof.
  intros Hk Hs. unfold settings_assign, setattr. rewrite bind_get.
  assert (prop_of k = Some (StringProperty "")) as ->.
  { revert Hk. rewrite !elem_of_cons, elem_of_nil. by intros [->|[->|[]]]. }
  simpl. unfold modify. by rewrite insert_id, set_w_settings_same.
Qed.

Lemma layout_lookup_name w w' i o :
  layout w' = layout w → w_objects w !! i = Some o →
  ∃ o', w_objects w' !! i = Some o' ∧ ob_name o' = ob_name o.
Proof.
  unfold layout. intros [= Hnames _ _ _] Hi.
  assert ((ob_name <$> w_objects w') !! i = Some (ob_name o)) as Hi'.
  { by rewrite Hnames, list_lookup_fmap, Hi. }
  rewrite list_lookup_fmap in Hi'.
  destruct (w_objects w' !! i) as [o'|]; [|done].
  exists o'. split; [done|]. by injection Hi'.
Qed.

(** C5, as the code has it.  When both rig objects resolve by their stored
    names, [update_rig] and [create_rig] from "Apply sizes" on do the same
    work up to and including the shader: they raise alike, leaving the same
    state, or both return FINISHED.  [create_rig] then stores the two names
    again, which leaves the settings as they are, and sets the display hints
    (wire for the domain, solid for the emitter), which [update_rig] does
    not: the final states are equal once those two hints are applied to
    [update_rig]'s. *)
Theorem update_rig_matches_create_rig (w : World) (domain emitter : nat) :
  _find_rig w = (Ret (Some domain, Some emitter), w) →
  let '(r_update, w_update) := update_rig w in
  let '(r_create, w_create) := create_rig_from_sizes domain emitter w in
  r_create = r_update
  ∧ match r_update with
    | Ret _ =>
        r_update = Ret FINISHED
        ∧ w_create = with_display_hints domain emitter w_update
        ∧ w_settings w_create = w_settings w_update
    | Exn _ => w_create = w_update
    end.
Proof.
  intros Hfind.
  assert (update_rig w = update_rig_found domain emitter w) as ->.
  { unfold update_rig. by rewrite (bind_run _ _ _ _ _ Hfind). }
  rewrite find_rig_run in Hfind. injection Hfind as Hdom Hemi.
  rewrite create_rig_from_sizes_split.
  pose proof (preserves_layout_update_rig_found domain emitter w) as Hlayout.
  pose proof (preserves_settings_update_rig_found domain emitter w) as Hsettings.
  destruct (update_rig_found domain emitter w) as [[st|e] w2] eqn:Hrun;
    simpl in Hlayout, Hsettings.
  2:{ by rewrite (bind_exn _ _ _ _ _ Hrun). }
  pose proof (update_rig_found_finished _ _ _ _ _ Hrun) as ->.
  rewrite (bind_run _ _ _ _ _ Hrun).
  apply resolve_Some in Hdom as (dn & od & Hsd & Hod & Hdn); [|repeat constructor].
  apply resolve_Some in Hemi as (en & oe & Hse & Hoe & Hen); [|repeat constructor].
  destruct (layout_lookup_name _ _ _ _ Hlayout Hod) as (od' & Hod' & Hdn').
  destruct (layout_lookup_name _ _ _ _ Hlayout Hoe) as (oe' & Hoe' & Hen').
  rewrite <- Hsettings in Hsd, Hse.
  rewrite (bind_run _ _ _ _ _ (object_name_run _ _ _ Hod')).
  rewrite Hdn', Hdn.
  rewrite (bind_run _ _ _ _ _ (settings_assign_stored "domain_object_name" _ _ ltac:(repeat constructor) Hsd)).
  rewrite (bind_run _ _ _ _ _ (object_name_run _ _ _ Hoe')).
  rewrite Hen', Hen.
  rewrite (bind_run _ _ _ _ _ (settings_assign_stored "emitter_object_name" _ _ ltac:(repeat constructor) Hse)).
  unfold with_display_hints.
  rewrite (bind_run _ _ _ _ _ (object_set_if_has_run domain _ _ w2 od' Hod')).
  rewrite (object_set_if_has_run domain _ _ w2 od' Hod'). simpl.
  set (w3 := set_w_objects _ w2).
  assert (∃ oe3, w_objects w3 !! emitter = Some oe3) as [oe3 Hoe3].
  { unfold w3. simpl. destruct (decide (domain = emitter)) as [->|Hne].
    - rewrite list_lookup_insert_eq by by eapply lookup_lt_Some. eauto.
    - rewrite list_lookup_insert_ne by done. eauto. }
  rewrite (bind_run _ _ _ _ _ (object_set_if_has_run emitter _ _ w3 oe3 Hoe3)).
  rewrite (object_set_if_has_run emitter _ _ w3 oe3 Hoe3).
  done.
Qed.

(** * Creating the rig, and creating it again *)

Lemma find_object_names name w i :
  find_object name w = Some i →
  object_names w !! i = Some name
  ∧ ∀ j, j < i → object_names w !! j ≠ Some name.
Proof.
  unfold find_object, object_names.
  intros (o & Hi & Ho & Hlt)%find_by_name_Some. split.
  - rewrite list_lookup_fmap, Hi. simpl. by rewrite Ho.
  - intros j Hj. rewrite list_lookup_fmap.
    destruct (w_objects w !! j) as [o'|] eqn:Hj'; [|done].
    simpl. intros [= Heq]. by eapply Hlt.
Qed.

Lemma find_object_None name w :
  find_object name w = None ↔ name ∉ object_names w.
Proof.
  unfold find_object, object_names.
  rewrite find_by_name_None, list_elem_of_fmap, Forall_forall. split.
  - intros H (o & -> & Ho). by apply (H o).
  - intros H o Ho Heq. apply H. eauto.
Qed.

Lemma find_object_NoDup name w i :
  NoDup (object_names w) → object_names w !! i = Some name →
  find_object name w = Some i.
Proof.
  unfold find_object, object_names. intros Hnd Hi.
  apply find_by_name_Some. rewrite list_lookup_fmap in Hi.
  destruct (w_objects w !! i) as [o|] eqn:Ho; [|done].
  injection Hi as Hi. exists o. split; [done|]. split; [done|].
  intros j o' Hj Hlt Hname.
  assert (i = j); [|lia].
  eapply (NoDup_lookup _ _ _ name Hnd); rewrite list_lookup_fmap.
  - rewrite Ho. simpl. by rewrite Hi.
  - rewrite Hj. simpl. by rewrite Hname.
Qed.

Lemma filter_none {A} (P : A → Prop) `{!∀ x, Decision (P x)} (l : list A) :
  (∀ x, x ∈ l → ¬ P x) → filter P l = [].
Proof.
  induction l as [|x l IH]; intros Hl; [done|].
  rewrite filter_cons, decide_False by (apply Hl; left).
  apply IH. intros y Hy. apply Hl. by right.
Qed.

Lemma count_named_one name w i :
  NoDup (object_names w) → object_names w !! i = Some name →
  count_named name w = 1.
Proof.
  unfold count_named. generalize (object_names w). clear.
  intros l Hnd. revert i. induction Hnd as [|x l Hx Hnd IH]; intros i Hi; [done|].
  rewrite filter_cons. destruct i as [|i]; simpl in Hi.
  - injection Hi as ->. rewrite decide_True by done. simpl. f_equal.
    apply length_zero_iff_nil, filter_none.
    by intros y Hy ->.
  - rewrite decide_False; [by eapply IH|].
    intros ->. apply Hx. by eapply list_elem_of_lookup_2.
Qed.

Lemma remove_object_notin obj l : obj ∉ l → remove_object obj l = l.
Proof.
  unfold remove_object. intros H. induction l as [|x l IH]; [done|].
  apply not_elem_of_cons in H as [? ?].
  rewrite filter_cons, decide_True by done. by rewrite IH.
Qed.

Lemma remove_object_app obj l1 l2 :
  remove_object obj (l1 ++ l2) = remove_object obj l1 ++ remove_object obj l2.
Proof. apply filter_app. Qed.

Lemma remove_object_elem obj l : obj ∉ remove_object obj l.
Proof. unfold remove_object. rewrite list_elem_of_filter. by intros [? _]. Qed.

Lemma remove_object_other obj x l : x ∉ l → x ∉ remove_object obj l.
Proof. unfold remove_object. rewrite list_elem_of_filter. by intros ? [_ ?]. Qed.

Lemma remove_object_self obj : remove_object obj [obj] = [].
Proof. unfold remove_object. by rewrite filter_cons, decide_False by by intros ?. Qed.

Lemma remove_object_single obj x : x ≠ obj → remove_object obj [x] = [x].
Proof.
  intros Hx. apply remove_object_notin, not_elem_of_cons.
  split; [by intros ->|apply not_elem_of_nil].
Qed.

Lemma moved_into_lookup obj c colls j :
  moved_into obj c colls !! j =
    (λ col, set_co_objects
              (remove_object obj (co_objects col)
                 ++ (if decide (j = c) then [obj] else [])) col)
      <$> colls !! j.
Proof.
  unfold moved_into. destruct (decide (j = c)) as [->|Hne].
  - rewrite list_lookup_alter_eq, list_lookup_fmap. by destruct (colls !! c).
  - rewrite list_lookup_alter_ne, list_lookup_fmap by done.
    destruct (colls !! j) as [col|]; [|done]. simpl.
    by rewrite app_nil_r.
Qed.

Lemma moved_into_names obj c colls :
  co_name <$> moved_into obj c colls = co_name <$> colls.
Proof.
  apply list_eq. intros j.
  rewrite !list_lookup_fmap, moved_into_lookup. by destruct (colls !! j).
Qed.

Lemma find_by_name_ext {A} (name_of : A → string) n l l' :
  name_of <$> l' = name_of <$> l → find_by_name name_of n l' = find_by_name name_of n l.
Proof.
  revert l'. unfold find_by_name.
  induction l as [|x l IH]; intros [|x' l'] Heq; try done.
  injection Heq as Hx Hl. simpl. rewrite Hx.
  case_decide; [done|]. simpl. specialize (IH l' Hl).
  destruct (list_find _ l') as [[]|], (list_find _ l) as [[]|]; simpl in *;
    by simplify_eq.
Qed.

Lemma alter_as_insert {A} (f : A → A) i (l : list A) x :
  l !! i = Some x → alter f i l = <[i := f x]> l.
Proof.
  intros Hi. apply list_eq. intros j. destruct (decide (j = i)) as [->|].
  - rewrite list_lookup_alter_eq, Hi, list_lookup_insert_eq; [done|].
    by eapply lookup_lt_Some.
  - by rewrite list_lookup_alter_ne, list_lookup_insert_ne.
Qed.

(** [_link_to_collection] never raises: the object leaves every collection
    and the scene, and joins collection [c] at the end. *)
Lemma link_to_collection_run obj c w :
  c < length (w_collections w) →
  _link_to_collection obj c w =
    (Ret tt,
     set_w_collections (moved_into obj c (w_collections w))
       (set_w_scene_objects (remove_object obj (w_scene_objects w)) w)).
Proof.
  intros Hc. unfold _link_to_collection. rewrite bind_modify.
  unfold try_pass, catch, collection_link, zoom_at, unlink_from_users. simpl.
  apply lookup_lt_is_Some_2 in Hc as [col Hcol].
  rewrite list_lookup_fmap, Hcol. simpl.
  rewrite decide_False by apply remove_object_elem.
  unfold moved_into.
  erewrite alter_as_insert by by rewrite list_lookup_fmap, Hcol.
  by destruct w.
Qed.

Lemma members_lookup name w c col :
  find_by_name co_name name (w_collections w) = Some c →
  w_collections w !! c = Some col →
  members name w = Some (co_objects col).
Proof. unfold members. intros -> Hc. simpl. by rewrite Hc. Qed.

(** [_ensure_collection] finds the collection or appends an empty one. *)
Lemma ensure_collection_run name w :
  ∃ c w' col,
    _ensure_collection name w = (Ret c, w')
    ∧ w_objects w' = w_objects w
    ∧ w_scene_objects w' = w_scene_objects w
    ∧ find_by_name co_name name (w_collections w') = Some c
    ∧ w_collections w' !! c = Some col
    ∧ co_objects col = default [] (members name w).
Proof.
  unfold _ensure_collection. rewrite bind_get.
  destruct (find_by_name co_name name (w_collections w)) as [c|] eqn:Hfind.
  - pose proof Hfind as (col & Hc & _)%find_by_name_Some.
    exists c, w, col. repeat split; try done.
    by rewrite (members_lookup _ _ _ _ Hfind Hc).
  - eexists (length (w_collections w)), _, _.
    split; [reflexivity|]. simpl. repeat split.
    + by apply find_by_name_snoc.
    + by rewrite lookup_app_r, Nat.sub_diag by lia.
    + unfold members. by rewrite Hfind.
Qed.

Lemma ensure_collection_found name w c :
  find_by_name co_name name (w_collections w) = Some c →
  _ensure_collection name w = (Ret c, w).
Proof. intros Hc. unfold _ensure_collection. by rewrite bind_get, Hc. Qed.

Lemma delete_last {A} (l : list A) x : delete (length l) (l ++ [x]) = l.
Proof. induction l as [|y l IH]; [done|]. simpl. by rewrite IH. Qed.

Lemma active_object_run w i : w_active w = Some i → active_object w = (Ret i, w).
Proof. intros Hi. unfold active_object. by rewrite bind_get, Hi. Qed.

Lemma rename_object_run i name w o :
  w_objects w !! i = Some o →
  name ∉ ob_name <$> delete i (w_objects w) →
  rename_object i name w =
    (Ret tt, set_w_objects (<[i := set_ob_name name o]> (w_objects w)) w).
Proof.
  intros Hi Hname. unfold rename_object. rewrite bind_get.
  rewrite decide_False by done.
  unfold at_object, zoom_at, modify. by rewrite Hi.
Qed.

(** An object is found by its name, or a primitive is added and given the
    name. *)
Lemma find_or_create_run name call base size (found : option nat) w :
  NoDup (object_names w) →
  (∀ i, found = Some i → object_names w !! i = Some name) →
  (found = None → name ∉ object_names w) →
  ∃ i w',
    (match found with
     | Some i => ret i
     | None =>
         primitive_add call base size;;
         i <- active_object;;
         rename_object i name;;
         ret i
     end) w = (Ret i, w')
    ∧ object_names w' =
        object_names w ++ match found with Some _ => [] | None => [name] end
    ∧ object_names w' !! i = Some name
    ∧ NoDup (object_names w')
    ∧ w_collections w' = w_collections w.
Proof.
  intros Hnd Hsome Hnone. destruct found as [i|].
  - exists i, w. rewrite app_nil_r. by auto.
  - specialize (Hnone eq_refl).
    set (new := {| ob_name := host_unique_name base (ob_name <$> w_objects w);
                   ob_scale := [1; 1; 1]%Q; ob_attrs := host_object_attrs;
                   ob_selected := true;
                   ob_data := Some {| me_materials := []; me_size := size |};
                   ob_modifiers := [] |}).
    set (objs := set_ob_selected false <$> w_objects w).
    assert (length objs = length (w_objects w)) as Hlen
      by apply length_fmap.
    assert (ob_name <$> objs = object_names w) as Hnames.
    { unfold objs, object_names. by apply fmap_fmap_same. }
    eexists (length (w_objects w)), _.
    split; [|split; [|split; [|split]]].
    + unfold primitive_add. rewrite bind_modify. fold new objs. cbv beta.
      erewrite bind_run by (by apply active_object_run).
      erewrite bind_run; [reflexivity|].
      apply (rename_object_run _ _ _ new).
      * simpl. by rewrite <- Hlen, lookup_app_r, Nat.sub_diag by lia.
      * simpl. by rewrite <- Hlen, delete_last, Hnames.
    + unfold object_names in *. simpl.
      rewrite <- Hlen, insert_app_r_alt, Nat.sub_diag by lia. simpl.
      by rewrite fmap_app, Hnames.
    + unfold object_names in *. simpl.
      rewrite <- Hlen, insert_app_r_alt, Nat.sub_diag by lia. simpl.
      rewrite fmap_app, Hnames, lookup_app_r by (rewrite length_fmap; lia).
      by rewrite length_fmap, Hlen, Nat.sub_diag.
    + unfold object_names in *. simpl.
      rewrite <- Hlen, insert_app_r_alt, Nat.sub_diag by lia. simpl.
      rewrite fmap_app, Hnames. apply NoDup_app. split; [done|].
      split; [|apply NoDup_singleton].
      intros x Hx ->%list_elem_of_singleton. done.
    + done.
Qed.

Lemma moved_into_length obj c colls : length (moved_into obj c colls) = length colls.
Proof. unfold moved_into. by rewrite length_alter, length_fmap. Qed.

Lemma names_differ : DOMAIN_NAME ≠ EMITTER_NAME.
Proof. done. Qed.

(** The first half of [create_rig] never raises and leaves the rig linked:
    both objects exist under their names, in the grouping collection and
    nowhere else. *)
Lemma create_rig_objects_run w :
  NoDup (object_names w) →
  ∃ d e c others w',
    create_rig_objects w = (Ret (d, e), w')
    ∧ rig_linked w' d e c others
    ∧ others = remove_object e
                 (remove_object d (default [] (members COLLECTION_NAME w))).
Proof.
  intros Hnd.
  destruct (ensure_collection_run COLLECTION_NAME w)
    as (c & wc & col & Hens & Hobj & Hscene & Hfindc & Hc & Hmem).
  assert (object_names wc = object_names w) as Hnames_c
    by (unfold object_names; by rewrite Hobj).
  destruct (find_or_create_run DOMAIN_NAME "mesh.primitive_cube_add" "Cube"
              [2.0; 2.0; 2.0]%Q (find_object DOMAIN_NAME wc) wc)
    as (d & wd & Hrun_d & Hnames_d & Hd & Hnd_d & Hcolls_d).
  { by rewrite Hnames_c. }
  { intros i Hi. by apply find_object_names in Hi as [? _]. }
  { apply find_object_None. }
  destruct (find_or_create_run EMITTER_NAME "mesh.primitive_cylinder_add"
              "Cylinder" [0.5; 0.5; 1.0]%Q (find_object EMITTER_NAME wc) wd)
    as (e & we & Hrun_e & Hnames_e & He & Hnd_e & Hcolls_e).
  { done. }
  { intros i Hi. apply find_object_names in Hi as [Hi _].
    rewrite Hnames_d. by apply lookup_app_l_Some. }
  { intros Hnone%find_object_None. rewrite Hnames_d.
    apply not_elem_of_app. split; [done|].
    destruct (find_object DOMAIN_NAME wc); [apply not_elem_of_nil|].
    apply not_elem_of_cons. split; [done|apply not_elem_of_nil]. }
  assert (object_names we !! d = Some DOMAIN_NAME) as Hd'.
  { rewrite Hnames_e. by apply lookup_app_l_Some. }
  assert (d ≠ e) as Hde.
  { intros ->. rewrite He in Hd'. by injection Hd'. }
  assert (w_collections we !! c = Some col) as Hc_e
    by by rewrite Hcolls_e, Hcolls_d.
  assert (c < length (w_collections we)) as Hlt by by eapply lookup_lt_Some.
  pose proof (link_to_collection_run d c we Hlt) as Hlink_d.
  set (w1 := set_w_collections _ _) in Hlink_d.
  assert (c < length (w_collections w1)) as Hlt1
    by (unfold w1; simpl; by rewrite moved_into_length).
  pose proof (link_to_collection_run e c w1 Hlt1) as Hlink_e.
  set (w2 := set_w_collections _ _) in Hlink_e.
  exists d, e, c,
    (remove_object e (remove_object d (default [] (members COLLECTION_NAME w)))), w2.
  split; [|split; [|done]].
  { unfold create_rig_objects.
    rewrite (bind_run _ _ _ _ _ Hens), bind_get. cbv zeta.
    rewrite (bind_run _ _ _ _ _ Hrun_d), (bind_run _ _ _ _ _ Hrun_e).
    by rewrite (bind_run _ _ _ _ _ Hlink_d), (bind_run _ _ _ _ _ Hlink_e). }
  assert (w_collections w2 =
            moved_into e c (moved_into d c (w_collections we))) as Hcolls2 by done.
  assert (∀ j, w_collections w2 !! j =
               (λ col, set_co_objects
                         (remove_object e (remove_object d (co_objects col))
                            ++ (if decide (j = c) then [d; e] else [])) col)
                 <$> w_collections we !! j) as Hlookup.
  { intros j. rewrite Hcolls2, !moved_into_lookup.
    destruct (w_collections we !! j) as [cj|]; [|done]. simpl. f_equal.
    case_decide.
    - rewrite remove_object_app, (remove_object_single e d) by done.
      by rewrite <- (assoc_L (++)).
    - by rewrite !app_nil_r. }
  unfold rig_linked. split; [done|]. split; [done|]. split; [done|].
  split; [|split; [|split; [|split; [|split; [|split]]]]].
  - rewrite Hcolls2.
    rewrite (find_by_name_ext _ _ (w_collections we));
      [by rewrite Hcolls_e, Hcolls_d|].
    by rewrite !moved_into_names.
  - eexists. rewrite Hlookup, Hc_e. simpl. split; [done|]. simpl.
    by rewrite decide_True, Hmem by done.
  - apply remove_object_other, remove_object_elem.
  - apply remove_object_elem.
  - intros j cj Hj Hne. rewrite Hlookup in Hj.
    destruct (w_collections we !! j) as [cj0|]; [|done].
    injection Hj as <-. simpl. rewrite decide_False, app_nil_r by done.
    split; [apply remove_object_other|]; apply remove_object_elem.
  - simpl. apply remove_object_other, remove_object_elem.
  - simpl. apply remove_object_elem.
Qed.

Lemma moved_twice_lookup d e c colls j :
  d ≠ e →
  moved_into e c (moved_into d c colls) !! j =
    (λ col, set_co_objects
              (remove_object e (remove_object d (co_objects col))
                 ++ (if decide (j = c) then [d; e] else [])) col)
      <$> colls !! j.
Proof.
  intros Hde. rewrite !moved_into_lookup.
  destruct (colls !! j) as [cj|]; [|done]. simpl. f_equal.
  case_decide.
  - rewrite remove_object_app, (remove_object_single e d) by done.
    by rewrite <- (assoc_L (++)).
  - by rewrite !app_nil_r.
Qed.

Lemma set_co_objects_same col : set_co_objects (co_objects col) col = col.
Proof. by destruct col. Qed.

Lemma rig_linked_distinct w d e c others : rig_linked w d e c others → d ≠ e.
Proof.
  intros (_ & Hd & He & _) ->. rewrite He in Hd. by injection Hd.
Qed.

Lemma rig_linked_members w d e c others :
  rig_linked w d e c others → members COLLECTION_NAME w = Some (others ++ [d; e]).
Proof.
  intros (_ & _ & _ & Hc & (col & Hcol & Hmem) & _).
  by rewrite (members_lookup _ _ _ _ Hc Hcol), Hmem.
Qed.

(** The predicate looks at the layout only. *)
Lemma rig_linked_layout w w' d e c others :
  layout w' = layout w → rig_linked w d e c others → rig_linked w' d e c others.
Proof.
  unfold layout, rig_linked, object_names. intros [= Hn Hc Hs _].
  by rewrite Hn, Hc, Hs.
Qed.

(** On a linked rig the first half of [create_rig] finds everything in
    place: the objects leave the collection and join it again, and the
    layout is what it was. *)
Lemma create_rig_objects_again w d e c others :
  rig_linked w d e c others →
  ∃ w', create_rig_objects w = (Ret (d, e), w') ∧ layout w' = layout w.
Proof.
  intros Hrig. pose proof (rig_linked_distinct _ _ _ _ _ Hrig) as Hde.
  destruct Hrig as (Hnd & Hd & He & Hc & (col & Hcol & Hmem) & Hdo & Heo
                    & Hother & Hds & Hes).
  assert (c < length (w_collections w)) as Hlt by by eapply lookup_lt_Some.
  pose proof (link_to_collection_run d c w Hlt) as Hlink_d.
  set (w1 := set_w_collections _ _) in Hlink_d.
  assert (c < length (w_collections w1)) as Hlt1
    by (unfold w1; simpl; by rewrite moved_into_length).
  pose proof (link_to_collection_run e c w1 Hlt1) as Hlink_e.
  set (w2 := set_w_collections _ _) in Hlink_e.
  exists w2. split.
  - unfold create_rig_objects.
    rewrite (bind_run _ _ _ _ _ (ensure_collection_found _ _ _ Hc)), bind_get.
    cbv zeta.
    rewrite (find_object_NoDup _ _ _ Hnd Hd), (find_object_NoDup _ _ _ Hnd He).
    rewrite !bind_ret.
    by rewrite (bind_run _ _ _ _ _ Hlink_d), (bind_run _ _ _ _ _ Hlink_e).
  - assert (w_collections w2 = w_collections w) as Hcolls.
    { change (w_collections w2)
        with (moved_into e c (moved_into d c (w_collections w))).
      apply list_eq. intros j. rewrite (moved_twice_lookup _ _ _ _ _ Hde).
      destruct (w_collections w !! j) as [cj|] eqn:Hj; [|done]. simpl. f_equal.
      case_decide as Hjc.
      * subst j. rewrite Hcol in Hj. injection Hj as <-.
        rewrite Hmem, !remove_object_app.
        rewrite !(remove_object_notin _ others) by done.
        change [d; e] with ([d] ++ [e]) at 1.
        rewrite remove_object_app, remove_object_self.
        rewrite (remove_object_single d e) by done. simpl.
        rewrite remove_object_self, app_nil_r, <- Hmem.
        apply set_co_objects_same.
      * destruct (Hother _ _ Hj Hjc) as [Hdj Hej].
        rewrite (remove_object_notin d), (remove_object_notin e) by done.
        rewrite app_nil_r. apply set_co_objects_same. }
    assert (w_scene_objects w2 = w_scene_objects w) as Hscene.
    { change (w_scene_objects w2)
        with (remove_object e (remove_object d (w_scene_objects w))).
      by rewrite (remove_object_notin d), (remove_object_notin e). }
    unfold layout. by rewrite Hcolls, Hscene.
Qed.

Lemma preserves_layout_settings_assign k v : preserves layout (settings_assign k v).
Proof.
  intros w. unfold settings_assign. rewrite bind_get.
  by destruct (setattr (w_settings w) k v).
Qed.

Lemma preserves_layout_object_set_if_has i attr v :
  preserves layout (object_set_if_has i attr v).
Proof.
  unfold object_set_if_has. apply preserves_layout_at_object.
  by apply preserves_modify.
Qed.

#[local] Hint Resolve preserves_layout_settings_assign
  preserves_layout_object_set_if_has : preserves.

(** The second half of [create_rig] keeps the layout. *)
Lemma preserves_layout_create_rig_from_sizes domain emitter :
  preserves layout (create_rig_from_sizes domain emitter).
Proof. unfold create_rig_from_sizes. preserves_all. Qed.

Lemma layout_create_rig w rig w' :
  create_rig_objects w = (Ret rig, w') → layout (create_rig w).2 = layout w'.
Proof.
  intros Hrun. unfold create_rig. rewrite (bind_run _ _ _ _ _ Hrun).
  apply preserves_layout_create_rig_from_sizes.
Qed.

(** C3, as the code has it.  Take a document in which object names are
    unique, as the host keeps them.  After [create_rig] and then
    [create_rig] again, whatever
    the settings of the second run, the second run has added no object
    and changed no membership: the objects, their names, every collection
    with its members and the scene's own lists are what the first run left.
    Exactly one object is called FireVFX_Domain and exactly one
    FireVFX_Emitter; both are members of the grouping collection, each
    once, and of nothing else; besides them the collection holds only what
    it held before the first run, which both runs keep.  Only when it was
    absent or held nothing but the rig are its members exactly those
    two. *)
Theorem create_rig_twice (w : World) (settings' : Settings) :
  NoDup (object_names w) →
  let w1 := (create_rig w).2 in
  let w2 := (create_rig (set_w_settings settings' w1)).2 in
  layout w2 = layout w1
  ∧ length (w_objects w2) = length (w_objects w1)
  ∧ count_named DOMAIN_NAME w2 = 1
  ∧ count_named EMITTER_NAME w2 = 1
  ∧ ∃ d e c others,
      rig_linked w1 d e c others
      ∧ rig_linked w2 d e c others
      ∧ members COLLECTION_NAME w1 = Some (others ++ [d; e])
      ∧ members COLLECTION_NAME w2 = Some (others ++ [d; e])
      ∧ others = remove_object e
                   (remove_object d (default [] (members COLLECTION_NAME w)))
      ∧ ((∀ i, i ∈ default [] (members COLLECTION_NAME w) → i = d ∨ i = e) →
         members COLLECTION_NAME w2 = Some [d; e]).
Proof.
  intros Hnd. cbv zeta.
  destruct (create_rig_objects_run w Hnd)
    as (d & e & c & others & wo & Hrun & Hrig & Hothers).
  pose proof (layout_create_rig _ _ _ Hrun) as Hl1.
  set (w1 := (create_rig w).2) in *.
  assert (rig_linked w1 d e c others) as Hrig1
    by by apply (rig_linked_layout wo).
  assert (rig_linked (set_w_settings settings' w1) d e c others) as Hrig1'
    by by apply (rig_linked_layout w1).
  destruct (create_rig_objects_again _ _ _ _ _ Hrig1') as (wo' & Hrun' & Hlo').
  pose proof (layout_create_rig _ _ _ Hrun') as Hl2.
  set (w2 := (create_rig (set_w_settings settings' w1)).2) in *.
  assert (layout w2 = layout w1) as Hlayout by by rewrite Hl2, Hlo'.
  assert (rig_linked w2 d e c others) as Hrig2
    by by apply (rig_linked_layout w1).
  pose proof Hrig2 as (Hnd2 & Hd2 & He2 & _).
  split; [done|]. split; [|split; [|split]].
  - unfold layout in Hlayout. injection Hlayout as Hn _ _ _.
    by rewrite <- (length_fmap ob_name (w_objects w2)), Hn, length_fmap.
  - by eapply count_named_one.
  - by eapply count_named_one.
  - exists d, e, c, others. split; [done|]. split; [done|].
    split; [by eapply rig_linked_members|].
    split; [by eapply rig_linked_members|]. split; [done|].
    intros Hrigonly. rewrite (rig_linked_members _ _ _ _ _ Hrig2).
    assert (others = []) as ->; [|done].
    rewrite Hothers. apply filter_none.
    intros i [Hid Hi]%list_elem_of_filter Hie.
    by destruct (Hrigonly i Hi).
Qed.

(** * Sizes *)

Lemma field_vector (settings : Settings) k n lo hi d :
  prop_of k = Some (FloatVectorProperty n lo hi d) → length d = n →
  ∃ c, field settings k = VTuple c ∧ length c = n.
Proof.
  intros Hp Hd. unfold field, getattr. rewrite Hp. cbn.
  by apply rna_get_vector.
Qed.

Lemma flag_field (settings : Settings) k p :
  prop_of k = Some p → flag settings k = py_bool (field settings k).
Proof. intros Hp. unfold flag, field, getattr. by rewrite Hp. Qed.

Lemma at_object_run {A} i (m : ST Object A) w o r o' :
  w_objects w !! i = Some o → m o = (r, o') →
  at_object i m w = (r, set_w_objects (<[i := o']> (w_objects w)) w).
Proof. intros Hi Hm. unfold at_object, zoom_at. by rewrite Hi, Hm. Qed.

Lemma at_object_modify_run i (g : Object → Object) w o :
  w_objects w !! i = Some o →
  at_object i (modify g) w = (Ret tt, set_w_objects (<[i := g o]> (w_objects w)) w).
Proof. intros Hi. by apply (at_object_run i _ w o). Qed.

Lemma preserves_scale_ensure_fluid_modifier : preserves ob_scale _ensure_fluid_modifier.
Proof.
  intros obj.
  by destruct (ensure_fluid_modifier_run obj) as [(i & m & _ & ->)|[_ ->]].
Qed.

(** The material step changes an object only in its mesh data. *)
Lemma preserves_objects_at_object {A C} (g : Object → C) i (m : ST Object A) :
  preserves g m → preserves (λ w, g <$> w_objects w) (at_object i m).
Proof.
  intros Hm. apply (preserves_zoom_at (λ w, g <$> w_objects w) g); [|done].
  intros w o o' Hi Ho. cbn [w_objects set_w_objects].
  by rewrite (fmap_insert_same g _ _ _ _ Hi Ho).
Qed.

Lemma preserves_objects_at_material {A C} (g : Object → C) i (m : ST Material A) :
  preserves (λ w, g <$> w_objects w) (at_material i m).
Proof.
  intros w. unfold at_material, zoom_at.
  destruct (w_materials w !! i) as [x|]; [|done]. by destruct (m x).
Qed.

Lemma preserves_objects_ensure_domain_material {C} (g : Object → C)
    domain_obj settings :
  (∀ mat o, g (set_first_material mat o) = g o) →
  preserves (λ w, g <$> w_objects w) (_ensure_domain_material domain_obj settings).
Proof.
  intros Hg. unfold _ensure_domain_material.
  apply preserves_bind.
  { unfold _get_or_create_material. apply preserves_bind; [done|]. intros w0.
    apply preserves_bind.
    - destruct (find_by_name ma_name MATERIAL_NAME (w_materials w0)); [done|].
      apply preserves_bind; [by apply preserves_modify|done].
    - intros mat.
      apply preserves_bind; [apply preserves_objects_at_material|done]. }
  intros mat. do 5 (apply preserves_bind; [apply preserves_settings_attr|intros ?]).
  apply preserves_bind; [apply preserves_objects_at_material|intros _].
  apply preserves_objects_at_object. apply preserves_modify. apply Hg.
Qed.

Lemma set_first_material_scale mat o : ob_scale (set_first_material mat o) = ob_scale o.
Proof. unfold set_first_material. by destruct (ob_data o). Qed.

Lemma set_first_material_modifiers mat o :
  ob_modifiers (set_first_material mat o) = ob_modifiers o.
Proof. unfold set_first_material. by destruct (ob_data o). Qed.

(** X11. When the rig is found and scale application is off, nothing in
    [update_rig] before the material step can fail: it reaches that step
    in the document in which the domain has half the configured domain
    size on each axis as its scale, the emitter has the configured emitter
    scale, the domain configurator has run on the domain and the flow
    configurator on the emitter, and nothing else has changed.  The
    material step, whether it returns or raises, leaves these scales and
    every modifier stack as they are, so the sizes and both fluid
    configurations are in place even when building the shader raises. *)
Theorem update_rig_applies_sizes (w : World) (domain emitter : nat) :
  _find_rig w = (Ret (Some domain, Some emitter), w) →
  flag (w_settings w) "apply_scale_on_update" = false →
  ∃ x y z s,
    field (w_settings w) "domain_size" = VTuple [x; y; z]
    ∧ field (w_settings w) "emitter_scale" = VTuple s ∧ length s = 3
    ∧ let w2 := sized_and_configured (w_settings w) x y z s domain emitter w in
      update_rig w =
        (_ensure_domain_material domain (w_settings w);; ret FINISHED) w2
      ∧ scales w2 =
          <[emitter := s]> (<[domain := [x / 2.0; y / 2.0; z / 2.0]%Q]> (scales w))
      ∧ scales (update_rig w).2 = scales w2
      ∧ modifier_stacks (update_rig w).2 = modifier_stacks w2
      ∧ (domain ≠ emitter →
         ∃ od oe,
           w_objects w !! domain = Some od
           ∧ w_objects w !! emitter = Some oe
           ∧ w_objects w2 !! domain =
               Some (_apply_domain_settings (w_settings w)
                       (set_ob_scale [x / 2.0; y / 2.0; z / 2.0]%Q od)).2
           ∧ w_objects w2 !! emitter =
               Some (_apply_flow_settings (w_settings w) (set_ob_scale s oe)).2).
Proof.
  intros Hfind Hflag.
  pose proof Hfind as Hres. rewrite find_rig_run in Hres.
  injection Hres as Hd He.
  destruct (resolve_Some "domain_object_name" w domain ltac:(repeat constructor) Hd)
    as (dn & od & _ & Hod & _).
  destruct (resolve_Some "emitter_object_name" w emitter
              (list_elem_of_further _ _ _ (list_elem_of_here _ _)) He)
    as (en & oe & _ & Hoe & _).
  destruct (field_vector (w_settings w) "domain_size" _ _ _ _ eq_refl eq_refl)
    as (size & Hsize & Hsize3).
  destruct size as [|x [|y [|z [|]]]]; try done.
  destruct (field_vector (w_settings w) "emitter_scale" _ _ _ _ eq_refl eq_refl)
    as (s & Hs & Hs3).
  rewrite (flag_field (w_settings w) "apply_scale_on_update" (BoolProperty false)
             eq_refl) in Hflag.
  set (w1 := set_w_objects
               (<[domain := set_ob_scale [x / 2.0; y / 2.0; z / 2.0]%Q od]>
                  (w_objects w)) w).
  assert (∃ oe1, w_objects w1 !! emitter = Some oe1) as [oe1 Hoe1].
  { apply lookup_lt_is_Some_2. unfold w1. cbn [w_objects set_w_objects].
    rewrite length_insert. by eapply lookup_lt_Some. }
  set (w1' := set_w_objects (<[emitter := set_ob_scale s oe1]> (w_objects w1)) w1).
  assert (∃ od2, w_objects w1' !! domain = Some od2) as [od2 Hod2].
  { apply lookup_lt_is_Some_2. unfold w1', w1. cbn [w_objects set_w_objects].
    rewrite !length_insert. by eapply lookup_lt_Some. }
  destruct (apply_domain_settings_closed (w_settings w) od2)
    as (i1 & m1 & _ & _ & _ & Hdom).
  set (w1'' := set_w_objects
                 (<[domain := (_apply_domain_settings (w_settings w) od2).2]>
                    (w_objects w1')) w1').
  assert (∃ oe2, w_objects w1'' !! emitter = Some oe2) as [oe2 Hoe2].
  { apply lookup_lt_is_Some_2. unfold w1'', w1', w1. cbn [w_objects set_w_objects].
    rewrite !length_insert. by eapply lookup_lt_Some. }
  destruct (apply_flow_settings_closed (w_settings w) oe2)
    as (i2 & m2 & _ & _ & _ & Hflow).
  set (w2 := set_w_objects
               (<[emitter := (_apply_flow_settings (w_settings w) oe2).2]>
                  (w_objects w1'')) w1'').
  assert (update_rig w =
            (_ensure_domain_material domain (w_settings w);; ret FINISHED) w2) as Hrun.
  { unfold update_rig. rewrite (bind_run _ _ _ _ _ Hfind).
    unfold update_rig_found. rewrite bind_gets.
    erewrite settings_attr_field by reflexivity. rewrite Hsize.
    cbn [py_index lookup list_lookup]. rewrite !bind_ret.
    rewrite (bind_run _ _ _ _ _ (at_object_modify_run domain _ w od Hod)).
    fold w1. erewrite settings_attr_field by reflexivity. rewrite Hs.
    unfold assign_scale. rewrite decide_True by done.
    rewrite (bind_run _ _ _ _ _ (at_object_modify_run emitter _ w1 oe1 Hoe1)).
    fold w1'. erewrite settings_attr_field by reflexivity. rewrite Hflag.
    rewrite bind_ret.
    rewrite (bind_run _ _ _ _ _
               (at_object_run domain _ w1' od2 (Ret tt)
                  (_apply_domain_settings (w_settings w) od2).2 Hod2
                  ltac:(by rewrite Hdom))).
    fold w1''.
    rewrite (bind_run _ _ _ _ _
               (at_object_run emitter _ w1'' oe2 (Ret tt)
                  (_apply_flow_settings (w_settings w) oe2).2 Hoe2
                  ltac:(by rewrite Hflow))).
    done. }
  assert (w2 = sized_and_configured (w_settings w) x y z s domain emitter w)
    as Hw2.
  { unfold sized_and_configured.
    rewrite (alter_as_insert _ domain (w_objects w) od Hod).
    fold (w_objects w1) in |- *.
    change (<[domain := set_ob_scale [x / 2.0; y / 2.0; z / 2.0]%Q od]> (w_objects w))
      with (w_objects w1).
    rewrite (alter_as_insert _ emitter (w_objects w1) oe1 Hoe1).
    change (<[emitter := set_ob_scale s oe1]> (w_objects w1)) with (w_objects w1').
    rewrite (alter_as_insert _ domain (w_objects w1') od2 Hod2).
    change (<[domain := (_apply_domain_settings (w_settings w) od2).2]>
              (w_objects w1')) with (w_objects w1'').
    rewrite (alter_as_insert _ emitter (w_objects w1'') oe2 Hoe2).
    reflexivity. }
  exists x, y, z, s. do 3 (split; [done|]). cbv zeta. rewrite <- Hw2.
  split; [done|].
  assert (scales w2 =
            <[emitter := s]> (<[domain := [x / 2.0; y / 2.0; z / 2.0]%Q]> (scales w)))
    as Hscales.
  { transitivity (scales w1').
    - transitivity (scales w1'').
      + unfold w2, scales. cbn [w_objects set_w_objects].
        apply (fmap_insert_same ob_scale _ _ _ _ Hoe2).
        rewrite Hflow. cbn [snd ob_scale set_ob_modifiers].
        apply preserves_scale_ensure_fluid_modifier.
      + unfold w1'', scales. cbn [w_objects set_w_objects].
        apply (fmap_insert_same ob_scale _ _ _ _ Hod2).
        rewrite Hdom. cbn [snd ob_scale set_ob_modifiers].
        apply preserves_scale_ensure_fluid_modifier.
    - unfold w1', w1, scales. cbn [w_objects set_w_objects].
      by rewrite !list_fmap_insert. }
  split; [done|]. rewrite Hrun. split; [|split].
  - apply (preserves_elim scales). apply preserves_bind; [|done].
    apply (preserves_objects_ensure_domain_material ob_scale).
    apply set_first_material_scale.
  - apply (preserves_elim modifier_stacks). apply preserves_bind; [|done].
    apply (preserves_objects_ensure_domain_material ob_modifiers).
    apply set_first_material_modifiers.
  - intros Hne. exists od, oe. split; [done|]. split; [done|].
    assert (oe1 = oe) as ->.
    { unfold w1 in Hoe1. cbn [w_objects set_w_objects] in Hoe1.
      rewrite list_lookup_insert_ne in Hoe1 by done.
      rewrite Hoe in Hoe1. by injection Hoe1. }
    assert (od2 = set_ob_scale [x / 2.0; y / 2.0; z / 2.0]%Q od) as ->.
    { unfold w1', w1 in Hod2. cbn [w_objects set_w_objects] in Hod2.
      rewrite list_lookup_insert_ne in Hod2 by done.
      rewrite list_lookup_insert_eq in Hod2 by (by eapply lookup_lt_Some).
      by injection Hod2. }
    assert (oe2 = set_ob_scale s oe) as ->.
    { unfold w1'', w1', w1 in Hoe2. cbn [w_objects set_w_objects] in Hoe2.
      rewrite list_lookup_insert_ne in Hoe2 by done.
      rewrite list_lookup_insert_eq in Hoe2
        by (rewrite length_insert; by eapply lookup_lt_Some).
      by injection Hoe2. }
    unfold w2, w1'', w1', w1. cbn [w_objects set_w_objects]. split.
    + rewrite list_lookup_insert_ne by done.
      apply list_lookup_insert_eq. rewrite !length_insert.
      by eapply lookup_lt_Some.
    + apply list_lookup_insert_eq. rewrite !length_insert.
      by eapply lookup_lt_Some.
Qed.

(** X12. [_find_rig] never raises and changes nothing.  A name that is
    empty or that no object carries resolves to nothing; otherwise the
    name resolves to the first object that carries it. *)
Theorem find_rig_resolves (w : World) :
  ∃ dom emi,
    _find_rig w = (Ret (dom, emi), w)
    ∧ dom = resolve "domain_object_name" w
    ∧ emi = resolve "emitter_object_name" w
    ∧ ∀ k, k ∈ ["domain_object_name"; "emitter_object_name"] →
        match resolve k w with
        | Some i =>
            stored_name k w ≠ ""
            ∧ object_names w !! i = Some (stored_name k w)
            ∧ ∀ j, j < i → object_names w !! j ≠ Some (stored_name k w)
        | None => stored_name k w = "" ∨ stored_name k w ∉ object_names w
        end.
Proof.
  eexists _, _. split; [apply find_rig_run|]. split; [done|]. split; [done|].
  intros k _. unfold resolve. case_bool_decide as Hname; [by left|].
  destruct (find_object (stored_name k w) w) as [i|] eqn:Hfind.
  - split; [done|]. by apply find_object_names.
  - right. by apply find_object_None.
Qed.

(** * The domain's material *)

Lemma settings_attr_inv {S} (settings : Settings) k (s s' : S) v :
  settings_attr settings k s = (Ret v, s') → s' = s.
Proof. unfold settings_attr. destruct (getattr settings k); by intros [= _ <-]. Qed.

Lemma zoom_at_inv {S T A} (proj : S → list T) (upd : list T → S → S) i e
    (m : ST T A) s r s' :
  zoom_at proj upd i e m s = (Ret r, s') →
  ∃ x x', proj s !! i = Some x ∧ m x = (Ret r, x')
          ∧ s' = upd (<[i := x']> (proj s)) s.
Proof.
  unfold zoom_at. destruct (proj s !! i) as [x|]; [|done].
  destruct (m x) as [r' x'] eqn:Hm. intros [= -> <-]. by exists x, x'.
Qed.

(** X13. When [_ensure_domain_material] returns, the first material slot
    of the domain's mesh holds the material called FireVFX_Volume (the
    slot is added when the mesh had none) and the other slots are what
    they were; an object without mesh data is left alone.  At most one
    material is added to the document, no other material, object,
    collection or setting changes, and the material has nodes enabled. *)
Theorem ensure_domain_material_assigns (domain_obj : nat) (settings : Settings)
    (w w' : World) (o : Object) :
  _ensure_domain_material domain_obj settings w = (Ret tt, w') →
  w_objects w !! domain_obj = Some o →
  ∃ mat m,
    find_by_name ma_name MATERIAL_NAME (w_materials w') = Some mat
    ∧ w_materials w' !! mat = Some m
    ∧ ma_name m = MATERIAL_NAME ∧ ma_use_nodes m = true
    ∧ is_Some (ma_node_tree m)
    ∧ w_objects w' = <[domain_obj := set_first_material mat o]> (w_objects w)
    ∧ match ob_data o with
      | Some me =>
          ∃ me', ob_data (set_first_material mat o) = Some me'
                 ∧ me_materials me' = mat :: drop 1 (me_materials me)
                 ∧ me_size me' = me_size me
      | None => set_first_material mat o = o
      end
    ∧ length (w_materials w') =
        length (w_materials w)
        + match find_by_name ma_name MATERIAL_NAME (w_materials w) with
          | Some _ => 0
          | None => 1
          end
    ∧ (∀ j m', j ≠ mat → w_materials w !! j = Some m' →
               w_materials w' !! j = Some m')
    ∧ layout w' = layout w ∧ w_settings w' = w_settings w.
Proof.
  intros H Ho. unfold _ensure_domain_material in H.
  apply bind_inv in H as (mat & w1 & Hmat & H).
  destruct (get_or_create_material_run MATERIAL_NAME w)
    as (i & l & m0 & Hrun & Hi & Hname & Hfind & Hl).
  rewrite Hrun in Hmat. injection Hmat as <- <-.
  apply bind_inv in H as (low & ? & ->%settings_attr_inv & H).
  apply bind_inv in H as (mid & ? & ->%settings_attr_inv & H).
  apply bind_inv in H as (high & ? & ->%settings_attr_inv & H).
  apply bind_inv in H as (fs & ? & ->%settings_attr_inv & H).
  apply bind_inv in H as (sd & ? & ->%settings_attr_inv & H).
  apply bind_inv in H as ([] & w2 & Hbuild & H).
  apply zoom_at_inv in Hbuild as (m1 & m2 & Hm1 & Hbuild & ->).
  apply zoom_at_inv in H as (o2 & o' & Ho2 & Hmod & ->).
  injection Hmod as <-.
  cbn [w_materials w_objects set_w_materials set_w_objects] in *.
  assert (i < length l) as Hlt by by eapply lookup_lt_Some.
  rewrite list_lookup_insert_eq in Hm1 by done. injection Hm1 as <-.
  rewrite Ho in Ho2. injection Ho2 as <-.
  rewrite list_insert_insert_eq.
  assert (∃ t, ma_node_tree (enable_nodes m0) = Some t) as [t Ht].
  { unfold enable_nodes. cbn. eauto. }
  destruct (build_volume_shader_shape fs sd
              [(0.0%Q, low); (0.25%Q, mid); (1.0%Q, high)] (enable_nodes m0) t Ht)
    as [t' Hshape].
  rewrite Hbuild in Hshape. cbn [snd] in Hshape. subst m2.
  exists i, (set_ma_node_tree (Some t') (enable_nodes m0)).
  split; [by apply find_by_name_insert|].
  split; [by apply list_lookup_insert_eq|].
  split; [done|]. split; [done|]. split; [by eexists|]. split; [done|].
  split.
  { unfold set_first_material. destruct (ob_data o) as [me|]; [|done].
    eexists. split; [done|]. cbn. split; [|done]. by destruct (me_materials me). }
  split.
  { rewrite length_insert. destruct Hl as [->|[Hnone ->]].
    - rewrite Hfind. lia.
    - rewrite Hnone, length_app. simpl. lia. }
  split.
  { intros j m' Hj Hm'. rewrite list_lookup_insert_ne by done.
    destruct Hl as [->|[_ ->]]; [done|]. by apply lookup_app_l_Some. }
  split; [|done].
  unfold layout. cbn [w_objects w_collections w_scene_objects w_scene_children
                        set_w_objects set_w_materials].
  by rewrite (fmap_insert_same ob_name _ _ _ _ Ho (set_first_material_name i o)).
Qed.

(** * The panel *)

Lemma shown_props_cases (P : list string → Prop) (s : Settings) :
  (∀ adaptive advanced noise dissolve velocity : bool,
     flag s "use_adaptive_domain" = adaptive →
     flag s "ui_show_advanced" = advanced →
     flag s "use_noise" = noise →
     flag s "use_dissolve_smoke" = dissolve →
     flag s "use_initial_velocity" = velocity →
     P ([ "preset"; "ui_show_advanced"; "domain_object_name";
          "emitter_object_name"; "domain_size"; "emitter_scale";
          "resolution_max"; "time_scale"; "vorticity"; "use_adaptive_domain" ]
        ++ (if adaptive then [ "adaptive_margin"; "adaptive_additional_res" ]
            else [])
        ++ (if advanced
            then [ "use_noise" ]
                 ++ (if noise then [ "noise_strength"; "noise_scale" ] else [])
                 ++ [ "burning_rate"; "flame_smoke"; "use_dissolve_smoke" ]
                 ++ (if dissolve then [ "dissolve_speed" ] else [])
            else [])
        ++ [ "flow_density"; "flow_temperature"; "flow_fuel" ]
        ++ (if advanced
            then [ "use_initial_velocity" ]
                 ++ (if velocity then [ "velocity_factor" ] else [])
            else [])
        ++ [ "flame_strength"; "smoke_density"; "flame_color_low";
             "flame_color_mid"; "flame_color_high"; "cache_directory" ]
        ++ (if advanced then [ "apply_scale_on_update" ] else []))) →
  P (shown_props s).
Proof.
  intros H.
  specialize (H _ _ _ _ _ eq_refl eq_refl eq_refl eq_refl eq_refl).
  unfold shown_props, draw.
  destruct (flag s "use_adaptive_domain"), (flag s "ui_show_advanced"),
    (flag s "use_noise"), (flag s "use_dissolve_smoke"),
    (flag s "use_initial_velocity"); exact H.
Qed.

(** X14. Whatever the settings hold, every property that the panel shows
    is declared by the settings class and is shown once, and the panel has
    exactly one button for each of the four operators, in the order in
    which the operators are registered. *)
Theorem panel_shows_declared_properties (s : Settings) :
  Forall (λ k, hasattr k = true) (shown_props s)
  ∧ NoDup (shown_props s)
  ∧ shown_operators s = operator_idnames.
Proof.
  split; [|split].
  - apply shown_props_cases. intros [] [] [] [] [] _ _ _ _ _;
      apply (bool_decide_unpack _); by vm_compute.
  - apply shown_props_cases. intros [] [] [] [] [] _ _ _ _ _;
      apply (bool_decide_unpack _); by vm_compute.
  - unfold shown_operators, draw.
    destruct (flag s "use_adaptive_domain"), (flag s "ui_show_advanced"),
      (flag s "use_noise"), (flag s "use_dissolve_smoke"),
      (flag s "use_initial_velocity"); reflexivity.
Qed.

(** X15. With the advanced switch off, none of the advanced controls is
    on the panel, whatever the other switches say. *)
Theorem panel_hides_advanced_controls (s : Settings) :
  flag s "ui_show_advanced" = false →
  Forall (λ k, k ∉ shown_props s) advanced_props.
Proof.
  intros Hadv. apply shown_props_cases.
  intros [] advanced [] [] [] _ Hadv' _ _ _;
    rewrite Hadv in Hadv'; subst advanced;
    apply (bool_decide_unpack _); by vm_compute.
Qed.

(** X16. With the advanced switch and the four feature switches on, the
    panel shows every property that the settings class declares: no
    setting is out of the user's reach. *)
Theorem panel_reaches_every_property (s : Settings) :
  flag s "ui_show_advanced" = true →
  flag s "use_adaptive_domain" = true →
  flag s "use_noise" = true →
  flag s "use_dissolve_smoke" = true →
  flag s "use_initial_velocity" = true →
  shown_props s ≡ₚ declared_props.
Proof.
  intros H1 H2 H3 H4 H5. apply shown_props_cases.
  intros adaptive advanced noise dissolve velocity <- <- <- <- <-.
  rewrite H1, H2, H3, H4, H5.
  apply (bool_decide_unpack _). by vm_compute.
Qed.

(** * Freeing the cache *)

Lemma preserves_find_rig {B} (f : World → B) : preserves f _find_rig.
Proof. intros w. by rewrite find_rig_run. Qed.

Lemma preserves_report {B} (f : World → B) level message :
  (∀ w, f (reported level message w) = f w) → preserves f (report level message).
Proof. intros H w. apply H. Qed.

Lemma preserves_document_housekeeping domain :
  preserves document
    (try_pass (select_all_deselect;; select_set domain;; set_active domain)).
Proof.
  apply preserves_try_pass.
  apply preserves_bind; [|intros _; apply preserves_bind; [|intros _]];
    apply preserves_host_call; try done; intros w; unfold document; cbn.
  - f_equal. f_equal. f_equal. f_equal. f_equal. by apply fmap_fmap_same.
  - f_equal. f_equal. f_equal. f_equal. f_equal. by apply alter_fmap_same.
Qed.

(** X17. [free_all] never raises.  Without a resolvable domain it reports a
    warning, returns CANCELLED and does nothing else.  With one it calls
    the host's free exactly once and never the bake; when the call raises
    it reports the error and returns CANCELLED, otherwise it returns
    FINISHED and the cache no longer holds a bake. *)
Theorem free_all_frees_once (w : World) :
  ∃ st w' dom emi,
    free_all w = (Ret st, w')
    ∧ _find_rig w = (Ret (dom, emi), w)
    ∧ match dom with
      | None =>
          st = CANCELLED
          ∧ w' = reported "WARNING" "No domain found. Create the rig first." w
      | Some domain =>
          ∃ w1,
            try_pass (select_all_deselect;; select_set domain;; set_active domain) w
              = (Ret tt, w1)
            ∧ filter is_fluid_call (calls_since w w') = ["fluid.free_all"]
            ∧ match host_raises "fluid.free_all" w1 with
              | None =>
                  st = FINISHED ∧ w_reports w' = w_reports w ∧ w_baked w' = false
              | Some e =>
                  st = CANCELLED
                  ∧ w_reports w' = w_reports w ++ [("ERROR", "Free failed: " +:+ e)]
                  ∧ w_baked w' = w_baked w1
              end
      end.
Proof.
  unfold free_all. rewrite (bind_run _ _ _ _ _ (find_rig_run w)).
  cbv beta. cbn [fst]. rewrite (find_rig_run w).
  destruct (resolve "domain_object_name" w) as [domain|].
  2:{ eexists _, _, None, _. split; [reflexivity|]. split; [reflexivity|].
      split; reflexivity. }
  destruct (housekeeping_run domain w) as (w1 & hk & Hhk & Hrep & Hcalls & Hfl).
  rewrite (bind_run _ _ _ _ _ Hhk).
  unfold catch, bind, fluid_free_all, host_call, report, modify, calls_since.
  destruct (host_raises "fluid.free_all" w1) as [e|] eqn:Hf.
  - eexists _, _, (Some domain), _. split; [done|]. split; [done|].
    exists w1. split; [done|]. rewrite Hf. simpl.
    split; [by rewrite (fluid_calls_since _ _ _ _ Hcalls Hfl)|].
    split; [done|]. by rewrite Hrep.
  - eexists _, _, (Some domain), _. split; [done|]. split; [done|].
    exists w1. split; [done|]. rewrite Hf. simpl.
    split; [by rewrite (fluid_calls_since _ _ _ _ Hcalls Hfl)|].
    split; [done|]. split; [|done]. by rewrite Hrep.
Qed.

(** X18. Neither [bake_all] nor [free_all] changes the document beyond the
    selection, the active object, the bake state and the logs: objects
    (names, scales, attributes, mesh data, modifiers), collections, scene
    links, materials and settings are what they were, on every outcome. *)
Theorem bake_and_free_leave_document (w : World) :
  document (bake_all w).2 = document w ∧ document (free_all w).2 = document w.
Proof.
  split.
  - apply (preserves_elim document). unfold bake_all.
    apply preserves_bind; [apply preserves_find_rig|]. intros [[d|] e]; cbn [fst].
    + apply preserves_bind; [apply preserves_document_housekeeping|]. intros _.
      apply preserves_bind; [|by intros []].
      apply preserves_catch.
      * apply preserves_bind; [by apply preserves_host_call|done].
      * intros _. apply preserves_catch.
        -- apply preserves_bind; [by apply preserves_host_call|]. intros _.
           apply preserves_bind; [by apply preserves_host_call|done].
        -- intros e'. apply preserves_bind; [by apply preserves_report|done].
    + apply preserves_bind; [by apply preserves_report|done].
  - apply (preserves_elim document). unfold free_all.
    apply preserves_bind; [apply preserves_find_rig|]. intros [[d|] e]; cbn [fst].
    + apply preserves_bind; [apply preserves_document_housekeeping|]. intros _.
      apply preserves_bind; [|by intros []].
      apply preserves_catch.
      * apply preserves_bind; [by apply preserves_host_call|done].
      * intros e'. apply preserves_bind; [by apply preserves_report|done].
    + apply preserves_bind; [by apply preserves_report|done].
Qed.

(** * What an update leaves alone *)

(** X19. [update_rig] never creates, renames or relinks anything and never
    writes the settings: the object names, the collections with their
    members, the scene's own links and the settings are the same after it,
    whether it finishes, is cancelled or raises. *)
Theorem update_rig_keeps_layout_and_settings (w : World) :
  layout (update_rig w).2 = layout w
  ∧ w_settings (update_rig w).2 = w_settings w
  ∧ length (w_objects (update_rig w).2) = length (w_objects w).
Proof.
  assert (preserves layout update_rig) as Hl.
  { unfold update_rig. apply preserves_bind; [apply preserves_find_rig|].
    intros [[d|] [e|]]; try apply preserves_layout_update_rig_found;
      (apply preserves_bind; [by apply preserves_report|done]). }
  assert (preserves w_settings update_rig) as Hs.
  { unfold update_rig. apply preserves_bind; [apply preserves_find_rig|].
    intros [[d|] [e|]]; try apply preserves_settings_update_rig_found;
      (apply preserves_bind; [by apply preserves_report|done]). }
  split; [apply Hl|]. split; [apply Hs|].
  specialize (Hl w). unfold layout in Hl.
  apply (f_equal (λ x, length x.1.1.1)) in Hl. simpl in Hl.
  by rewrite !length_fmap in Hl.
Qed.

(** * Collections and materials *)

(** X20. [_link_to_collection] never raises for a collection of the
    document.  Afterwards the object is the last member of that collection,
    is a member of no other collection and is no longer held by the scene
    directly; every collection keeps its name and its other members in
    their order, and no object is changed. *)
Theorem link_to_collection_moves (obj c : nat) (w : World) :
  c < length (w_collections w) →
  ∃ w',
    _link_to_collection obj c w = (Ret tt, w')
    ∧ w_objects w' = w_objects w
    ∧ w_scene_objects w' = remove_object obj (w_scene_objects w)
    ∧ (obj ∉ w_scene_objects w')
    ∧ co_name <$> w_collections w' = co_name <$> w_collections w
    ∧ ∀ j col', w_collections w' !! j = Some col' →
        (obj ∈ co_objects col' ↔ j = c)
        ∧ ∃ col, w_collections w !! j = Some col
                 ∧ co_objects col' =
                     remove_object obj (co_objects col)
                       ++ (if decide (j = c) then [obj] else []).
Proof.
  intros Hc. eexists. split; [by apply link_to_collection_run|]. cbn.
  split; [done|]. split; [done|]. split; [apply remove_object_elem|].
  split; [apply moved_into_names|].
  intros j col'. rewrite moved_into_lookup.
  destruct (w_collections w !! j) as [col|]; [|done].
  intros [= <-]. cbn. split; [|by exists col].
  rewrite elem_of_app. destruct (decide (j = c)) as [->|Hj].
  - split; [done|]. intros _. right. apply list_elem_of_here.
  - split; [|done]. intros [Hin|Hin]; [|by apply elem_of_nil in Hin].
    by apply remove_object_elem in Hin.
Qed.

(** X21. [_ensure_collection] never raises.  A collection that already
    carries the name is returned and nothing changes (it is not linked to
    the scene if it was not).  Otherwise exactly one empty collection of
    that name is added after the existing ones and linked under the scene,
    and a second call finds it and changes nothing. *)
Theorem ensure_collection_once (name : string) (w : World) :
  match find_by_name co_name name (w_collections w) with
  | Some c => _ensure_collection name w = (Ret c, w)
  | None =>
      let c := length (w_collections w) in
      ∃ w',
        _ensure_collection name w = (Ret c, w')
        ∧ w_collections w' =
            w_collections w ++ [{| co_name := name; co_objects := [] |}]
        ∧ w_scene_children w' = w_scene_children w ++ [c]
        ∧ w_objects w' = w_objects w
        ∧ w_scene_objects w' = w_scene_objects w
        ∧ w_materials w' = w_materials w
        ∧ w_settings w' = w_settings w
        ∧ _ensure_collection name w' = (Ret c, w')
  end.
Proof.
  destruct (find_by_name co_name name (w_collections w)) as [c|] eqn:Hfind.
  - by apply ensure_collection_found.
  - eexists. split.
    { unfold _ensure_collection. rewrite bind_get, Hfind.
      rewrite bind_modify, bind_modify. reflexivity. }
    do 6 (split; [reflexivity|]).
    apply ensure_collection_found.
    exact (find_by_name_snoc co_name name (w_collections w)
             {| co_name := name; co_objects := [] |} Hfind eq_refl).
Qed.

(** X22. [_get_or_create_material] never raises.  The material it returns
    carries the requested name, has nodes enabled and owns a node tree; it
    is the first material of that name, one is created only when none
    exists, every other material is untouched, and a second call returns
    the same material and changes nothing. *)
Theorem get_or_create_material_once (name : string) (w : World) :
  ∃ i w' m,
    _get_or_create_material name w = (Ret i, w')
    ∧ w_materials w' !! i = Some m
    ∧ ma_name m = name ∧ ma_use_nodes m = true ∧ is_Some (ma_node_tree m)
    ∧ find_by_name ma_name name (w_materials w') = Some i
    ∧ length (w_materials w') =
        length (w_materials w)
        + match find_by_name ma_name name (w_materials w) with
          | Some _ => 0
          | None => 1
          end
    ∧ (∀ j m', j ≠ i → w_materials w !! j = Some m' →
               w_materials w' !! j = Some m')
    ∧ layout w' = layout w ∧ w_settings w' = w_settings w
    ∧ _get_or_create_material name w' = (Ret i, w').
Proof.
  destruct (get_or_create_material_run name w)
    as (i & l & m & Hrun & Hi & Hname & Hfind & Hl).
  exists i, (set_w_materials (<[i := enable_nodes m]> l) w), (enable_nodes m).
  assert (i < length l) as Hlt by (by eapply lookup_lt_Some).
  assert (<[i := enable_nodes m]> l !! i = Some (enable_nodes m)) as Hi'
    by (by apply list_lookup_insert_eq).
  split; [done|]. cbn [w_materials set_w_materials].
  split; [done|]. split; [done|]. split; [done|].
  split; [cbn; by destruct (ma_node_tree m)|].
  split; [by apply find_by_name_insert|].
  split.
  { rewrite length_insert. destruct Hl as [->|[Hnone ->]].
    - rewrite Hfind. lia.
    - rewrite Hnone, length_app. simpl. lia. }
  split.
  { intros j m' Hj Hm'. rewrite list_lookup_insert_ne by done.
    destruct Hl as [->|[_ ->]]; [done|]. by apply lookup_app_l_Some. }
  split; [done|]. split; [done|].
  destruct (ma_node_tree m) as [t|] eqn:Ht.
  - eapply get_or_create_material_again.
    + by apply find_by_name_insert.
    + exact Hi'.
    + done.
    + cbn. by rewrite Ht.
  - eapply get_or_create_material_again.
    + by apply find_by_name_insert.
    + exact Hi'.
    + done.
    + cbn. by rewrite Ht.
Qed.

(** * From creating the rig to finding it again *)

Lemma settings_assign_name k name w :
  k ∈ ["domain_object_name"; "emitter_object_name"] →
  settings_assign k (VStr name) w =
    (Ret tt, set_w_settings (<[k := VStr name]> (w_settings w)) w).
Proof.
  intros Hk. unfold settings_assign, setattr. rewrite bind_get.
  assert (prop_of k = Some (StringProperty "")) as ->.
  { revert Hk. rewrite !elem_of_cons, elem_of_nil. by intros [->|[->|[]]]. }
  done.
Qed.

Lemma stored_name_lookup k name w :
  k ∈ ["domain_object_name"; "emitter_object_name"] →
  w_settings w !! k = Some (VStr name) →
  stored_name k w = name.
Proof.
  intros Hk Hs. unfold stored_name, getattr.
  assert (prop_of k = Some (StringProperty "")) as ->.
  { revert Hk. rewrite !elem_of_cons, elem_of_nil. by intros [->|[->|[]]]. }
  cbn. by rewrite Hs.
Qed.

Lemma layout_names w w' : layout w' = layout w → object_names w' = object_names w.
Proof. unfold layout, object_names. by intros [= -> _ _ _]. Qed.

Lemma resolve_stored k name w i :
  k ∈ ["domain_object_name"; "emitter_object_name"] →
  w_settings w !! k = Some (VStr name) → name ≠ "" →
  NoDup (object_names w) → object_names w !! i = Some name →
  resolve k w = Some i.
Proof.
  intros Hk Hs Hne Hnd Hi. unfold resolve.
  rewrite (stored_name_lookup k name w Hk Hs).
  rewrite bool_decide_eq_false_2 by done. by apply find_object_NoDup.
Qed.

(** X23. When [create_rig] finishes on a document whose object names are
    unique, the names it stored in the settings are the two fixed rig
    names and [_find_rig] resolves them to two different objects that
    carry these names; a following [update_rig], [bake_all] or [free_all]
    therefore finds the rig. *)
Theorem create_rig_then_find_rig (w w1 : World) (st : status) :
  NoDup (object_names w) →
  create_rig w = (Ret st, w1) →
  st = FINISHED
  ∧ ∃ d e,
      _find_rig w1 = (Ret (Some d, Some e), w1)
      ∧ d ≠ e
      ∧ object_names w1 !! d = Some DOMAIN_NAME
      ∧ object_names w1 !! e = Some EMITTER_NAME
      ∧ stored_name "domain_object_name" w1 = DOMAIN_NAME
      ∧ stored_name "emitter_object_name" w1 = EMITTER_NAME.
Proof.
  intros Hnd Hrun.
  destruct (create_rig_objects_run w Hnd)
    as (d & e & c & others & w0 & Hobjs & Hlinked & _).
  unfold create_rig in Hrun. rewrite (bind_run _ _ _ _ _ Hobjs) in Hrun.
  cbn [fst snd] in Hrun. rewrite create_rig_from_sizes_split in Hrun.
  pose proof (preserves_layout_update_rig_found d e w0) as Hlay2.
  unfold bind at 1 in Hrun.
  destruct (update_rig_found d e w0) as [[st2|e2] w2]; [|done].
  cbn [snd] in Hlay2.
  pose proof (rig_linked_layout _ _ _ _ _ _ Hlay2 Hlinked) as Hlinked2.
  destruct Hlinked2 as (Hnd2 & Hd2 & He2 & _).
  pose proof Hd2 as Hd2'. pose proof He2 as He2'.
  unfold object_names in Hd2', He2'. rewrite list_lookup_fmap in Hd2', He2'.
  destruct (w_objects w2 !! d) as [od|] eqn:Hod; [|done].
  destruct (w_objects w2 !! e) as [oe|] eqn:Hoe; [|done].
  injection Hd2' as Hdn. injection He2' as Hen.
  rewrite (bind_run _ _ _ _ _ (object_name_run _ _ _ Hod)), Hdn in Hrun.
  rewrite (bind_run _ _ _ _ _
             (settings_assign_name "domain_object_name" _ _
                ltac:(repeat constructor))) in Hrun.
  set (w3 := set_w_settings _ w2) in Hrun.
  rewrite (bind_run _ _ _ _ _ (object_name_run e w3 oe Hoe)), Hen in Hrun.
  rewrite (bind_run _ _ _ _ _
             (settings_assign_name "emitter_object_name" _ _
                ltac:(repeat constructor))) in Hrun.
  set (w4 := set_w_settings _ w3) in Hrun.
  assert (layout w1 = layout w4 ∧ w_settings w1 = w_settings w4 ∧ st = FINISHED)
    as (Hlay1 & Hset1 & ->).
  { pose proof (preserves_layout_object_set_if_has d "display_type" (VStr "WIRE") w4)
      as Hl5.
    pose proof (preserves_settings_at_object d
                  (modify (λ o, set_ob_attrs
                                  (_set_if_has "Object" "display_type" (VStr "WIRE")
                                     (ob_attrs o)) o)) w4) as Hs5.
    fold (object_set_if_has d "display_type" (VStr "WIRE")) in Hs5.
    unfold bind at 1 in Hrun.
    destruct (object_set_if_has d "display_type" (VStr "WIRE") w4)
      as [[[]|e5] w5]; [|done].
    pose proof (preserves_layout_object_set_if_has e "display_type" (VStr "SOLID") w5)
      as Hl6.
    pose proof (preserves_settings_at_object e
                  (modify (λ o, set_ob_attrs
                                  (_set_if_has "Object" "display_type" (VStr "SOLID")
                                     (ob_attrs o)) o)) w5) as Hs6.
    fold (object_set_if_has e "display_type" (VStr "SOLID")) in Hs6.
    unfold bind at 1 in Hrun.
    destruct (object_set_if_has e "display_type" (VStr "SOLID") w5)
      as [[[]|e6] w6]; [|done].
    injection Hrun as <- <-. cbn [snd] in *.
    split; [by rewrite Hl6|]. split; [by rewrite Hs6|done]. }
  split; [done|].
  assert (object_names w1 = object_names w2) as Hnames by by apply layout_names.
  assert (w_settings w1 !! "domain_object_name" = Some (VStr DOMAIN_NAME)) as Hsd.
  { rewrite Hset1. unfold w4, w3. cbn [w_settings set_w_settings].
    rewrite lookup_insert_ne by done. apply lookup_insert_eq. }
  assert (w_settings w1 !! "emitter_object_name" = Some (VStr EMITTER_NAME)) as Hse.
  { rewrite Hset1. unfold w4. cbn [w_settings set_w_settings].
    apply lookup_insert_eq. }
  exists d, e. rewrite find_rig_run.
  rewrite (resolve_stored "domain_object_name" DOMAIN_NAME w1 d);
    [|repeat constructor|done|done|by rewrite Hnames|by rewrite Hnames].
  rewrite (resolve_stored "emitter_object_name" EMITTER_NAME w1 e);
    [|repeat constructor|done|done|by rewrite Hnames|by rewrite Hnames].
  split; [done|].
  split; [by eapply rig_linked_distinct|].
  split; [by rewrite Hnames|]. split; [by rewrite Hnames|].
  split; apply stored_name_lookup; try done; repeat constructor.
Qed.

End Host.

(** * The operators on the reference host *)

Definition ref_create_rig : ST World status :=
  create_rig ref_rna_store ref_ramp_color_at ref_new_node ref_default_tree
    ref_modifier_attrs ref_domain_settings ref_flow_settings ref_object_attrs
    ref_unique_name ref_raises.

Definition ref_create_rig_from_sizes (domain emitter : nat) : ST World status :=
  create_rig_from_sizes ref_rna_store ref_ramp_color_at ref_new_node
    ref_default_tree ref_modifier_attrs ref_domain_settings ref_flow_settings
    ref_unique_name ref_raises domain emitter.

Definition ref_update_rig : ST World status :=
  update_rig ref_rna_store ref_ramp_color_at ref_new_node ref_default_tree
    ref_modifier_attrs ref_domain_settings ref_flow_settings ref_unique_name
    ref_raises.

Definition ref_apply_domain_settings (settings : Settings) : ST Object unit :=
  _apply_domain_settings ref_rna_store ref_modifier_attrs ref_domain_settings
    ref_flow_settings ref_unique_name settings.

Definition ref_ensure_domain_material (domain_obj : nat) (settings : Settings) :
    ST World unit :=
  _ensure_domain_material ref_rna_store ref_ramp_color_at ref_new_node
    ref_default_tree domain_obj settings.

Definition ref_build_volume_shader (flame_strength smoke_density : value)
    (flame_ramp : list (Q * value)) : ST Material unit :=
  _build_volume_shader ref_rna_store ref_ramp_color_at ref_new_node
    flame_strength smoke_density flame_ramp.

Definition ref_apply_flow_settings (settings : Settings) : ST Object unit :=
  _apply_flow_settings ref_rna_store ref_modifier_attrs ref_domain_settings
    ref_flow_settings ref_unique_name settings.

(** * Instances on concrete inputs *)

Lemma apply_preset_writes_exactly_candle :
  _apply_preset_to_settings ∅ "CANDLE" =
    foldl (λ s kv, <[kv.1 := kv.2]> s)
      (foldl (λ s kv, <[kv.1 := kv.2]> s) ∅ BASE_PRESET) CANDLE
  ∧ getattr (_apply_preset_to_settings ∅ "CANDLE") "time_scale" =
      match dict_get "time_scale" CANDLE with
      | Some v => Some v
      | None => match dict_get "time_scale" BASE_PRESET with
                | Some v => Some v
                | None => getattr ∅ "time_scale"
                end
      end
  ∧ ("time_scale" ∉ dict_keys CANDLE → "time_scale" ∉ dict_keys BASE_PRESET →
     _apply_preset_to_settings ∅ "CANDLE" !! "time_scale" = (∅ : Settings) !! "time_scale").
Proof.
  apply (apply_preset_writes_exactly "CANDLE" CANDLE ∅ "time_scale").
  apply list_elem_of_here.
Defined.

Lemma unknown_preset_applies_base_inferno :
  overrides_for "INFERNO" = []
  ∧ _apply_preset_to_settings ∅ "INFERNO" =
      foldl (λ s kv, <[kv.1 := kv.2]> s) ∅ BASE_PRESET
  ∧ getattr (_apply_preset_to_settings ∅ "INFERNO") "vorticity" =
      match dict_get "vorticity" BASE_PRESET with
      | Some v => Some v
      | None => getattr ∅ "vorticity"
      end
  ∧ ("vorticity" ∉ dict_keys BASE_PRESET →
     _apply_preset_to_settings ∅ "INFERNO" !! "vorticity" = (∅ : Settings) !! "vorticity").
Proof.
  apply (unknown_preset_applies_base "INFERNO" ∅ "vorticity").
  apply (bool_decide_unpack _). vm_compute. reflexivity.
Defined.

(** [create_rig] twice on a new document, the second time with the
    EXPLOSION preset applied in between. *)
Lemma create_rig_twice_on_empty_document :
  let settings' := _apply_preset_to_settings ∅ "EXPLOSION" in
  let w1 := (ref_create_rig empty_document).2 in
  let w2 := (ref_create_rig (set_w_settings settings' w1)).2 in
  NoDup (object_names empty_document)
  ∧ layout w2 = layout w1
  ∧ length (w_objects w2) = length (w_objects w1)
  ∧ count_named DOMAIN_NAME w2 = 1
  ∧ count_named EMITTER_NAME w2 = 1.
Proof.
  intros settings' w1 w2.
  assert (NoDup (object_names empty_document)) as Hnd by apply NoDup_nil_2.
  split; [exact Hnd|].
  destruct (create_rig_twice ref_rna_store ref_ramp_color_at ref_new_node
              ref_default_tree ref_modifier_attrs ref_domain_settings
              ref_flow_settings ref_object_attrs ref_unique_name ref_raises
              empty_document settings' Hnd)
    as (Hlayout & Hlen & Hd & He & _).
  exact (conj Hlayout (conj Hlen (conj Hd He))).
Defined.

(** What the two runs leave on the reference host: two objects, and the
    grouping collection holding exactly the two. *)
Example create_rig_twice_layout :
  let w1 := (ref_create_rig empty_document).2 in
  let w2 := (ref_create_rig w1).2 in
  (ref_create_rig empty_document).1 = Ret FINISHED
  ∧ (ref_create_rig w1).1 = Ret FINISHED
  ∧ layout w2 =
      (["FireVFX_Domain"; "FireVFX_Emitter"],
       [{| co_name := "FireVFX"; co_objects := [0; 1] |}], [], [0])
  ∧ members COLLECTION_NAME w2 = Some [0; 1]
  ∧ w_calls w2 = ["mesh.primitive_cube_add"; "mesh.primitive_cylinder_add"].
Proof. vm_compute. repeat split. Qed.

(** C3 as stated fails: when the grouping collection already holds an
    object of the user's, both runs finish, no object and no membership is
    duplicated, but the collection holds three members after the second
    run, not exactly the two rig objects. *)
Lemma create_rig_twice_keeps_other_members :
  let w1 := (ref_create_rig cluttered_document).2 in
  let w2 := (ref_create_rig w1).2 in
  NoDup (object_names cluttered_document)
  ∧ (ref_create_rig cluttered_document).1 = Ret FINISHED
  ∧ (ref_create_rig w1).1 = Ret FINISHED
  ∧ object_names w2 = ["Suzanne"; "FireVFX_Domain"; "FireVFX_Emitter"]
  ∧ members COLLECTION_NAME w2 = Some [0; 1; 2]
  ∧ members COLLECTION_NAME w2 ≠ Some [1; 2].
Proof.
  intros w1 w2.
  assert (members COLLECTION_NAME w2 = Some [0; 1; 2]) as Hm
    by (vm_compute; reflexivity).
  split; [apply NoDup_singleton|].
  split; [vm_compute; reflexivity|]. split; [vm_compute; reflexivity|].
  split; [vm_compute; reflexivity|]. split; [exact Hm|].
  rewrite Hm. discriminate.
Qed.

(** [update_rig] on a new document: nothing resolves. *)
Lemma update_rig_without_rig_on_empty_document :
  _find_rig empty_document = (Ret (None, None), empty_document)
  ∧ ref_update_rig empty_document =
      (Ret CANCELLED,
       reported "WARNING" "No rig found. Click Create Fire Rig first."
         empty_document).
Proof.
  assert (_find_rig empty_document = (Ret (None, None), empty_document))
    as Hfind by reflexivity.
  split; [exact Hfind|].
  exact (proj1 (update_rig_without_rig ref_rna_store ref_ramp_color_at
                  ref_new_node ref_default_tree ref_modifier_attrs
                  ref_domain_settings ref_flow_settings ref_unique_name
                  ref_raises empty_document None None Hfind
                  (or_introl eq_refl))).
Defined.

(** [update_rig] on a document that holds the rig. *)
Lemma update_rig_matches_create_rig_on_rigged_document :
  _find_rig rigged_document = (Ret (Some 0, Some 1), rigged_document)
  ∧ let '(r_update, w_update) := ref_update_rig rigged_document in
    let '(r_create, w_create) := ref_create_rig_from_sizes 0 1 rigged_document in
    r_create = r_update
    ∧ match r_update with
      | Ret _ =>
          r_update = Ret FINISHED
          ∧ w_create = with_display_hints ref_rna_store 0 1 w_update
          ∧ w_settings w_create = w_settings w_update
      | Exn _ => w_create = w_update
      end.
Proof.
  assert (_find_rig rigged_document = (Ret (Some 0, Some 1), rigged_document))
    as Hfind by (vm_compute; reflexivity).
  split; [exact Hfind|].
  exact (update_rig_matches_create_rig ref_rna_store ref_ramp_color_at
           ref_new_node ref_default_tree ref_modifier_attrs
           ref_domain_settings ref_flow_settings ref_unique_name ref_raises
           rigged_document 0 1 Hfind).
Defined.

(** C5 as stated fails: on a document whose two rig objects resolve by
    their stored names and are displayed the host's default way, [create_rig]
    from "Apply sizes" on leaves the domain displayed as wire, [update_rig]
    leaves it as it was, so the final states differ. *)
Lemma update_rig_leaves_display_hints :
  _find_rig rigged_document = (Ret (Some 0, Some 1), rigged_document)
  ∧ display_type_of 0 (ref_create_rig_from_sizes 0 1 rigged_document).2
    = Some (VStr "WIRE")
  ∧ display_type_of 0 (ref_update_rig rigged_document).2
    = Some (VStr "TEXTURED")
  ∧ (ref_create_rig_from_sizes 0 1 rigged_document).2
    ≠ (ref_update_rig rigged_document).2.
Proof.
  assert (display_type_of 0 (ref_create_rig_from_sizes 0 1 rigged_document).2
          = Some (VStr "WIRE")) as Hc by (vm_compute; reflexivity).
  assert (display_type_of 0 (ref_update_rig rigged_document).2
          = Some (VStr "TEXTURED")) as Hu by (vm_compute; reflexivity).
  split; [vm_compute; reflexivity|]. split; [exact Hc|]. split; [exact Hu|].
  intros Heq. rewrite Heq, Hu in Hc. discriminate Hc.
Qed.


(** The shader graph on the reference host: seven nodes, seven links, and
    the three stops of the ramp. *)
Example shader_graph_on_reference_host :
  let w := (ref_create_rig empty_document).2 in
  (λ m, (ma_name m, length <$> (nodes <$> ma_node_tree m),
         length <$> (links <$> ma_node_tree m),
         ma_node_tree m ≫= λ t, nodes t !! 4 ≫= nd_color_ramp))
    <$> w_materials w
  = [("FireVFX_Volume", Some 7, Some 7,
      Some [ {| position := 0.0; color := [0.07; 0.01; 0.0; 1.0]%Q |};
             {| position := 0.25; color := [1.0; 0.42; 0.08; 1.0]%Q |};
             {| position := 1.0; color := [1.0; 0.95; 0.85; 1.0]%Q |} ])].
Proof. vm_compute. reflexivity. Qed.

(** The ramp reconciled from no stop, one stop and five stops. *)
Example color_ramp_from_0_1_5_stops :
  let desired := [(0.0%Q, VTuple [0.07; 0.01; 0.0; 1.0]%Q);
                  (0.25%Q, VTuple [1.0; 0.42; 0.08; 1.0]%Q);
                  (1.0%Q, VTuple [1.0; 0.95; 0.85; 1.0]%Q)] in
  let stop p := {| position := p; color := [p; p; p; 1]%Q |} in
  let result := (Ret tt,
                 [ {| position := 0.0; color := [0.07; 0.01; 0.0; 1.0]%Q |};
                   {| position := 0.25; color := [1.0; 0.42; 0.08; 1.0]%Q |};
                   {| position := 1.0; color := [1.0; 0.95; 0.85; 1.0]%Q |} ]) in
  _set_color_ramp_elements ref_ramp_color_at desired [] = result
  ∧ _set_color_ramp_elements ref_ramp_color_at desired [stop 0.5%Q] = result
  ∧ _set_color_ramp_elements ref_ramp_color_at desired
      [stop 0.0%Q; stop 0.2%Q; stop 0.4%Q; stop 0.6%Q; stop 1.0%Q] = result.
Proof. vm_compute. repeat split. Qed.

(** * Further instances on concrete inputs *)

(** Moving the emitter of the rigged document into the rig's collection. *)
Lemma link_to_collection_moves_on_rigged_document :
  0 < length (w_collections rigged_document)
  ∧ ∃ w', _link_to_collection 1 0 rigged_document = (Ret tt, w')
          ∧ w_objects w' = w_objects rigged_document
          ∧ w_scene_objects w' = remove_object 1 (w_scene_objects rigged_document)
          ∧ (1 ∉ w_scene_objects w').
Proof.
  assert (0 < length (w_collections rigged_document)) as Hc by (simpl; lia).
  split; [exact Hc|].
  destruct (link_to_collection_moves 1 0 rigged_document Hc)
    as (w' & Hrun & Hobj & Hscene & Hnot & _).
  exists w'. exact (conj Hrun (conj Hobj (conj Hscene Hnot))).
Defined.

(** [create_rig] on a new document, then [_find_rig]. *)
Lemma create_rig_then_find_rig_on_empty_document :
  let run := create_rig ref_rna_store ref_ramp_color_at ref_new_node
               ref_default_tree ref_modifier_attrs ref_domain_settings
               ref_flow_settings ref_object_attrs ref_unique_name ref_raises
               empty_document in
  NoDup (object_names empty_document)
  ∧ run = (Ret FINISHED, run.2)
  ∧ ∃ d e, _find_rig run.2 = (Ret (Some d, Some e), run.2) ∧ d ≠ e.
Proof.
  intros run.
  assert (NoDup (object_names empty_document)) as Hnd by apply NoDup_nil_2.
  assert (run = (Ret FINISHED, run.2)) as Hrun by (vm_compute; reflexivity).
  split; [exact Hnd|]. split; [exact Hrun|].
  destruct (create_rig_then_find_rig ref_rna_store ref_ramp_color_at ref_new_node
              ref_default_tree ref_modifier_attrs ref_domain_settings
              ref_flow_settings ref_object_attrs ref_unique_name ref_raises
              empty_document run.2 FINISHED Hnd Hrun)
    as (_ & d & e & Hfind & Hne & _).
  exists d, e. exact (conj Hfind Hne).
Defined.

(** Two stops, the second beyond the unit interval, on an empty ramp. *)
Lemma color_ramp_reconciled_two_stops :
  let elements := [(0.0%Q, VTuple [1; 0; 0; 1]%Q); (2.0%Q, VTuple [0; 0; 1; 1]%Q)] in
  length elements ≤ MAXCOLORBAND
  ∧ Forall (λ e, rgba e.2) elements
  ∧ _set_color_ramp_elements ref_ramp_color_at elements [] =
      (Ret tt, stop_of <$> elements).
Proof.
  intros elements.
  assert (length elements ≤ MAXCOLORBAND) as Hlen
    by (unfold MAXCOLORBAND; simpl; lia).
  assert (Forall (λ e, rgba e.2) elements) as Hok.
  { repeat constructor; eexists; (split; [reflexivity|reflexivity]). }
  split; [exact Hlen|]. split; [exact Hok|].
  exact (color_ramp_reconciled ref_ramp_color_at elements [] Hlen Hok).
Defined.

(** Thirty-three stops on a ramp of one stop. *)
Lemma color_ramp_overflow_33_stops :
  let elements := replicate 33 (0.5%Q, VTuple [1; 1; 1; 1]%Q) in
  let cr := [{| position := 0.5%Q; color := [0; 0; 0; 1]%Q |}] in
  MAXCOLORBAND < length elements
  ∧ length cr ≤ MAXCOLORBAND
  ∧ ∃ cr', _set_color_ramp_elements ref_ramp_color_at elements cr =
             (Exn "RuntimeError", cr')
           ∧ length cr' = MAXCOLORBAND
           ∧ cr `sublist_of` cr'.
Proof.
  intros elements cr.
  assert (MAXCOLORBAND < length elements) as Hbig
    by (unfold MAXCOLORBAND, elements; rewrite length_replicate; lia).
  assert (length cr ≤ MAXCOLORBAND) as Hcr by (unfold MAXCOLORBAND; simpl; lia).
  split; [exact Hbig|]. split; [exact Hcr|].
  destruct (color_ramp_overflow ref_ramp_color_at elements cr Hbig Hcr)
    as (cr' & Hrun & Hlen & Hsub & _).
  exists cr'. exact (conj Hrun (conj Hlen Hsub)).
Defined.

(** The domain configurator on an object that carries a subdivision
    modifier, which has no [fluid_type], and a fluid modifier. *)
Lemma domain_settings_follow_settings_beside_subsurf :
  let obj := one_fluid_object in
  (∀ a x, ref_rna_store "FluidModifier" a "fluid_type" x = Some x)
  ∧ (∀ a k x, ref_rna_store "FluidDomainSettings" a k x = Some x)
  ∧ is_Some (ref_modifier_attrs !! "fluid_type")
  ∧ (∀ m, m ∈ ob_modifiers obj → md_type m = "FLUID" →
          is_Some (md_attrs m !! "fluid_type"))
  ∧ ∃ i m' ds',
      ob_modifiers (ref_apply_domain_settings ∅ obj).2 !! i = Some m'
      ∧ md_attrs m' !! "fluid_type" = Some (VStr "DOMAIN")
      ∧ md_domain_settings m' = Some ds'
      ∧ md_flow_settings m' = None.
Proof.
  intros obj.
  assert (∀ a x, ref_rna_store "FluidModifier" a "fluid_type" x = Some x) as H1
    by (intros; reflexivity).
  assert (∀ a k x, ref_rna_store "FluidDomainSettings" a k x = Some x) as H2
    by (intros; reflexivity).
  assert (is_Some (ref_modifier_attrs !! "fluid_type")) as H3
    by (exists (VStr "NONE"); reflexivity).
  assert (∀ m, m ∈ ob_modifiers obj → md_type m = "FLUID" →
               is_Some (md_attrs m !! "fluid_type")) as H4.
  { intros m Hm Hty. exists (VStr "NONE").
    apply list_elem_of_lookup in Hm as [j Hj].
    destruct j as [|[|j]]; [|injection Hj as <-; reflexivity|discriminate Hj].
    injection Hj as <-. discriminate Hty. }
  split; [exact H1|]. split; [exact H2|]. split; [exact H3|]. split; [exact H4|].
  destruct (domain_settings_follow_settings ref_rna_store ref_modifier_attrs
              ref_domain_settings ref_flow_settings ref_unique_name ∅ obj
              H1 H2 H3 H4)
    as (i & m & m' & ds' & _ & _ & Hi & _ & _ & Hty & Hds & Hfs & _).
  exists i, m', ds'. exact (conj Hi (conj Hty (conj Hds Hfs))).
Defined.

(** The flow configurator on the same object. *)
Lemma flow_settings_follow_settings_beside_subsurf :
  let obj := one_fluid_object in
  (∀ a x, ref_rna_store "FluidModifier" a "fluid_type" x = Some x)
  ∧ (∀ a k x, k ≠ "flow_type" → ref_rna_store "FluidFlowSettings" a k x = Some x)
  ∧ is_Some (ref_modifier_attrs !! "fluid_type")
  ∧ (∀ m, m ∈ ob_modifiers obj → md_type m = "FLUID" →
          is_Some (md_attrs m !! "fluid_type"))
  ∧ ∃ i m' fs',
      ob_modifiers (ref_apply_flow_settings ∅ obj).2 !! i = Some m'
      ∧ md_attrs m' !! "fluid_type" = Some (VStr "FLOW")
      ∧ md_flow_settings m' = Some fs'
      ∧ md_domain_settings m' = None.
Proof.
  intros obj.
  assert (∀ a x, ref_rna_store "FluidModifier" a "fluid_type" x = Some x) as H1
    by (intros; reflexivity).
  assert (∀ a k x, k ≠ "flow_type" →
                   ref_rna_store "FluidFlowSettings" a k x = Some x) as H2
    by (intros; reflexivity).
  assert (is_Some (ref_modifier_attrs !! "fluid_type")) as H3
    by (exists (VStr "NONE"); reflexivity).
  assert (∀ m, m ∈ ob_modifiers obj → md_type m = "FLUID" →
               is_Some (md_attrs m !! "fluid_type")) as H4.
  { intros m Hm Hty. exists (VStr "NONE").
    apply list_elem_of_lookup in Hm as [j Hj].
    destruct j as [|[|j]]; [|injection Hj as <-; reflexivity|discriminate Hj].
    injection Hj as <-. discriminate Hty. }
  split; [exact H1|]. split; [exact H2|]. split; [exact H3|]. split; [exact H4|].
  destruct (flow_settings_follow_settings ref_rna_store ref_modifier_attrs
              ref_domain_settings ref_flow_settings ref_unique_name ∅ obj
              H1 H2 H3 H4)
    as (i & m & m' & fs' & _ & _ & Hi & _ & _ & Hty & Hfs & Hds & _).
  exists i, m', fs'. exact (conj Hi (conj Hty (conj Hfs Hds))).
Defined.

(** The panel for settings nobody touched: the simple view. *)
Lemma panel_hides_advanced_controls_by_default :
  flag ∅ "ui_show_advanced" = false
  ∧ Forall (λ k, k ∉ shown_props ∅) advanced_props.
Proof.
  assert (flag ∅ "ui_show_advanced" = false) as Hadv by reflexivity.
  split; [exact Hadv|]. exact (panel_hides_advanced_controls ∅ Hadv).
Defined.

(** The panel with everything switched on. *)
Lemma panel_reaches_every_property_when_on :
  flag everything_on "ui_show_advanced" = true
  ∧ flag everything_on "use_adaptive_domain" = true
  ∧ flag everything_on "use_noise" = true
  ∧ flag everything_on "use_dissolve_smoke" = true
  ∧ flag everything_on "use_initial_velocity" = true
  ∧ shown_props everything_on ≡ₚ declared_props.
Proof.
  assert (flag everything_on "ui_show_advanced" = true) as H1
    by (vm_compute; reflexivity).
  assert (flag everything_on "use_adaptive_domain" = true) as H2
    by (vm_compute; reflexivity).
  assert (flag everything_on "use_noise" = true) as H3
    by (vm_compute; reflexivity).
  assert (flag everything_on "use_dissolve_smoke" = true) as H4
    by (vm_compute; reflexivity).
  assert (flag everything_on "use_initial_velocity" = true) as H5
    by (vm_compute; reflexivity).
  split; [exact H1|]. split; [exact H2|]. split; [exact H3|].
  split; [exact H4|]. split; [exact H5|].
  exact (panel_reaches_every_property everything_on H1 H2 H3 H4 H5).
Defined.

(** The graph built on the reference host. *)
Lemma build_volume_shader_graph_on_reference_host :
  let ramp := [(0.0%Q, VTuple [0.07; 0.01; 0.0; 1.0]%Q);
               (0.25%Q, VTuple [1.0; 0.42; 0.08; 1.0]%Q);
               (1.0%Q, VTuple [1.0; 0.95; 0.85; 1.0]%Q)] in
  let run := ref_build_volume_shader (VFloat 35.0) (VFloat 2.0) ramp ref_material in
  run = (Ret tt, run.2)
  ∧ ∃ t' fac color val ec es dens,
      ma_node_tree run.2 = Some t'
      ∧ links t' =
          [ link (1, 0) (0, 1); link (3, fac) (4, 0); link (4, color) (1, ec);
            link (3, fac) (5, 0); link (5, val) (1, es);
            link (2, fac) (6, 0); link (6, val) (1, dens) ].
Proof.
  intros ramp run.
  assert (run = (Ret tt, run.2)) as Hrun by (vm_compute; reflexivity).
  split; [exact Hrun|].
  destruct (build_volume_shader_graph ref_rna_store ref_ramp_color_at ref_new_node
              (VFloat 35.0) (VFloat 2.0) ramp ref_material run.2 Hrun)
    as (t' & fac & color & val & ec & es & dens & Ht & _ & _ & _ & _ & _ & _
        & _ & _ & _ & Hlinks & _).
  exists t', fac, color, val, ec, es, dens. exact (conj Ht Hlinks).
Defined.

(** The material step on the rigged document. *)
Lemma ensure_domain_material_assigns_on_rigged_document :
  let w' := (ref_ensure_domain_material 0 ∅ rigged_document).2 in
  ref_ensure_domain_material 0 ∅ rigged_document = (Ret tt, w')
  ∧ w_objects rigged_document !! 0 = Some (ref_mesh_object "FireVFX_Domain" [])
  ∧ ∃ mat m,
      find_by_name ma_name MATERIAL_NAME (w_materials w') = Some mat
      ∧ w_materials w' !! mat = Some m
      ∧ w_objects w' =
          <[0 := set_first_material mat (ref_mesh_object "FireVFX_Domain" [])]>
            (w_objects rigged_document).
Proof.
  intros w'.
  assert (ref_ensure_domain_material 0 ∅ rigged_document = (Ret tt, w')) as Hrun
    by (vm_compute; reflexivity).
  assert (w_objects rigged_document !! 0 = Some (ref_mesh_object "FireVFX_Domain" []))
    as Ho by reflexivity.
  split; [exact Hrun|]. split; [exact Ho|].
  destruct (ensure_domain_material_assigns ref_rna_store ref_ramp_color_at
              ref_new_node ref_default_tree 0 ∅ rigged_document w' _ Hrun Ho)
    as (mat & m & Hfind & Hm & _ & _ & _ & Hobjs & _).
  exists mat, m. exact (conj Hfind (conj Hm Hobjs)).
Defined.

(** [update_rig] on the rigged document: the sizes and the modifiers. *)
Lemma update_rig_applies_sizes_on_rigged_document :
  _find_rig rigged_document = (Ret (Some 0, Some 1), rigged_document)
  ∧ flag (w_settings rigged_document) "apply_scale_on_update" = false
  ∧ ∃ x y z s,
      field (w_settings rigged_document) "domain_size" = VTuple [x; y; z]
      ∧ field (w_settings rigged_document) "emitter_scale" = VTuple s
      ∧ scales (ref_update_rig rigged_document).2 =
          <[1 := s]> (<[0 := [x / 2.0; y / 2.0; z / 2.0]%Q]> (scales rigged_document))
      ∧ modifier_stacks (ref_update_rig rigged_document).2 =
          modifier_stacks
            (sized_and_configured ref_rna_store ref_modifier_attrs
               ref_domain_settings ref_flow_settings ref_unique_name
               (w_settings rigged_document) x y z s 0 1 rigged_document).
Proof.
  assert (_find_rig rigged_document = (Ret (Some 0, Some 1), rigged_document))
    as Hfind by (vm_compute; reflexivity).
  assert (flag (w_settings rigged_document) "apply_scale_on_update" = false)
    as Hflag by (vm_compute; reflexivity).
  split; [exact Hfind|]. split; [exact Hflag|].
  destruct (update_rig_applies_sizes ref_rna_store ref_ramp_color_at ref_new_node
              ref_default_tree ref_modifier_attrs ref_domain_settings
              ref_flow_settings ref_unique_name ref_raises rigged_document 0 1
              Hfind Hflag)
    as (x & y & z & s & Hsize & Hscale & _ & _ & Hw2 & Hfinal & Hmods & _).
  exists x, y, z, s. split; [exact Hsize|]. split; [exact Hscale|].
  split; [exact (eq_trans Hfinal Hw2)|exact Hmods].
Defined.
